(** * Satellite-Trajectory-Analyzer: the conjunction-assessment core of
    [satellite_monitor.py], embedded in Rocq.

    Python floats are binary64 values, modelled by Rocq's primitive [float]
    (same format, round to nearest even); Python ints are [Z]; exceptions are
    an error monad; the module-level script is a function of its environment
    (the network, the clock, the sgp4 library). *)

From Stdlib Require Import String Ascii ZArith List Bool Lia Floats.
Import ListNotations.

(** ** Exceptions and the error monad *)

(** The Python exceptions the script can raise. *)
Inductive py_exception : Type :=
| ZeroDivisionError   (* float division by zero *)
| OverflowError       (* int(inf), datetime/timedelta out of range *)
| ValueError_nan      (* int(nan) *)
| ValueError_broadcast (* operands could not be broadcast together *)
| ValueError_all_nan  (* nanargmin: All-NaN slice encountered *)
| ValueError_empty    (* argmin of an empty sequence *)
| AxisError           (* axis 1 is out of bounds for array of dimension 1 *)
| LibraryError (code : Z). (* raised inside sgp4's twoline2rv *)

Inductive result (A : Type) : Type :=
| Ok (a : A)
| Raise (e : py_exception).
Arguments Ok {A} a.
Arguments Raise {A} e.

Definition bind {A B : Type} (r : result A) (k : A -> result B) : result B :=
  match r with
  | Ok a => k a
  | Raise e => Raise e
  end.

Declare Scope py_scope.
Delimit Scope py_scope with py.
Notation "x <- c ;; k" := (bind c (fun x => k))
  (at level 61, c at next level, right associativity) : py_scope.
Notation "' pat <- c ;; k" := (bind c (fun x => match x with pat => k end))
  (at level 61, pat pattern, c at next level, right associativity) : py_scope.

(** [mapM f l]: run [f] on the elements from left to right, stop at the first
    exception. *)
Fixpoint mapM {A B : Type} (f : A -> result B) (l : list A) : result (list B) :=
  match l with
  | [] => Ok []
  | a :: l' =>
      match f a with
      | Raise e => Raise e
      | Ok b =>
          match mapM f l' with
          | Raise e => Raise e
          | Ok bs => Ok (b :: bs)
          end
      end
  end.

Definition is_ok {A : Type} (r : result A) : bool :=
  match r with Ok _ => true | Raise _ => false end.

Lemma mapM_raise {A B : Type} (f : A -> result B) (l : list A) (x : A)
    (e : py_exception) :
  In x l -> f x = Raise e -> exists e', mapM f l = Raise e'.
Proof.
  induction l as [|a l IH]; simpl; intros Hin Hx; [contradiction|].
  destruct (f a) as [b|e1] eqn:Ea; [|eauto].
  destruct Hin as [->|Hin]; [congruence|].
  destruct (IH Hin Hx) as [e' ->]. eauto.
Qed.

Lemma mapM_ok {A B : Type} (f : A -> result B) (l : list A) :
  (forall x, In x l -> exists y, f x = Ok y) ->
  exists ys, mapM f l = Ok ys /\ Forall2 (fun x y => f x = Ok y) l ys.
Proof.
  induction l as [|a l IH]; simpl; intros H.
  - exists []. split; [reflexivity | constructor].
  - destruct (H a (or_introl eq_refl)) as [y Hy]. rewrite Hy.
    destruct IH as (ys & -> & HF); [intros x Hx; apply H; right; exact Hx|].
    exists (y :: ys). split; [reflexivity | constructor; assumption].
Qed.

Lemma Forall2_nth_error {A B : Type} (R : A -> B -> Prop)
    (l : list A) (l' : list B) (i : nat) (x : A) :
  Forall2 R l l' -> nth_error l i = Some x ->
  exists y, nth_error l' i = Some y /\ R x y.
Proof.
  intros H. revert i. induction H as [|a b l l' Hab H IH]; intros [|i] Hi;
    simpl in *; try discriminate.
  - injection Hi as <-. eauto.
  - apply IH, Hi.
Qed.

Lemma Forall2_same_length {A B : Type} (R : A -> B -> Prop)
    (l : list A) (l' : list B) :
  Forall2 R l l' -> length l' = length l.
Proof. induction 1; simpl; congruence. Qed.

Lemma mapM_ext {A B : Type} (f g : A -> result B) (l : list A) :
  (forall x, f x = g x) -> mapM f l = mapM g l.
Proof.
  intros H. induction l as [|a l IH]; simpl; [reflexivity|].
  rewrite H, IH. reflexivity.
Qed.

Lemma mapM_Forall2 {A B : Type} (f : A -> result B) (l : list A)
    (ys : list B) :
  mapM f l = Ok ys -> Forall2 (fun x y => f x = Ok y) l ys.
Proof.
  revert ys. induction l as [|a l IH]; intros ys; simpl.
  - intros H. injection H as <-. constructor.
  - destruct (f a) as [b|e] eqn:Ea; [|discriminate].
    destruct (mapM f l) as [bs|e]; [|discriminate].
    intros H. injection H as <-. constructor; auto.
Qed.

(** The exception of [mapM] is that of the first element that raises. *)
Lemma mapM_first_raise {A B : Type} (f : A -> result B) (pre post : list A)
    (x : A) (e : py_exception) :
  (forall y, In y pre -> is_ok (f y) = true) -> f x = Raise e ->
  mapM f (pre ++ x :: post) = Raise e.
Proof.
  intros Hpre Hx. induction pre as [|a pre IH]; simpl.
  - rewrite Hx. reflexivity.
  - pose proof (Hpre a (or_introl eq_refl)) as Ha.
    destruct (f a); [|discriminate].
    rewrite IH; [reflexivity|]. intros y Hy. apply Hpre. right. exact Hy.
Qed.

(** ** Binary64 facts

    The order and NaN facts about [float] the analysis relies on, derived from
    the specification of the primitive operations ([FloatAxioms]). *)
Module F64.

Local Open Scope float_scope.

(** *** The order of [SFcompare] *)

Lemma SFcompare_refl (x : spec_float) :
  x <> S754_nan -> SFcompare x x = Some Eq.
Proof.
  destruct x as [s|s| |s m e]; simpl; intros H; try congruence.
  - destruct s; reflexivity.
  - rewrite Z.compare_refl.
    change (Pos.compare_cont Eq m m) with (Pos.compare m m).
    rewrite Pos.compare_refl. destruct s; reflexivity.
Qed.

Ltac cmp_cases :=
  repeat match goal with
    | H : context [Z.compare ?a ?b] |- _ => destruct (Z.compare_spec a b)
    | |- context [Z.compare ?a ?b] => destruct (Z.compare_spec a b)
    | H : context [Pos.compare_cont Eq ?a ?b] |- _ =>
        change (Pos.compare_cont Eq a b) with (Pos.compare a b) in H;
        destruct (Pos.compare_spec a b)
    | |- context [Pos.compare_cont Eq ?a ?b] =>
        change (Pos.compare_cont Eq a b) with (Pos.compare a b);
        destruct (Pos.compare_spec a b)
    end.

Ltac sf_order :=
  unfold SFleb, SFltb, SFeqb, SFcompare;
  repeat match goal with
    | x : spec_float |- _ => destruct x as [[]|[]| |[] ? ?]
    end;
  simpl; intros; try congruence; try reflexivity;
  cmp_cases; subst; simpl in *; try congruence; try reflexivity; try lia.

Lemma SFleb_trans (x y z : spec_float) :
  SFleb x y = true -> SFleb y z = true -> SFleb x z = true.
Proof. sf_order. Qed.

Lemma SFltb_leb_trans (x y z : spec_float) :
  SFltb x y = true -> SFleb y z = true -> SFltb x z = true.
Proof. sf_order. Qed.

Lemma SFleb_ltb_trans (x y z : spec_float) :
  SFleb x y = true -> SFltb y z = true -> SFltb x z = true.
Proof. sf_order. Qed.

Lemma SFleb_total (x y : spec_float) :
  x <> S754_nan -> y <> S754_nan -> SFleb x y = false -> SFltb y x = true.
Proof. sf_order. Qed.

Lemma SFltb_leb (x y : spec_float) : SFltb x y = true -> SFleb x y = true.
Proof. sf_order. Qed.

Lemma SFltb_not_leb (x y : spec_float) :
  SFltb x y = true -> SFleb y x = false.
Proof. sf_order. Qed.

Lemma SFltb_irrefl (x : spec_float) : SFltb x x = false.
Proof.
  unfold SFltb. destruct x as [s|s| |s m e]; try reflexivity;
    rewrite SFcompare_refl by discriminate; reflexivity.
Qed.

(** *** NaN *)

Lemma is_nan_Prim2SF (x : float) :
  is_nan x = true <-> Prim2SF x = S754_nan.
Proof.
  split; intros H.
  - unfold Prim2SF. rewrite H. reflexivity.
  - unfold is_nan. rewrite eqb_spec, H. reflexivity.
Qed.

Lemma not_nan_Prim2SF (x : float) :
  is_nan x = false <-> Prim2SF x <> S754_nan.
Proof.
  rewrite <- is_nan_Prim2SF. destruct (is_nan x); split; congruence.
Qed.

Lemma sub_nan (x y : float) :
  is_nan x = true \/ is_nan y = true -> is_nan (x - y) = true.
Proof.
  rewrite !is_nan_Prim2SF, sub_spec. unfold SF64sub, SFsub.
  intros [H|H]; rewrite H; [reflexivity | destruct (Prim2SF x); reflexivity].
Qed.

Lemma mul_nan (x y : float) :
  is_nan x = true \/ is_nan y = true -> is_nan (x * y) = true.
Proof.
  rewrite !is_nan_Prim2SF, mul_spec. unfold SF64mul, SFmul.
  intros [H|H]; rewrite H; [reflexivity | destruct (Prim2SF x); reflexivity].
Qed.

Lemma add_nan (x y : float) :
  is_nan x = true \/ is_nan y = true -> is_nan (x + y) = true.
Proof.
  rewrite !is_nan_Prim2SF, add_spec. unfold SF64add, SFadd.
  intros [H|H]; rewrite H; [reflexivity | destruct (Prim2SF x); reflexivity].
Qed.

Lemma sqrt_nan (x : float) : is_nan x = true -> is_nan (sqrt x) = true.
Proof.
  rewrite !is_nan_Prim2SF, sqrt_spec. intros H; rewrite H. reflexivity.
Qed.

(** *** The comparisons of [float] *)

Lemma leb_refl (x : float) : is_nan x = false -> (x <=? x) = true.
Proof.
  rewrite not_nan_Prim2SF, leb_spec. intros H.
  unfold SFleb. rewrite SFcompare_refl by assumption. reflexivity.
Qed.

Lemma leb_trans (x y z : float) :
  (x <=? y) = true -> (y <=? z) = true -> (x <=? z) = true.
Proof. rewrite !leb_spec. apply SFleb_trans. Qed.

Lemma ltb_leb_trans (x y z : float) :
  (x <? y) = true -> (y <=? z) = true -> (x <? z) = true.
Proof. rewrite !leb_spec, !ltb_spec. apply SFltb_leb_trans. Qed.

Lemma leb_ltb_trans (x y z : float) :
  (x <=? y) = true -> (y <? z) = true -> (x <? z) = true.
Proof. rewrite !leb_spec, !ltb_spec. apply SFleb_ltb_trans. Qed.

Lemma not_leb_ltb (x y : float) :
  is_nan x = false -> is_nan y = false ->
  (x <=? y) = false -> (y <? x) = true.
Proof.
  rewrite !not_nan_Prim2SF, leb_spec, ltb_spec. apply SFleb_total.
Qed.

Lemma ltb_leb (x y : float) : (x <? y) = true -> (x <=? y) = true.
Proof. rewrite leb_spec, ltb_spec. apply SFltb_leb. Qed.

Lemma ltb_not_leb (x y : float) : (x <? y) = true -> (y <=? x) = false.
Proof. rewrite leb_spec, ltb_spec. apply SFltb_not_leb. Qed.

Lemma ltb_irrefl (x : float) : (x <? x) = false.
Proof. rewrite ltb_spec. apply SFltb_irrefl. Qed.

Lemma ltb_not_eqb (x y : float) : (x <? y) = true -> (x =? y) = false.
Proof.
  rewrite ltb_spec, eqb_spec. unfold SFltb, SFeqb.
  destruct (SFcompare (Prim2SF x) (Prim2SF y)) as [[]|]; congruence.
Qed.

Lemma leb_not_nan_l (x y : float) : (x <=? y) = true -> is_nan x = false.
Proof.
  rewrite leb_spec, not_nan_Prim2SF. intros H E. rewrite E in H. discriminate.
Qed.

(** *** Signs *)

(** [sign_is s x]: [x] is zero, NaN, or has sign [s] ([true] is minus). *)
Definition sign_is (s : bool) (x : spec_float) : Prop :=
  match x with
  | S754_zero _ | S754_nan => True
  | S754_infinity s' | S754_finite s' _ _ => s' = s
  end.

(** [signed s x]: [x] is not zero, not NaN, and has sign [s]. *)
Definition signed (s : bool) (x : spec_float) : Prop :=
  match x with
  | S754_zero _ | S754_nan => False
  | S754_infinity s' | S754_finite s' _ _ => s' = s
  end.

Lemma binary_round_aux_sign (s : bool) (mx ex : Z) (lx : location) :
  sign_is s (binary_round_aux prec emax s mx ex lx).
Proof.
  unfold binary_round_aux.
  destruct (shr_fexp prec emax mx ex lx) as [mrs' e'].
  destruct (shr_fexp prec emax _ e' loc_Exact) as [mrs'' e''].
  destruct (shr_m mrs''); simpl; auto.
  destruct (_ <=? _)%Z; reflexivity.
Qed.

Lemma SF64mul_sign (sx sy : bool) (x y : spec_float) :
  sign_is sx x -> signed sy y -> sign_is (xorb sx sy) (SF64mul x y).
Proof.
  destruct x as [s1|s1| |s1 m1 e1], y as [s2|s2| |s2 m2 e2]; simpl;
    intros Hx Hy; subst; auto; try contradiction.
  apply binary_round_aux_sign.
Qed.

Lemma SF64div_sign (sx sy : bool) (x y : spec_float) :
  sign_is sx x -> signed sy y -> sign_is (xorb sx sy) (SF64div x y).
Proof.
  destruct x as [s1|s1| |s1 m1 e1], y as [s2|s2| |s2 m2 e2]; simpl;
    intros Hx Hy; subst; auto; try contradiction.
  destruct (SFdiv_core_binary prec emax (Z.pos m1) e1 (Z.pos m2) e2)
    as [[mz ez] lz].
  apply binary_round_aux_sign.
Qed.

Lemma positive_signed (x : float) : (0 <? x) = true -> signed false (Prim2SF x).
Proof.
  rewrite ltb_spec. change (Prim2SF 0) with (S754_zero false).
  destruct (Prim2SF x) as [s|[]| |[] m e]; simpl; try discriminate; auto.
Qed.

Lemma nonpositive_sign (x : float) : (x <=? 0) = true -> sign_is true (Prim2SF x).
Proof.
  rewrite leb_spec. change (Prim2SF 0) with (S754_zero false).
  destruct (Prim2SF x) as [s|[]| |[] m e]; simpl; try discriminate; auto.
Qed.

Lemma signed_sign_is (s : bool) (x : spec_float) : signed s x -> sign_is s x.
Proof. destruct x; simpl; auto. Qed.

Lemma signed_not_zero (s : bool) (x : float) :
  signed s (Prim2SF x) -> (x =? 0) = false.
Proof.
  rewrite eqb_spec. change (Prim2SF 0) with (S754_zero false).
  destruct (Prim2SF x) as [s'|[]| |[] m e]; simpl; try contradiction; auto.
Qed.

(** *** Finite floats *)

Lemma is_finite_Prim2SF (x : float) :
  is_finite x = true ->
  (exists s, Prim2SF x = S754_zero s) \/
  (exists s m e, Prim2SF x = S754_finite s m e).
Proof.
  unfold is_finite, is_infinity, is_nan.
  rewrite !eqb_spec, abs_spec.
  change (Prim2SF infinity) with (S754_infinity false).
  destruct (Prim2SF x) as [s|[]| |s m e]; intros H;
    try (cbv in H; discriminate H); eauto.
Qed.

(** *** Small integers are floats *)

Lemma digits2_pos_iter_xO (p k : positive) :
  digits2_pos (Pos.iter xO p k) = (digits2_pos p + k)%positive.
Proof.
  induction k as [|k IH] using Pos.peano_ind.
  - simpl. lia.
  - rewrite Pos.iter_succ. simpl. rewrite IH. lia.
Qed.

Lemma digits2_pos_bound (p : positive) (n : Z) :
  (Zpos p < 2 ^ n)%Z -> (0 <= n)%Z -> (Zpos (digits2_pos p) <= n)%Z.
Proof.
  revert n. induction p as [p IH|p IH|]; intros n Hp Hn; simpl;
    assert (n <> 0)%Z by (intros ->; simpl in Hp; lia); try lia;
    replace n with (Z.succ (n - 1)) in Hp by lia;
    rewrite Z.pow_succ_r in Hp by lia;
    specialize (IH (n - 1)%Z); lia.
Qed.

Lemma binary_round_aux_canonical (s : bool) (mz : positive) (ez : Z) :
  Zpos (digits2_pos mz) = 53%Z -> (-1074 <= ez <= 971)%Z ->
  binary_round_aux prec emax s (Zpos mz) ez loc_Exact = S754_finite s mz ez.
Proof.
  intros Hd He.
  assert (Hsh : shr_fexp prec emax (Zpos mz) ez loc_Exact =
                ({| shr_m := Zpos mz; shr_r := false; shr_s := false |}, ez)).
  { unfold shr_fexp, fexp, emin, Zdigits2. rewrite Hd.
    unfold prec, emax.
    replace (Z.max (53 + ez - 53) (3 - 1024 - 53) - ez)%Z with 0%Z by lia.
    reflexivity. }
  unfold binary_round_aux. rewrite Hsh. simpl. rewrite Hsh. simpl.
  replace (ez <=? 971)%Z with true by (symmetry; apply Z.leb_le; lia).
  reflexivity.
Qed.

(** An integer of magnitude below [2^53] rounds to itself: the result is a
    finite, valid binary64 number of the same sign. *)
Lemma binary_round_small (s : bool) (p : positive) :
  (Zpos p < 2 ^ 53)%Z ->
  exists m e, binary_round prec emax s p 0 = S754_finite s m e
              /\ valid_binary (S754_finite s m e) = true.
Proof.
  intros Hp.
  assert (Hd := digits2_pos_bound p 53 Hp ltac:(lia)).
  assert (Hd1 : (1 <= Zpos (digits2_pos p))%Z) by lia.
  unfold binary_round.
  set (d := digits2_pos p) in *.
  assert (Hf : fexp prec emax (Zpos d + 0) = (Zpos d - 53)%Z).
  { unfold fexp, emin, prec, emax. lia. }
  rewrite Hf.
  assert (Hal : exists mz, shl_align p 0 (Zpos d - 53) = (mz, (Zpos d - 53)%Z)
                /\ Zpos (digits2_pos mz) = 53%Z).
  { unfold shl_align. destruct (Zpos d - 53 - 0)%Z as [|q|q] eqn:E; try lia.
    - exists p. split; [f_equal; lia | fold d; lia].
    - exists (Pos.iter xO p q). split; [reflexivity|].
      rewrite digits2_pos_iter_xO. fold d. lia. }
  destruct Hal as (mz & -> & Hmz).
  exists mz, (Zpos d - 53)%Z.
  rewrite binary_round_aux_canonical by (auto; lia).
  split; [reflexivity|].
  unfold valid_binary, bounded, canonical_mantissa.
  rewrite Hmz. unfold fexp, emin, prec, emax.
  apply andb_true_iff. split; [apply Z.eqb_eq | apply Z.leb_le]; lia.
Qed.

(** *** Symmetry of the subtraction, and the sign of a square root *)

Lemma ltb_lt_infinity (x y : float) : (x <? y) = true -> (x <? infinity) = true.
Proof.
  rewrite !ltb_spec. change (Prim2SF infinity) with (S754_infinity false).
  destruct (Prim2SF x) as [s|[]| |s m e], (Prim2SF y) as [s'|[]| |s' m' e'];
    simpl; auto; try discriminate; destruct s; auto.
Qed.

Lemma binary_round_aux_opp (s : bool) (m e : Z) (l : location) :
  binary_round_aux prec emax (negb s) m e l =
  SFopp (binary_round_aux prec emax s m e l).
Proof.
  unfold binary_round_aux.
  destruct (shr_fexp prec emax m e l) as [mrs' e'].
  destruct (shr_fexp prec emax _ e' loc_Exact) as [mrs'' e''].
  destruct (shr_m mrs''); simpl; auto.
  destruct (_ <=? _)%Z; reflexivity.
Qed.

(** [x] and [y] differ at most by their sign. *)
Definition same_magnitude (x y : spec_float) : Prop := x = y \/ x = SFopp y.

Lemma SF64sub_swap (x y : spec_float) :
  same_magnitude (SF64sub x y) (SF64sub y x).
Proof.
  unfold same_magnitude.
  destruct x as [sx|sx| |sx mx ex], y as [sy|sy| |sy my ey];
    try (destruct sx, sy; simpl; auto; fail);
    try (destruct sx; simpl; auto; fail);
    try (destruct sy; simpl; auto; fail); simpl; auto.
  rewrite (Z.min_comm ey ex).
  set (a := cond_Zopp sx (Z.pos (fst (shl_align mx ex (Z.min ex ey))))).
  set (b := cond_Zopp sy (Z.pos (fst (shl_align my ey (Z.min ex ey))))).
  replace (b - a)%Z with (- (a - b))%Z by lia.
  destruct (a - b)%Z as [|p|p]; simpl; auto.
  - right. unfold binary_round.
    destruct (shl_align p _ _) as [mz ez].
    apply (binary_round_aux_opp true).
  - right. unfold binary_round.
    destruct (shl_align p _ _) as [mz ez].
    apply (binary_round_aux_opp false).
Qed.

Lemma SF64mul_same_magnitude (x y : spec_float) :
  same_magnitude x y -> SF64mul x x = SF64mul y y.
Proof.
  intros [->| ->]; [reflexivity|].
  destruct y as [s|s| |s m e]; simpl; auto; destruct s; reflexivity.
Qed.

Lemma Prim2SF_eq (x y : float) : Prim2SF x = Prim2SF y -> x = y.
Proof.
  intros H. rewrite <- (SF2Prim_Prim2SF x), <- (SF2Prim_Prim2SF y), H.
  reflexivity.
Qed.

(** The square of a difference does not depend on the order of the operands. *)
Lemma square_diff_sym (a b : float) : (a - b) * (a - b) = (b - a) * (b - a).
Proof.
  apply Prim2SF_eq. rewrite !mul_spec, !sub_spec.
  apply SF64mul_same_magnitude, SF64sub_swap.
Qed.

(** A square root is never below zero. *)
Lemma sqrt_not_negative (x : float) : (sqrt x <? 0) = false.
Proof.
  rewrite ltb_spec, sqrt_spec. change (Prim2SF 0) with (S754_zero false).
  destruct (Prim2SF x) as [s|[]| |[] m e]; simpl; try reflexivity.
  destruct (SFsqrt_core_binary prec emax (Z.pos m) e) as [[mz ez] lz].
  pose proof (binary_round_aux_sign false mz ez lz) as H.
  destruct (binary_round_aux prec emax false mz ez lz) as [s|s| |s m' e'];
    simpl in *; subst; reflexivity.
Qed.

Lemma is_infinity_Prim2SF (x : float) :
  is_infinity x = true -> exists s, Prim2SF x = S754_infinity s.
Proof.
  unfold is_infinity. rewrite eqb_spec, abs_spec.
  change (Prim2SF infinity) with (S754_infinity false).
  destruct (Prim2SF x) as [s|s| |s m e]; intros H;
    try (cbv in H; discriminate H); eauto.
Qed.

End F64.

(** ** Magnitude bounds through binary64 rounding

    A float whose magnitude is below [2^k] is one whose mantissa and exponent
    satisfy [digits + e <= k]; rounding to nearest adds at most one to that
    sum, so sums, products and square roots of small floats stay finite. *)
Module Bounds.

Local Open Scope Z_scope.

(** [fexp] at [prec = 53], [emax = 1024]. *)
Definition fexp64 (x : Z) : Z := Z.max (x - 53) (-1074).

(** [bnd k x]: [x] is zero, or finite with a magnitude below [2^k]. *)
Definition bnd (k : Z) (x : spec_float) : Prop :=
  match x with
  | S754_zero _ => True
  | S754_finite _ m e => Zpos (digits2_pos m) + e <= k
  | _ => False
  end.

(** A magnitude below [2^500]. *)
Definition small (x : float) : bool := (abs x <? 0x1p+500)%float.

Lemma digits2_pos_upper (p : positive) :
  Zpos p < 2 ^ Zpos (digits2_pos p).
Proof.
  induction p as [p IH|p IH|]; simpl digits2_pos.
  - rewrite Pos2Z.inj_succ, Z.pow_succ_r by lia. lia.
  - rewrite Pos2Z.inj_succ, Z.pow_succ_r by lia. lia.
  - simpl. lia.
Qed.

Lemma Zdigits2_nonneg (m : Z) : 0 <= Zdigits2 m.
Proof. destruct m; simpl; lia. Qed.

Lemma Zdigits2_le (m n : Z) :
  0 <= m -> m < 2 ^ n -> 0 <= n -> Zdigits2 m <= n.
Proof.
  intros Hm Hlt Hn. destruct m as [|p|p]; simpl; try lia.
  apply F64.digits2_pos_bound; assumption.
Qed.

Lemma Zdigits2_upper (m : Z) : 0 <= m -> m < 2 ^ Zdigits2 m.
Proof.
  intros Hm. destruct m as [|p|p]; simpl; try lia.
  apply digits2_pos_upper.
Qed.

Lemma shr_1_m (mrs : shr_record) :
  0 <= shr_m mrs -> shr_m (shr_1 mrs) = Z.div2 (shr_m mrs).
Proof.
  destruct mrs as [m r s]. simpl. intros Hm.
  destruct m as [|[p|p|]|p]; simpl; try reflexivity; lia.
Qed.

Lemma Zdigits2_div2 (m : Z) :
  0 <= m -> Zdigits2 (Z.div2 m) = Z.max 0 (Zdigits2 m - 1).
Proof.
  intros Hm. destruct m as [|[p|p|]|p]; try lia;
    unfold Z.div2, Zdigits2; cbn [digits2_pos Pos.div2];
    rewrite ?Pos2Z.inj_succ; lia.
Qed.

Lemma div2_nonneg (m : Z) : 0 <= m -> 0 <= Z.div2 m.
Proof. intros. apply Z.div2_nonneg. assumption. Qed.

Lemma iter_pos_shr_1 (n : positive) (mrs : shr_record) :
  0 <= shr_m mrs ->
  0 <= shr_m (iter_pos shr_1 n mrs) /\
  Zdigits2 (shr_m (iter_pos shr_1 n mrs)) =
  Z.max 0 (Zdigits2 (shr_m mrs) - Zpos n).
Proof.
  revert mrs. induction n as [n IH|n IH|]; intros mrs Hm; simpl.
  - assert (H1 : 0 <= shr_m (shr_1 mrs)).
    { rewrite shr_1_m by assumption. apply div2_nonneg. assumption. }
    destruct (IH (shr_1 mrs) H1) as [H2 E2].
    destruct (IH _ H2) as [H3 E3].
    split; [assumption|].
    rewrite E3, E2, shr_1_m, Zdigits2_div2 by assumption. lia.
  - destruct (IH mrs Hm) as [H2 E2].
    destruct (IH _ H2) as [H3 E3].
    split; [assumption|]. rewrite E3, E2. lia.
  - rewrite shr_1_m by assumption.
    split; [apply div2_nonneg; assumption|].
    apply Zdigits2_div2. assumption.
Qed.

Lemma fexp_eq (x : Z) : fexp prec emax x = fexp64 x.
Proof. reflexivity. Qed.

Lemma shr_fexp_bound (m e : Z) (l : location) :
  0 <= m ->
  let '(mrs, e1) := shr_fexp prec emax m e l in
  0 <= shr_m mrs /\
  e1 = Z.max e (fexp64 (Zdigits2 m + e)) /\
  Zdigits2 (shr_m mrs) + e1 <= Z.max (Zdigits2 m + e) (-1074).
Proof.
  intros Hm. unfold shr_fexp. rewrite fexp_eq.
  set (D := Zdigits2 m). assert (HD : 0 <= D) by apply Zdigits2_nonneg.
  unfold shr.
  assert (Hrec : shr_m (shr_record_of_loc m l) = m).
  { destruct l as [|[]]; reflexivity. }
  destruct (fexp64 (D + e) - e) as [|n|n] eqn:En.
  - rewrite Hrec. fold D. unfold fexp64 in *. repeat split; lia.
  - destruct (iter_pos_shr_1 n (shr_record_of_loc m l)) as [H1 H2].
    { rewrite Hrec. exact Hm. }
    rewrite Hrec in H2. fold D in H2. rewrite H2.
    unfold fexp64 in *. repeat split; lia.
  - rewrite Hrec. fold D. unfold fexp64 in *. repeat split; lia.
Qed.

Lemma round_nearest_even_bound (m : Z) (l : location) :
  0 <= m ->
  0 <= round_nearest_even m l /\
  Zdigits2 (round_nearest_even m l) <= Zdigits2 m + 1.
Proof.
  intros Hm.
  assert (Hs : Zdigits2 (m + 1) <= Zdigits2 m + 1).
  { apply Zdigits2_le; try lia.
    - assert (H := Zdigits2_upper m Hm).
      rewrite Z.pow_add_r by (try apply Zdigits2_nonneg; lia). lia.
    - assert (H := Zdigits2_nonneg m). lia. }
  unfold round_nearest_even.
  destruct l as [|[]]; try destruct (Z.even m); split; try lia.
Qed.

Lemma binary_round_aux_bound (s : bool) (m e k : Z) (l : location) :
  0 <= m -> e <= 971 -> Zdigits2 m + e <= k -> k <= 1023 ->
  bnd (Z.max k (-1074) + 1) (binary_round_aux prec emax s m e l) /\
  F64.sign_is s (binary_round_aux prec emax s m e l).
Proof.
  intros Hm He Hk Hk'. split; [|apply F64.binary_round_aux_sign].
  unfold binary_round_aux.
  assert (H1 := shr_fexp_bound m e l Hm).
  destruct (shr_fexp prec emax m e l) as [mrs1 e1].
  destruct H1 as (Hm1 & He1 & Hb1).
  destruct (round_nearest_even_bound (shr_m mrs1) (loc_of_shr_record mrs1) Hm1)
    as [Hm2 Hd2].
  set (m2 := round_nearest_even (shr_m mrs1) (loc_of_shr_record mrs1)) in *.
  assert (H2 := shr_fexp_bound m2 e1 loc_Exact Hm2).
  destruct (shr_fexp prec emax m2 e1 loc_Exact) as [mrs2 e2].
  destruct H2 as (Hm3 & He2 & Hb2).
  assert (HD := Zdigits2_nonneg m).
  destruct (shr_m mrs2) as [|p|p] eqn:Ep; simpl; try lia; try exact I.
  simpl in Hb2. unfold fexp64 in *.
  replace (e2 <=? 971) with true by (symmetry; apply Z.leb_le; lia).
  simpl. lia.
Qed.

Lemma valid_finite (s : bool) (m : positive) (e : Z) :
  valid_binary (S754_finite s m e) = true ->
  e <= 971 /\ e = fexp64 (Zpos (digits2_pos m) + e).
Proof.
  unfold valid_binary, bounded, canonical_mantissa. rewrite fexp_eq.
  intros H. apply andb_true_iff in H. destruct H as [H1 H2].
  apply Z.eqb_eq in H1. apply Z.leb_le in H2.
  change (emax - prec) with 971 in H2. auto.
Qed.

Lemma binary_round_bound (s : bool) (m : positive) (e k : Z) :
  e <= 971 -> Zpos (digits2_pos m) + e <= k -> k <= 1023 ->
  bnd (Z.max k (-1074) + 1) (binary_round prec emax s m e) /\
  F64.sign_is s (binary_round prec emax s m e).
Proof.
  intros He Hk Hk'. unfold binary_round. rewrite fexp_eq.
  set (e' := fexp64 (Zpos (digits2_pos m) + e)).
  unfold shl_align.
  destruct (e' - e) as [|d|d] eqn:Ed.
  - apply binary_round_aux_bound; unfold Zdigits2; lia.
  - apply binary_round_aux_bound; unfold Zdigits2; lia.
  - apply binary_round_aux_bound; unfold Zdigits2; try lia.
    rewrite F64.digits2_pos_iter_xO. lia.
Qed.

Lemma binary_normalize_bound (M e k : Z) :
  e <= 971 -> Zdigits2 M + e <= k -> k <= 1023 ->
  bnd (Z.max k (-1074) + 1) (binary_normalize prec emax M e false) /\
  (0 <= M -> F64.sign_is false (binary_normalize prec emax M e false)).
Proof.
  intros He Hk Hk'. destruct M as [|p|p]; unfold binary_normalize, Zdigits2 in *.
  - split; [exact I | intros _; exact I].
  - destruct (binary_round_bound false p e k He Hk Hk'). auto.
  - destruct (binary_round_bound true p e k He Hk Hk'). split; [auto | lia].
Qed.

Lemma shl_align_fst_digits (m : positive) (e ez : Z) :
  ez <= e ->
  Zpos (digits2_pos (fst (shl_align m e ez))) = Zpos (digits2_pos m) + (e - ez).
Proof.
  intros H. unfold shl_align.
  destruct (ez - e) as [|d|d] eqn:Ed; cbn [fst]; try lia.
  rewrite F64.digits2_pos_iter_xO. lia.
Qed.

Lemma Zdigits2_abs (m : Z) : Zdigits2 (Z.abs m) = Zdigits2 m.
Proof. destruct m; reflexivity. Qed.

Lemma Zdigits2_sum_bound (a b : positive) (sa sb : bool) (n : Z) (M : Z) :
  Zpos (digits2_pos a) <= n -> Zpos (digits2_pos b) <= n ->
  Z.abs M <= Zpos a + Zpos b ->
  Zdigits2 M <= n + 1.
Proof.
  intros Ha Hb HM. rewrite <- Zdigits2_abs.
  apply Zdigits2_le; try lia.
  assert (H1 := digits2_pos_upper a). assert (H2 := digits2_pos_upper b).
  assert (H3 : 2 ^ Zpos (digits2_pos a) <= 2 ^ n)
    by (apply Z.pow_le_mono_r; lia).
  assert (H4 : 2 ^ Zpos (digits2_pos b) <= 2 ^ n)
    by (apply Z.pow_le_mono_r; lia).
  rewrite Z.pow_add_r by lia. lia.
Qed.

(** Addition and subtraction of two finite numbers. *)
Lemma finite_sum_bound (sx sy : bool) (mx my : positive) (ex ey k : Z) (neg : bool) :
  ex <= 971 -> ey <= 971 ->
  Zpos (digits2_pos mx) + ex <= k -> Zpos (digits2_pos my) + ey <= k ->
  k <= 1022 ->
  let ez := Z.min ex ey in
  let M := if neg
           then cond_Zopp sx (Zpos (fst (shl_align mx ex ez))) -
                cond_Zopp sy (Zpos (fst (shl_align my ey ez)))
           else cond_Zopp sx (Zpos (fst (shl_align mx ex ez))) +
                cond_Zopp sy (Zpos (fst (shl_align my ey ez))) in
  bnd (Z.max (k + 1) (-1074) + 1) (binary_normalize prec emax M ez false) /\
  (0 <= M -> F64.sign_is false (binary_normalize prec emax M ez false)).
Proof.
  intros Hex Hey Hkx Hky Hk ez M.
  apply binary_normalize_bound; try lia.
  assert (Hdx := shl_align_fst_digits mx ex ez ltac:(lia)).
  assert (Hdy := shl_align_fst_digits my ey ez ltac:(lia)).
  assert (HM : Zdigits2 M <= (k - ez) + 1).
  { apply (Zdigits2_sum_bound (fst (shl_align mx ex ez))
             (fst (shl_align my ey ez)) sx sy); try lia.
    subst M. destruct neg, sx, sy; unfold cond_Zopp; lia. }
  lia.
Qed.

Lemma SF64sub_bound (x y : spec_float) (k : Z) :
  valid_binary x = true -> valid_binary y = true ->
  bnd k x -> bnd k y -> k <= 1022 ->
  bnd (Z.max (k + 1) (-1074) + 1) (SF64sub x y).
Proof.
  intros Vx Vy Bx By Hk.
  destruct x as [sx|sx| |sx mx ex], y as [sy|sy| |sy my ey];
    simpl in Bx, By; try contradiction.
  - destruct sx, sy; exact I.
  - simpl. lia.
  - simpl. lia.
  - destruct (valid_finite _ _ _ Vx) as [Hex _].
    destruct (valid_finite _ _ _ Vy) as [Hey _].
    apply (finite_sum_bound sx sy mx my ex ey k true); assumption.
Qed.

Lemma SF64add_bound (x y : spec_float) (k : Z) :
  valid_binary x = true -> valid_binary y = true ->
  bnd k x -> bnd k y -> k <= 1022 ->
  F64.sign_is false x -> F64.sign_is false y ->
  bnd (Z.max (k + 1) (-1074) + 1) (SF64add x y) /\
  F64.sign_is false (SF64add x y).
Proof.
  intros Vx Vy Bx By Hk Sx Sy.
  destruct x as [sx|sx| |sx mx ex], y as [sy|sy| |sy my ey];
    simpl in Bx, By, Sx, Sy; try contradiction; subst.
  - destruct sx, sy; split; exact I.
  - simpl. split; [lia | reflexivity].
  - simpl. split; [lia | reflexivity].
  - destruct (valid_finite _ _ _ Vx) as [Hex _].
    destruct (valid_finite _ _ _ Vy) as [Hey _].
    destruct (finite_sum_bound false false mx my ex ey k false
                Hex Hey Bx By Hk) as [H1 H2].
    split; [exact H1|]. apply H2. unfold cond_Zopp. lia.
Qed.

Lemma Zdigits2_mul (a b : positive) :
  Zdigits2 (Zpos (a * b)) <= Zpos (digits2_pos a) + Zpos (digits2_pos b).
Proof.
  apply Zdigits2_le; try lia.
  rewrite Pos2Z.inj_mul, Z.pow_add_r by lia.
  assert (H1 := digits2_pos_upper a). assert (H2 := digits2_pos_upper b).
  nia.
Qed.

Lemma SF64mul_bound (x y : spec_float) (kx ky : Z) :
  valid_binary x = true -> valid_binary y = true ->
  bnd kx x -> bnd ky y -> kx + ky <= 1023 ->
  bnd (Z.max (kx + ky) (-1074) + 1) (SF64mul x y).
Proof.
  intros Vx Vy Bx By Hk.
  destruct x as [sx|sx| |sx mx ex], y as [sy|sy| |sy my ey];
    cbn [bnd] in Bx, By; try contradiction; try exact I.
  destruct (valid_finite _ _ _ Vx) as [Hex Hcx].
  destruct (valid_finite _ _ _ Vy) as [Hey Hcy].
  unfold fexp64 in Hcx, Hcy.
  assert (Hd := Zdigits2_mul mx my).
  unfold SF64mul, SFmul.
  apply binary_round_aux_bound; lia.
Qed.

Lemma SF64mul_self_sign (x : spec_float) : F64.sign_is false (SF64mul x x).
Proof.
  destruct x as [s|s| |s m e]; simpl; auto.
  - destruct s; reflexivity.
  - replace (xorb s s) with false by (destruct s; reflexivity).
    apply F64.binary_round_aux_sign.
Qed.

Lemma sqrt_digits (m q r n : Z) :
  0 <= q -> m = q * q + r -> 0 <= r -> m < 2 ^ (2 * n) -> 0 <= n ->
  Zdigits2 q <= n.
Proof.
  intros Hq Hm Hr Hlt Hn. apply Zdigits2_le; try lia.
  destruct (Z.lt_ge_cases q (2 ^ n)) as [H|H]; [exact H|].
  replace (2 * n) with (n + n) in Hlt by lia.
  rewrite Z.pow_add_r in Hlt by lia. nia.
Qed.

Lemma SF64sqrt_bound (x : spec_float) (k : Z) :
  valid_binary x = true -> bnd k x -> k <= 1023 -> F64.sign_is false x ->
  bnd 1023 (SF64sqrt x).
Proof.
  intros Vx Bx Hk Sx.
  destruct x as [sx|sx| |sx mx ex]; cbn [bnd F64.sign_is] in Bx, Sx;
    try contradiction.
  - exact I.
  - subst sx. destruct (valid_finite _ _ _ Vx) as [Hex _].
    unfold SF64sqrt, SFsqrt, SFsqrt_core_binary. rewrite fexp_eq.
    set (d := Zdigits2 (Zpos mx)).
    assert (Hd : d = Zpos (digits2_pos mx)) by reflexivity.
    assert (Hd0 : 0 < d) by lia.
    set (e' := Z.min (fexp64 (Z.div2 (d + ex + 1))) (Z.div2 ex)).
    assert (Hdiv : Z.div2 ex = ex / 2) by apply Z.div2_div.
    assert (He' : e' <= ex / 2) by (unfold e'; lia).
    assert (Hle2 := Z.mul_div_le ex 2 ltac:(lia)).
    assert (Hs : 0 <= ex - 2 * e') by lia.
    set (m' := match ex - 2 * e' with
               | Z0 => Zpos mx
               | Zpos _ => Z.shiftl (Zpos mx) (ex - 2 * e')
               | Zneg _ => 0
               end).
    assert (Hm' : m' = Zpos mx * 2 ^ (ex - 2 * e')).
    { unfold m'. destruct (ex - 2 * e') as [|p|p] eqn:E; try lia.
      rewrite Z.shiftl_mul_pow2 by lia. reflexivity. }
    assert (Hpow : 0 < 2 ^ (ex - 2 * e')) by (apply Z.pow_pos_nonneg; lia).
    assert (Hm'0 : 0 <= m') by (rewrite Hm'; apply Z.mul_nonneg_nonneg; lia).
    assert (Hspec := Z.sqrtrem_spec m' Hm'0).
    destruct (Z.sqrtrem m') as [q r].
    destruct Hspec as [Hqr Hr].
    assert (Hq : 0 <= q) by lia.
    set (t := d + (ex - 2 * e') + 1) in *.
    assert (Ht := Z.div_mod t 2 ltac:(lia)).
    assert (Ht' := Z.mod_pos_bound t 2 ltac:(lia)).
    assert (Hdq : Zdigits2 q <= t / 2).
    { apply (sqrt_digits m' q r); try lia.
      apply Z.lt_le_trans with (2 ^ (d + (ex - 2 * e'))).
      - rewrite Hm', Z.pow_add_r by lia.
        assert (H := digits2_pos_upper mx). rewrite <- Hd in H.
        apply Z.mul_lt_mono_pos_r; assumption.
      - apply Z.pow_le_mono_r; lia. }
    assert (Hsum : Zdigits2 q + e' <= 1022) by lia.
    assert (He971 : e' <= 971) by lia.
    apply (binary_round_aux_bound false q e' 1022); try assumption; lia.
Qed.

Lemma bnd_weaken (k k' : Z) (x : spec_float) :
  bnd k x -> k <= k' -> bnd k' x.
Proof. destruct x; simpl; auto. intros. lia. Qed.

Lemma bnd_ltb_infinity (k : Z) (x : float) :
  bnd k (Prim2SF x) -> (x <? infinity)%float = true.
Proof.
  rewrite ltb_spec. change (Prim2SF infinity) with (S754_infinity false).
  destruct (Prim2SF x) as [s|s| |s m e]; simpl; try contradiction;
    reflexivity.
Qed.

Lemma small_bnd (x : float) : small x = true -> bnd 500 (Prim2SF x).
Proof.
  unfold small. rewrite ltb_spec, abs_spec.
  replace (Prim2SF 0x1p+500%float) with (S754_finite false 4503599627370496 448)
    by (vm_compute; reflexivity).
  assert (V := Prim2SF_valid x).
  destruct (Prim2SF x) as [s|s| |s m e]; cbn [SFabs bnd]; try discriminate; auto.
  destruct (valid_finite _ _ _ V) as [_ Hc]. unfold fexp64 in Hc.
  unfold SFltb, SFcompare.
  destruct (Z.compare_spec e 448) as [->|Hlt|Hgt].
  - destruct (Pos.compare_cont Eq m 4503599627370496%positive) eqn:E;
      intros Hd; try (exfalso; congruence).
    apply Pos.compare_lt_iff in E.
    assert (Zpos (digits2_pos m) <= 52); [|lia].
    apply F64.digits2_pos_bound; [|lia].
    replace (2 ^ 52) with 4503599627370496 by reflexivity.
    apply Pos2Z.pos_lt_pos. exact E.
  - intros _. lia.
  - intros Hd. exfalso. congruence.
Qed.
Lemma square_diff_bound (x1 x2 : float) :
  small x1 = true -> small x2 = true ->
  bnd 1005 (Prim2SF ((x1 - x2) * (x1 - x2))%float) /\
  F64.sign_is false (Prim2SF ((x1 - x2) * (x1 - x2))%float).
Proof.
  intros H1 H2. rewrite mul_spec. split; [|apply SF64mul_self_sign].
  assert (Hd : bnd 502 (Prim2SF (x1 - x2)%float)).
  { rewrite sub_spec.
    apply (SF64sub_bound _ _ 500); try apply Prim2SF_valid;
      try apply small_bnd; auto. lia. }
  apply (SF64mul_bound _ _ 502 502); try apply Prim2SF_valid; auto. lia.
Qed.

(** A number of small magnitude minus itself is [+0]. *)
Lemma small_sub_self (x : float) : small x = true -> (x - x = 0)%float.
Proof.
  intros H. apply small_bnd in H.
  apply F64.Prim2SF_eq. rewrite sub_spec.
  change (Prim2SF 0) with (S754_zero false).
  destruct (Prim2SF x) as [s|s| |s m e]; cbn [bnd] in H; try contradiction.
  - destruct s; reflexivity.
  - simpl. rewrite Z.min_id, Z.sub_diag. reflexivity.
Qed.

End Bounds.

(** ** Exact results of binary64 rounding

    [binary_round_aux] cuts a quotient at the exponent the format gives it
    and rounds to nearest, ties to even: [binary_round_aux_spec].  A value
    that has a normal representation is therefore returned as it is by
    rounding, by sums and differences, and by the division of a multiple by
    its divisor. *)
Module Rounding.

Local Open Scope Z_scope.

(** [holds mrs N D]: the record [mrs] is the quotient [N / D] cut to an
    integer, with its round bit (the rest is at least a half) and its sticky
    bit (the rest is neither zero nor a half). *)
Definition holds (mrs : shr_record) (N D : Z) : Prop :=
  shr_m mrs = N / D /\
  (shr_r mrs = true <-> D <= 2 * (N mod D)) /\
  (shr_s mrs = true <-> (N mod D <> 0 /\ 2 * (N mod D) <> D)).

Lemma holds_of_loc (N D : Z) :
  0 < D ->
  holds (shr_record_of_loc (N / D) (new_location D (N mod D))) N D.
Proof.
  intros HD. pose proof (Z.mod_pos_bound N D HD) as Hr.
  set (k := N mod D) in *. unfold holds.
  unfold new_location, new_location_even, new_location_odd.
  destruct (Z.even D) eqn:Ev.
  - destruct (Z.eqb_spec k 0) as [E0|E0]; cbn [shr_record_of_loc shr_m shr_r shr_s].
    + repeat split; try discriminate; try lia.
    + destruct (Z.compare_spec (2 * k) D) as [E|E|E];
        cbn [shr_record_of_loc shr_m shr_r shr_s];
        repeat split; try discriminate; try lia; intros; try lia; auto.
  - assert (Hodd : 2 * k <> D).
    { intros E. rewrite <- E in Ev. rewrite Z.even_mul in Ev. discriminate. }
    destruct (Z.eqb_spec k 0) as [E0|E0]; cbn [shr_record_of_loc shr_m shr_r shr_s].
    + repeat split; try discriminate; try lia.
    + destruct (Z.compare_spec (2 * k + 1) D) as [E|E|E];
        cbn [shr_record_of_loc shr_m shr_r shr_s];
        repeat split; try discriminate; try lia; intros; try lia; auto.
Qed.

Lemma div_mod_double (N D q r p b : Z) :
  0 < D -> N = D * q + r -> 0 <= r < D -> q = 2 * p + b -> 0 <= b < 2 ->
  N / (2 * D) = p /\ N mod (2 * D) = D * b + r.
Proof.
  intros HD HN Hr Hq Hb.
  assert (H : N = (2 * D) * p + (D * b + r)) by (subst; ring).
  assert (Hb' : 0 <= D * b + r < 2 * D) by nia.
  split.
  - symmetry. apply (Z.div_unique N (2 * D) p (D * b + r)); [left; exact Hb' | exact H].
  - symmetry. apply (Z.mod_unique N (2 * D) p (D * b + r)); [left; exact Hb' | exact H].
Qed.

Lemma shr_1_holds (mrs : shr_record) (N D : Z) :
  0 <= N -> 0 < D -> holds mrs N D -> holds (shr_1 mrs) N (2 * D).
Proof.
  intros HN HD (Hm & Hr & Hs).
  pose proof (Z.div_mod N D ltac:(lia)) as E.
  pose proof (Z.mod_pos_bound N D HD) as Hrho.
  pose proof (Z.div_pos N D HN HD) as Hq.
  set (q := N / D) in *. set (rho := N mod D) in *.
  destruct mrs as [m r s]. cbn [shr_m shr_r shr_s] in *.
  assert (Hrs : (r || s) = true <-> rho <> 0).
  { rewrite orb_true_iff, Hr, Hs. lia. }
  unfold holds.
  destruct m as [|[p|p|]|p]; try lia.
  - destruct (div_mod_double N D q rho 0 0 HD E Hrho ltac:(lia) ltac:(lia))
      as [-> ->].
    cbn [shr_1 shr_m shr_r shr_s]. split; [reflexivity|].
    split; [split; intros; try discriminate; try reflexivity; lia
           | rewrite Hrs; lia].
  - destruct (div_mod_double N D q rho (Zpos p) 1 HD E Hrho ltac:(lia) ltac:(lia))
      as [-> ->].
    cbn [shr_1 shr_m shr_r shr_s]. split; [reflexivity|].
    split; [split; intros; try discriminate; try reflexivity; lia
           | rewrite Hrs; lia].
  - destruct (div_mod_double N D q rho (Zpos p) 0 HD E Hrho ltac:(lia) ltac:(lia))
      as [-> ->].
    cbn [shr_1 shr_m shr_r shr_s]. split; [reflexivity|].
    split; [split; intros; try discriminate; try reflexivity; lia
           | rewrite Hrs; lia].
  - destruct (div_mod_double N D q rho 0 1 HD E Hrho ltac:(lia) ltac:(lia))
      as [-> ->].
    cbn [shr_1 shr_m shr_r shr_s]. split; [reflexivity|].
    split; [split; intros; try discriminate; try reflexivity; lia
           | rewrite Hrs; lia].
Qed.

(** What rounding to nearest, ties to even, makes of such a record. *)
Lemma round_nearest_even_holds (mrs : shr_record) (N D : Z) :
  0 < D -> holds mrs N D ->
  let m := round_nearest_even (shr_m mrs) (loc_of_shr_record mrs) in
  (m = N / D /\ 2 * (N mod D) <= D) \/
  (m = N / D + 1 /\ D <= 2 * (N mod D)).
Proof.
  intros HD (Hm & Hr & Hs). cbv zeta.
  destruct mrs as [m r s]. cbn [shr_m shr_r shr_s] in *. subst m.
  unfold round_nearest_even, loc_of_shr_record.
  destruct r, s.
  - right. split; [reflexivity | apply Hr; reflexivity].
  - destruct (Z.even (N / D)).
    + left. split; [reflexivity|].
      destruct (Z.eq_dec (N mod D) 0) as [E|E]; [lia|].
      destruct (Z.eq_dec (2 * (N mod D)) D) as [E'|E']; [lia|].
      assert (false = true) by (apply Hs; auto). discriminate.
    + right. split; [reflexivity | apply Hr; reflexivity].
  - left. split; [reflexivity|].
    destruct (Z_le_gt_dec D (2 * (N mod D))) as [H|H]; [|lia].
    apply Hr in H. discriminate.
  - left. split; [reflexivity|].
    destruct (Z_le_gt_dec D (2 * (N mod D))) as [H|H]; [|lia].
    apply Hr in H. discriminate.
Qed.


Lemma pow2_xO (n : positive) : 2 ^ Zpos n~0 = 2 ^ Zpos n * 2 ^ Zpos n.
Proof.
  replace (Zpos n~0) with (Zpos n + Zpos n) by lia.
  apply Z.pow_add_r; lia.
Qed.

Lemma pow2_xI (n : positive) : 2 ^ Zpos n~1 = 2 * (2 ^ Zpos n * 2 ^ Zpos n).
Proof.
  replace (Zpos n~1) with (Z.succ (Zpos n + Zpos n)) by lia.
  rewrite Z.pow_succ_r, Z.pow_add_r by lia. reflexivity.
Qed.

Lemma iter_pos_shr_1_holds (n : positive) (mrs : shr_record) (N D : Z) :
  0 <= N -> 0 < D -> holds mrs N D ->
  holds (iter_pos shr_1 n mrs) N (D * 2 ^ Zpos n).
Proof.
  intros HN. revert mrs D.
  induction n as [n IH|n IH|]; intros mrs D HD H; cbn [iter_pos].
  - assert (Hp : 0 < 2 ^ Zpos n) by (apply Z.pow_pos_nonneg; lia).
    replace (D * 2 ^ Zpos n~1) with (2 * D * 2 ^ Zpos n * 2 ^ Zpos n)
      by (rewrite pow2_xI; ring).
    apply IH; [nia|]. apply IH; [lia|]. apply shr_1_holds; assumption.
  - assert (Hp : 0 < 2 ^ Zpos n) by (apply Z.pow_pos_nonneg; lia).
    replace (D * 2 ^ Zpos n~0) with (D * 2 ^ Zpos n * 2 ^ Zpos n)
      by (rewrite pow2_xO; ring).
    apply IH; [nia|]. apply IH; assumption.
  - change (2 ^ 1) with 2. rewrite Z.mul_comm. apply shr_1_holds; assumption.
Qed.

(** The shift made by [shr_fexp]. *)
Definition shift_of (m e : Z) : Z :=
  Z.max 0 (fexp prec emax (Zdigits2 m + e) - e).

Lemma shr_fexp_holds (N D e : Z) :
  0 <= N -> 0 < D ->
  exists mrs,
    shr_fexp prec emax (N / D) e (new_location D (N mod D)) =
      (mrs, e + shift_of (N / D) e) /\
    holds mrs N (D * 2 ^ shift_of (N / D) e).
Proof.
  intros HN HD. unfold shr_fexp, shr, shift_of.
  pose proof (holds_of_loc N D HD) as H.
  destruct (fexp prec emax (Zdigits2 (N / D) + e) - e) as [|p|p] eqn:E.
  - eexists. split; [rewrite Z.add_0_r; reflexivity|].
    simpl. rewrite Z.mul_1_r. exact H.
  - eexists. split.
    + rewrite Z.max_r by lia. reflexivity.
    + rewrite Z.max_r by lia. apply iter_pos_shr_1_holds; assumption.
  - eexists. split.
    + rewrite Z.max_l by lia. rewrite Z.add_0_r. reflexivity.
    + rewrite Z.max_l by lia. simpl. rewrite Z.mul_1_r. exact H.
Qed.

Lemma new_location_exact (m : Z) :
  new_location 1 (m mod 1) = loc_Exact.
Proof. rewrite Z.mod_1_r. reflexivity. Qed.

(** The result of [binary_round_aux] on the quotient [N / D] with the
    location of its rest: the quotient is cut at the exponent the format
    gives it, rounded to nearest (ties to even), and cut once more when the
    rounding carries. *)
Lemma binary_round_aux_spec (s : bool) (N D e : Z) :
  0 <= N -> 0 < D ->
  let k := shift_of (N / D) e in
  exists m1,
    ((m1 = N / (D * 2 ^ k) /\ 2 * (N mod (D * 2 ^ k)) <= D * 2 ^ k) \/
     (m1 = N / (D * 2 ^ k) + 1 /\ D * 2 ^ k <= 2 * (N mod (D * 2 ^ k)))) /\
    binary_round_aux prec emax s (N / D) e (new_location D (N mod D)) =
    match m1 / 2 ^ shift_of m1 (e + k) with
    | 0 => S754_zero s
    | Zpos m =>
        if e + k + shift_of m1 (e + k) <=? emax - prec
        then S754_finite s m (e + k + shift_of m1 (e + k))
        else S754_infinity s
    | Zneg _ => S754_nan
    end.
Proof.
  intros HN HD k.
  destruct (shr_fexp_holds N D e HN HD) as (mrs1 & Hs1 & Hh1).
  fold k in Hs1, Hh1.
  assert (Hk : 0 <= k) by (unfold k, shift_of; lia).
  assert (HD1 : 0 < D * 2 ^ k).
  { assert (0 < 2 ^ k) by (apply Z.pow_pos_nonneg; lia). nia. }
  pose proof (round_nearest_even_holds mrs1 N (D * 2 ^ k) HD1 Hh1) as Hr.
  cbv zeta in Hr.
  set (m1 := round_nearest_even (shr_m mrs1) (loc_of_shr_record mrs1)) in *.
  exists m1. split; [exact Hr|].
  assert (Hm1 : 0 <= m1).
  { pose proof (Z.div_pos N (D * 2 ^ k) HN HD1). lia. }
  unfold binary_round_aux. rewrite Hs1. fold m1.
  destruct (shr_fexp_holds m1 1 (e + k) Hm1 ltac:(lia)) as (mrs2 & Hs2 & Hh2).
  rewrite Z.div_1_r, new_location_exact in Hs2. rewrite Hs2.
  destruct Hh2 as (Hm2 & _). rewrite Z.div_1_r, Z.mul_1_l in Hm2.
  rewrite Hm2. reflexivity.
Qed.

(** *** Digits *)

Lemma digits2_pos_lower (p : positive) :
  2 ^ (Zpos (digits2_pos p) - 1) <= Zpos p.
Proof.
  induction p as [p IH|p IH|]; cbn [digits2_pos].
  - rewrite Pos2Z.inj_succ.
    replace (Z.succ (Zpos (digits2_pos p)) - 1)
      with (Z.succ (Zpos (digits2_pos p) - 1)) by lia.
    rewrite Z.pow_succ_r by lia. lia.
  - rewrite Pos2Z.inj_succ.
    replace (Z.succ (Zpos (digits2_pos p)) - 1)
      with (Z.succ (Zpos (digits2_pos p) - 1)) by lia.
    rewrite Z.pow_succ_r by lia. lia.
  - simpl. lia.
Qed.

Lemma Zdigits2_eq (m n : Z) :
  0 < n -> 2 ^ (n - 1) <= m < 2 ^ n -> Zdigits2 m = n.
Proof.
  intros Hn [Hlo Hhi].
  assert (Hm : 0 < m).
  { assert (0 < 2 ^ (n - 1)) by (apply Z.pow_pos_nonneg; lia). lia. }
  pose proof (Bounds.Zdigits2_le m n ltac:(lia) Hhi ltac:(lia)) as Hle.
  destruct m as [|p|p]; try lia. cbn [Zdigits2] in *.
  pose proof (Bounds.digits2_pos_upper p) as Hup.
  destruct (Z_lt_le_dec (Zpos (digits2_pos p)) n) as [Hlt|Hge]; [|lia].
  exfalso.
  assert (2 ^ Zpos (digits2_pos p) <= 2 ^ (n - 1))
    by (apply Z.pow_le_mono_r; lia).
  lia.
Qed.

Lemma Zdigits2_bounds (m : Z) :
  0 < m -> 2 ^ (Zdigits2 m - 1) <= m < 2 ^ Zdigits2 m.
Proof.
  intros Hm. destruct m as [|p|p]; try lia. cbn [Zdigits2].
  split; [apply digits2_pos_lower | apply Bounds.digits2_pos_upper].
Qed.

(** *** The normal range *)

Lemma fexp_normal (n : Z) : -1021 <= n -> fexp prec emax n = n - 53.
Proof. intros H. unfold fexp, emin, prec, emax. lia. Qed.

(** *** Exact results

    A positive value that is a whole number [V] of units of [2^-1074] has one
    normal representation, [canon s V], when it has one at all ([rep V]). *)

Definition units (m : positive) (e : Z) : Z := Zpos m * 2 ^ (e + 1074).

Definition canon (s : bool) (V : Z) : spec_float :=
  S754_finite s (Z.to_pos (V / 2 ^ (Zdigits2 V - 53))) (Zdigits2 V - 1127).

Definition rep (V : Z) : Prop :=
  2 ^ 52 <= V < 2 ^ 2098 /\ V mod 2 ^ (Zdigits2 V - 53) = 0.

Lemma pow2_pos (n : Z) : 0 <= n -> 0 < 2 ^ n.
Proof. intros H. apply Z.pow_pos_nonneg; lia. Qed.

Lemma pow2_split (a b : Z) : 0 <= b <= a -> 2 ^ a = 2 ^ (a - b) * 2 ^ b.
Proof.
  intros H. rewrite <- Z.pow_add_r by lia. f_equal. lia.
Qed.

Lemma Zdigits2_mul_pow2 (m n : Z) :
  0 < m -> 0 <= n -> Zdigits2 (m * 2 ^ n) = Zdigits2 m + n.
Proof.
  intros Hm Hn. pose proof (Zdigits2_bounds m Hm) as [Hlo Hhi].
  pose proof (pow2_pos n Hn) as H2.
  assert (Hd : 1 <= Zdigits2 m).
  { destruct m as [|p|p]; try lia. cbn [Zdigits2]. lia. }
  apply Zdigits2_eq; [lia|]. split.
  - replace (Zdigits2 m + n - 1) with ((Zdigits2 m - 1) + n) by lia.
    rewrite Z.pow_add_r by lia. apply Z.mul_le_mono_nonneg_r; lia.
  - rewrite Z.pow_add_r by lia. apply Z.mul_lt_mono_pos_r; lia.
Qed.

Lemma rep_digits (V : Z) : rep V -> 53 <= Zdigits2 V <= 2098.
Proof.
  intros [[Hlo Hhi] _]. split.
  - pose proof (Zdigits2_bounds V ltac:(lia)) as [_ H].
    destruct (Z_lt_le_dec (Zdigits2 V) 53) as [Hlt|Hge]; [|lia].
    exfalso. assert (2 ^ Zdigits2 V <= 2 ^ 52).
    { apply Z.pow_le_mono_r; lia. }
    lia.
  - apply Bounds.Zdigits2_le; lia.
Qed.

(** The mantissa of [canon]. *)
Lemma canon_mantissa (V : Z) :
  rep V ->
  let m := V / 2 ^ (Zdigits2 V - 53) in
  2 ^ 52 <= m < 2 ^ 53 /\ V = m * 2 ^ (Zdigits2 V - 53).
Proof.
  intros HV. pose proof (rep_digits V HV) as Hd.
  destruct HV as [[Hlo Hhi] Hmod]. cbv zeta.
  pose proof (Zdigits2_bounds V ltac:(lia)) as [H1 H2].
  set (d := Zdigits2 V) in *.
  pose proof (pow2_pos (d - 53) ltac:(lia)) as Hp.
  assert (E : V = V / 2 ^ (d - 53) * 2 ^ (d - 53)).
  { pose proof (Z.div_mod V (2 ^ (d - 53)) ltac:(lia)). lia. }
  split; [|exact E]. split.
  - apply Z.div_le_lower_bound; [lia|].
    rewrite Z.mul_comm, <- Z.pow_add_r by lia.
    replace (52 + (d - 53)) with (d - 1) by lia. exact H1.
  - apply Z.div_lt_upper_bound; [lia|].
    rewrite Z.mul_comm, <- Z.pow_add_r by lia.
    replace (53 + (d - 53)) with d by lia. exact H2.
Qed.

Lemma rep_intro (V g : Z) :
  0 <= g -> V mod 2 ^ g = 0 -> 2 ^ 52 <= V < 2 ^ (53 + g) -> g <= 2045 ->
  rep V.
Proof.
  intros Hg Hmod [Hlo Hhi] Hg'.
  assert (Hd : Zdigits2 V <= 53 + g) by (apply Bounds.Zdigits2_le; lia).
  assert (Hd' : 53 <= Zdigits2 V).
  { pose proof (Zdigits2_bounds V ltac:(lia)) as [_ H].
    destruct (Z_lt_le_dec (Zdigits2 V) 53) as [Hlt|Hge]; [|lia].
    exfalso. assert (2 ^ Zdigits2 V <= 2 ^ 52).
    { apply Z.pow_le_mono_r; lia. }
    lia. }
  split; [split; [exact Hlo|]|].
  - apply Z.lt_le_trans with (1 := Hhi). apply Z.pow_le_mono_r; lia.
  - apply Z.mod_divide in Hmod; [|pose proof (pow2_pos g Hg); lia].
    apply Z.mod_divide; [pose proof (pow2_pos (Zdigits2 V - 53)); lia|].
    apply Z.divide_trans with (2 := Hmod).
    exists (2 ^ (g - (Zdigits2 V - 53))).
    rewrite <- Z.pow_add_r by lia. f_equal. lia.
Qed.

(** A normal float is the [canon] of its units. *)
Lemma canon_units (s : bool) (m : positive) (e : Z) :
  Zpos (digits2_pos m) = 53 -> -1074 <= e <= 971 ->
  rep (units m e) /\ S754_finite s m e = canon s (units m e).
Proof.
  intros Hd He. unfold units.
  pose proof (pow2_pos (e + 1074) ltac:(lia)) as Hp.
  assert (Hdu : Zdigits2 (Zpos m * 2 ^ (e + 1074)) = 53 + (e + 1074)).
  { rewrite Zdigits2_mul_pow2 by lia. cbn [Zdigits2]. lia. }
  pose proof (Zdigits2_bounds (Zpos m) ltac:(lia)) as Hb.
  cbn [Zdigits2] in Hb. rewrite Hd in Hb.
  split.
  - apply (rep_intro _ (e + 1074)); try lia.
    + apply Z.mod_mul. lia.
    + split.
      * apply Z.le_trans with (Zpos m * 1); [lia|].
        apply Z.mul_le_mono_nonneg_l; lia.
      * rewrite (Z.pow_add_r 2 53 (e + 1074)) by lia.
        apply Z.mul_lt_mono_pos_r; lia.
  - unfold canon. rewrite Hdu.
    replace (53 + (e + 1074) - 53) with (e + 1074) by lia.
    rewrite Z.div_mul by lia. f_equal. lia.
Qed.

Lemma canon_valid (s : bool) (V : Z) :
  rep V -> valid_binary (canon s V) = true.
Proof.
  intros HV. pose proof (rep_digits V HV) as Hd.
  pose proof (canon_mantissa V HV) as [Hm _]. cbv zeta in Hm.
  unfold canon, valid_binary, bounded, canonical_mantissa.
  set (m := V / 2 ^ (Zdigits2 V - 53)) in *.
  assert (Hdm : Zpos (digits2_pos (Z.to_pos m)) = 53).
  { change (Zpos (digits2_pos (Z.to_pos m))) with (Zdigits2 (Zpos (Z.to_pos m))).
    rewrite Z2Pos.id by lia. apply Zdigits2_eq; lia. }
  rewrite Hdm. apply andb_true_iff. split.
  - apply Z.eqb_eq. unfold fexp, emin, prec, emax. lia.
  - apply Z.leb_le. unfold prec, emax. lia.
Qed.

Lemma Prim2SF_canon (s : bool) (V : Z) :
  rep V -> Prim2SF (SF2Prim (canon s V)) = canon s V.
Proof. intros HV. apply Prim2SF_SF2Prim, canon_valid, HV. Qed.

Lemma binary_round_aux_exact (s : bool) (N e : Z) :
  0 <= N ->
  let k := shift_of N e in
  exists m1,
    ((m1 = N / 2 ^ k /\ 2 * (N mod 2 ^ k) <= 2 ^ k) \/
     (m1 = N / 2 ^ k + 1 /\ 2 ^ k <= 2 * (N mod 2 ^ k))) /\
    binary_round_aux prec emax s N e loc_Exact =
    match m1 / 2 ^ shift_of m1 (e + k) with
    | 0 => S754_zero s
    | Zpos m =>
        if e + k + shift_of m1 (e + k) <=? emax - prec
        then S754_finite s m (e + k + shift_of m1 (e + k))
        else S754_infinity s
    | Zneg _ => S754_nan
    end.
Proof.
  intros HN k.
  pose proof (binary_round_aux_spec s N 1 e HN ltac:(lia)) as H.
  rewrite Z.div_1_r, new_location_exact in H. cbv zeta in H. fold k in H.
  rewrite Z.mul_1_l in H. exact H.
Qed.

Lemma iter_xO_value (p k : positive) :
  Zpos (Pos.iter xO p k) = Zpos p * 2 ^ Zpos k.
Proof.
  induction k as [|k IH] using Pos.peano_ind.
  - simpl. lia.
  - rewrite Pos.iter_succ, Pos2Z.inj_succ, Z.pow_succ_r by lia.
    rewrite Pos2Z.inj_xO, IH. ring.
Qed.

(** Rounding a value that has a normal representation gives it. *)
Lemma binary_round_canon (s : bool) (P : positive) (E : Z) :
  -1074 <= E -> rep (units P E) ->
  binary_round prec emax s P E = canon s (units P E).
Proof.
  intros HE HV. pose proof (rep_digits _ HV) as Hd.
  pose proof (canon_mantissa _ HV) as [Hm EV]. cbv zeta in Hm, EV.
  unfold canon. set (V := units P E) in *.
  pose proof (pow2_pos (E + 1074) ltac:(lia)) as Hp.
  assert (HdV : Zdigits2 V = Zpos (digits2_pos P) + (E + 1074)).
  { unfold V, units. rewrite Zdigits2_mul_pow2 by lia. reflexivity. }
  set (dP := Zpos (digits2_pos P)) in *.
  unfold binary_round. fold dP.
  rewrite fexp_normal by lia.
  unfold shl_align.
  destruct (dP + E - 53 - E) as [|p|p] eqn:Ep.
  - rewrite F64.binary_round_aux_canonical by (fold dP; lia).
    f_equal; [|lia].
    replace (Zdigits2 V - 53) with (E + 1074) by lia.
    unfold V, units. rewrite Z.div_mul by lia. reflexivity.
  - destruct (binary_round_aux_exact s (Zpos P) E ltac:(lia))
      as (m1 & Hm1 & ->).
    assert (Hk : shift_of (Zpos P) E = Zpos p).
    { unfold shift_of. cbn [Zdigits2]. fold dP.
      rewrite fexp_normal by lia. lia. }
    rewrite Hk in *.
    pose proof (pow2_pos (Zpos p) ltac:(lia)) as Hpp.
    assert (EVP : V = Zpos P * 2 ^ (E + 1074)) by reflexivity.
    assert (Esplit : Zdigits2 V - 53 = Zpos p + (E + 1074)) by lia.
    assert (HPm : Zpos P mod 2 ^ Zpos p = 0).
    { destruct HV as [_ Hmod]. rewrite Esplit, Z.pow_add_r in Hmod by lia.
      rewrite EVP, Z.mul_mod_distr_r in Hmod by lia. nia. }
    assert (Em1 : m1 = V / 2 ^ (Zdigits2 V - 53)).
    { rewrite Esplit, Z.pow_add_r, EVP, Z.div_mul_cancel_r by lia.
      destruct Hm1 as [[-> _]|[_ H]]; [reflexivity|lia]. }
    rewrite <- Em1 in *.
    assert (Hs : shift_of m1 (E + Zpos p) = 0).
    { unfold shift_of. rewrite (Zdigits2_eq m1 53) by lia.
      rewrite fexp_normal by lia. lia. }
    rewrite Hs, Z.pow_0_r, Z.div_1_r, Z.add_0_r.
    destruct m1 as [|q|q]; try lia.
    replace (E + Zpos p <=? emax - prec) with true
      by (symmetry; apply Z.leb_le; unfold emax, prec; lia).
    f_equal. lia.
  - rewrite F64.binary_round_aux_canonical.
    + f_equal; [|lia]. apply Pos2Z.inj.
      rewrite Z2Pos.id by lia. rewrite iter_xO_value.
      assert (Esplit : E + 1074 = Zpos p + (Zdigits2 V - 53)) by lia.
      unfold V at 1, units. rewrite Esplit, Z.pow_add_r, Z.mul_assoc by lia.
      rewrite Z.div_mul by (pose proof (pow2_pos (Zdigits2 V - 53)); lia).
      reflexivity.
    + rewrite F64.digits2_pos_iter_xO. fold dP. lia.
    + lia.
Qed.

Lemma canon_units_of (s : bool) (V : Z) :
  rep V ->
  exists m e,
    canon s V = S754_finite s m e /\ Zpos (digits2_pos m) = 53 /\
    -1074 <= e <= 971 /\ e = Zdigits2 V - 1127 /\ units m e = V.
Proof.
  intros HV. pose proof (rep_digits V HV) as Hd.
  pose proof (canon_mantissa V HV) as [Hm EV]. cbv zeta in Hm, EV.
  exists (Z.to_pos (V / 2 ^ (Zdigits2 V - 53))), (Zdigits2 V - 1127).
  split; [reflexivity|]. split.
  - change (Zpos (digits2_pos ?p)) with (Zdigits2 (Zpos p)).
    rewrite Z2Pos.id by lia. apply Zdigits2_eq; lia.
  - split; [lia|]. split; [reflexivity|]. unfold units.
    rewrite Z2Pos.id by lia.
    replace (Zdigits2 V - 1127 + 1074) with (Zdigits2 V - 53) by lia.
    symmetry. exact EV.
Qed.

Lemma binary_normalize_canon (M E : Z) (sz : bool) :
  -1074 <= E -> M <> 0 -> rep (Z.abs M * 2 ^ (E + 1074)) ->
  binary_normalize prec emax M E sz =
    canon (M <? 0) (Z.abs M * 2 ^ (E + 1074)).
Proof.
  intros HE HM HV. destruct M as [|p|p]; [congruence| |];
    cbn [binary_normalize Z.abs Z.ltb Z.compare] in *;
    apply binary_round_canon; assumption.
Qed.

Lemma shl_align_value (m : positive) (e ez : Z) :
  ez <= e -> Zpos (fst (shl_align m e ez)) = Zpos m * 2 ^ (e - ez).
Proof.
  intros H. unfold shl_align.
  destruct (ez - e) as [|d|d] eqn:Ed; cbn [fst]; try lia.
  - replace (e - ez) with 0 by lia. lia.
  - rewrite iter_xO_value. f_equal. f_equal. lia.
Qed.

Lemma cond_Zopp_mul (s : bool) (a b : Z) :
  cond_Zopp s a * b = cond_Zopp s (a * b).
Proof. destruct s; simpl; lia. Qed.

(** Sums and differences that have a normal representation are exact. *)
Lemma aligned_sum (s1 s2 : bool) (m1 m2 : positive) (e1 e2 : Z) (neg : bool) :
  -1074 <= e1 -> -1074 <= e2 ->
  let ez := Z.min e1 e2 in
  let W := cond_Zopp s1 (units m1 e1) +
           cond_Zopp (xorb neg s2) (units m2 e2) in
  (W <> 0 -> rep (Z.abs W)) ->
  binary_normalize prec emax
    (cond_Zopp s1 (Zpos (fst (shl_align m1 e1 ez))) +
     cond_Zopp (xorb neg s2) (Zpos (fst (shl_align m2 e2 ez)))) ez false =
  if W =? 0 then S754_zero false else canon (W <? 0) (Z.abs W).
Proof.
  intros H1 H2 ez W HW.
  rewrite !shl_align_value by (unfold ez; lia).
  set (M := cond_Zopp s1 (Zpos m1 * 2 ^ (e1 - ez)) +
            cond_Zopp (xorb neg s2) (Zpos m2 * 2 ^ (e2 - ez))).
  pose proof (pow2_pos (ez + 1074) ltac:(unfold ez; lia)) as Hp.
  assert (EW : W = M * 2 ^ (ez + 1074)).
  { unfold W, M, units. rewrite Z.mul_add_distr_r, !cond_Zopp_mul.
    rewrite <- !Z.mul_assoc, <- !Z.pow_add_r by (unfold ez; lia).
    f_equal; f_equal; f_equal; f_equal; lia. }
  destruct (Z.eqb_spec W 0) as [E0|E0].
  - assert (M = 0) by nia. rewrite H. reflexivity.
  - assert (HM : M <> 0) by nia.
    assert (EA : Z.abs W = Z.abs M * 2 ^ (ez + 1074)).
    { rewrite EW, Z.abs_mul, (Z.abs_eq (2 ^ (ez + 1074))) by lia.
      reflexivity. }
    specialize (HW E0). rewrite EA in *.
    rewrite binary_normalize_canon; [| unfold ez; lia | exact HM | exact HW].
    f_equal.
    destruct (Z.ltb_spec M 0), (Z.ltb_spec W 0); try reflexivity; nia.
Qed.

Lemma SF64sub_exact (s1 s2 : bool) (m1 m2 : positive) (e1 e2 : Z) :
  -1074 <= e1 -> -1074 <= e2 ->
  let W := cond_Zopp s1 (units m1 e1) - cond_Zopp s2 (units m2 e2) in
  (W <> 0 -> rep (Z.abs W)) ->
  SF64sub (S754_finite s1 m1 e1) (S754_finite s2 m2 e2) =
  if W =? 0 then S754_zero false else canon (W <? 0) (Z.abs W).
Proof.
  intros H1 H2 W HW. unfold SF64sub, SFsub.
  pose proof (aligned_sum s1 s2 m1 m2 e1 e2 true H1 H2) as H.
  cbv zeta in H.
  assert (EW : cond_Zopp s1 (units m1 e1) +
               cond_Zopp (xorb true s2) (units m2 e2) = W).
  { unfold W. destruct s2; simpl; lia. }
  rewrite EW in H. rewrite <- (H HW). f_equal.
  destruct s2; simpl; lia.
Qed.

Lemma SF64add_exact (s1 s2 : bool) (m1 m2 : positive) (e1 e2 : Z) :
  -1074 <= e1 -> -1074 <= e2 ->
  let W := cond_Zopp s1 (units m1 e1) + cond_Zopp s2 (units m2 e2) in
  (W <> 0 -> rep (Z.abs W)) ->
  SF64add (S754_finite s1 m1 e1) (S754_finite s2 m2 e2) =
  if W =? 0 then S754_zero false else canon (W <? 0) (Z.abs W).
Proof.
  intros H1 H2 W HW. unfold SF64add, SFadd.
  exact (aligned_sum s1 s2 m1 m2 e1 e2 false H1 H2 HW).
Qed.

Lemma Zdigits2_mono (a b : Z) : 0 < a <= b -> Zdigits2 a <= Zdigits2 b.
Proof.
  intros H. pose proof (Zdigits2_bounds a ltac:(lia)) as [Ha _].
  pose proof (Zdigits2_bounds b ltac:(lia)) as [_ Hb].
  destruct (Z_le_gt_dec (Zdigits2 a) (Zdigits2 b)) as [Hle|Hgt]; [exact Hle|].
  exfalso. assert (2 ^ Zdigits2 b <= 2 ^ (Zdigits2 a - 1)).
  { apply Z.pow_le_mono_r; lia. }
  lia.
Qed.

Lemma Zdigits2_pos (a : Z) : 0 < a -> 1 <= Zdigits2 a.
Proof. destruct a as [|p|p]; try lia. cbn [Zdigits2]. lia. Qed.

(** The quotient of [n] times a divisor by the divisor is [n]. *)
Lemma SF64div_exact (s1 s2 : bool) (m1 m2 : positive) (e1 e2 n : Z) :
  Zpos (digits2_pos m1) = 53 -> Zpos (digits2_pos m2) = 53 ->
  -1074 <= e1 <= 971 -> -1074 <= e2 <= 971 ->
  1 <= n < 2 ^ 53 ->
  units m1 e1 = n * units m2 e2 ->
  SF64div (S754_finite s1 m1 e1) (S754_finite s2 m2 e2) =
  canon (xorb s1 s2) (n * 2 ^ 1074).
Proof.
  intros Hd1 Hd2 He1 He2 Hn EU.
  pose proof (Zdigits2_bounds (Zpos m1) ltac:(lia)) as Hb1.
  pose proof (Zdigits2_bounds (Zpos m2) ltac:(lia)) as Hb2.
  cbn [Zdigits2] in Hb1, Hb2. rewrite Hd1 in Hb1. rewrite Hd2 in Hb2.
  pose proof (pow2_pos (e1 + 1074) ltac:(lia)) as Hp1.
  pose proof (pow2_pos (e2 + 1074) ltac:(lia)) as Hp2.
  (* the exponents *)
  assert (Hdu1 : Zdigits2 (units m1 e1) = 53 + (e1 + 1074)).
  { unfold units. rewrite Zdigits2_mul_pow2 by lia. cbn [Zdigits2]. lia. }
  assert (Hdu2 : Zdigits2 (units m2 e2) = 53 + (e2 + 1074)).
  { unfold units. rewrite Zdigits2_mul_pow2 by lia. cbn [Zdigits2]. lia. }
  assert (Ha : 0 <= e1 - e2).
  { assert (Zdigits2 (units m2 e2) <= Zdigits2 (units m1 e1)).
    { apply Zdigits2_mono. rewrite EU. unfold units in *. nia. }
    lia. }
  set (a := e1 - e2) in *.
  assert (Em : Zpos m1 * 2 ^ a = n * Zpos m2).
  { unfold units in EU.
    replace (e1 + 1074) with (a + (e2 + 1074)) in EU by (unfold a; lia).
    rewrite Z.pow_add_r, Z.mul_assoc in EU by lia.
    replace (n * (Zpos m2 * 2 ^ (e2 + 1074)))
      with (n * Zpos m2 * 2 ^ (e2 + 1074)) in EU by ring.
    apply Z.mul_cancel_r in EU; [exact EU|lia]. }
  pose proof (pow2_pos a Ha) as Hpa.
  pose proof (Zdigits2_bounds n ltac:(lia)) as Hbn.
  pose proof (Zdigits2_pos n ltac:(lia)) as Hdn1.
  assert (Hdn53 : Zdigits2 n <= 53) by (apply Bounds.Zdigits2_le; lia).
  set (dn := Zdigits2 n) in *.
  assert (Hdna : a <= dn).
  { destruct (Z_le_gt_dec a dn) as [H|H]; [exact H|exfalso].
    assert (2 ^ dn <= 2 ^ (a - 1)) by (apply Z.pow_le_mono_r; lia).
    assert (2 ^ a = 2 * 2 ^ (a - 1)).
    { rewrite <- Z.pow_succ_r by lia. f_equal. lia. }
    nia. }
  unfold SF64div, SFdiv, SFdiv_core_binary.
  cbn [Zdigits2]. rewrite Hd1, Hd2.
  replace (53 + e1 - (53 + e2)) with a by (unfold a; lia).
  fold a. rewrite fexp_normal by lia.
  rewrite Z.min_l by lia.
  replace (a - (a - 53)) with 53 by lia.
  rewrite Z.shiftl_mul_pow2 by lia.
  set (N := Zpos m1 * 2 ^ 53).
  assert (EN : N = n * 2 ^ (53 - a) * Zpos m2).
  { unfold N. rewrite (pow2_split 53 a) by lia.
    replace (Zpos m1 * (2 ^ (53 - a) * 2 ^ a))
      with (Zpos m1 * 2 ^ a * 2 ^ (53 - a)) by ring.
    rewrite Em. ring. }
  assert (Hqr : Z.div_eucl N (Zpos m2) = (N / Zpos m2, N mod Zpos m2)).
  { unfold Z.div, Z.modulo. destruct (Z.div_eucl N (Zpos m2)). reflexivity. }
  rewrite Hqr.
  destruct (binary_round_aux_spec (xorb s1 s2) N (Zpos m2) (a - 53)
              ltac:(unfold N; lia) ltac:(lia)) as (mm & Hmm & ->).
  cbv zeta in Hmm.
  pose proof (pow2_pos (53 - a) ltac:(lia)) as Hp53a.
  pose proof (pow2_pos (53 - dn) ltac:(lia)) as Hp53n.
  pose proof (pow2_pos (dn - a) ltac:(lia)) as Hpna.
  assert (Eq : N / Zpos m2 = n * 2 ^ (53 - a)).
  { rewrite EN. apply Z.div_mul. lia. }
  assert (Hk : shift_of (N / Zpos m2) (a - 53) = dn - a).
  { unfold shift_of. rewrite Eq, Zdigits2_mul_pow2 by lia. fold dn.
    rewrite fexp_normal by lia. lia. }
  rewrite Hk in *.
  assert (EN2 : N = n * 2 ^ (53 - dn) * (Zpos m2 * 2 ^ (dn - a))).
  { rewrite EN. rewrite (pow2_split (53 - a) (dn - a)) by lia.
    replace (53 - a - (dn - a)) with (53 - dn) by lia. ring. }
  assert (Emm : mm = n * 2 ^ (53 - dn)).
  { rewrite EN2 in Hmm. rewrite Z.div_mul, Z.mod_mul in Hmm by lia.
    destruct Hmm as [[-> _]|[_ H]]; [reflexivity|lia]. }
  assert (Hmmb : 2 ^ 52 <= mm < 2 ^ 53).
  { rewrite Emm. split.
    - rewrite (pow2_split 52 (53 - dn)) by lia.
      replace (52 - (53 - dn)) with (dn - 1) by lia.
      apply Z.mul_le_mono_nonneg_r; lia.
    - rewrite (pow2_split 53 (53 - dn)) by lia.
      replace (53 - (53 - dn)) with dn by lia.
      apply Z.mul_lt_mono_pos_r; lia. }
  assert (Hs : shift_of mm (a - 53 + (dn - a)) = 0).
  { unfold shift_of. rewrite (Zdigits2_eq mm 53) by lia.
    rewrite fexp_normal by lia. lia. }
  rewrite Hs, Z.pow_0_r, Z.div_1_r, Z.add_0_r.
  unfold canon.
  assert (Hdv : Zdigits2 (n * 2 ^ 1074) = dn + 1074).
  { rewrite Zdigits2_mul_pow2 by lia. reflexivity. }
  rewrite Hdv.
  assert (Ediv : n * 2 ^ 1074 / 2 ^ (dn + 1074 - 53) = mm).
  { rewrite (pow2_split 1074 (dn + 1074 - 53)) by lia.
    replace (1074 - (dn + 1074 - 53)) with (53 - dn) by lia.
    rewrite Z.mul_assoc, Z.div_mul, Emm; [reflexivity|].
    pose proof (pow2_pos (dn + 1074 - 53)). lia. }
  rewrite Ediv.
  destruct mm as [|p|p]; try lia.
  replace (a - 53 + (dn - a) <=? emax - prec) with true
    by (symmetry; apply Z.leb_le; unfold emax, prec; lia).
  f_equal. lia.
Qed.

Lemma Prim2SF_60 :
  Prim2SF 60 = S754_finite false 8444249301319680 (-47) /\
  units 8444249301319680 (-47) = 60 * 2 ^ 1074.
Proof. split; reflexivity. Qed.

Lemma rep_whole (n : Z) : 1 <= n < 2 ^ 53 -> rep (n * 2 ^ 1074).
Proof.
  intros Hn. apply (rep_intro _ 1074); [lia| | |lia].
  - apply Z.mod_mul. lia.
  - split; [lia|]. rewrite Z.pow_add_r by lia.
    apply Z.mul_lt_mono_pos_r; lia.
Qed.

(** *** Products and quotients of whole numbers *)

(** On a mantissa of 53 digits or more [binary_round] shifts nothing. *)
Lemma binary_round_aux_canon (s : bool) (P : positive) (E : Z) :
  53 <= Zpos (digits2_pos P) -> -1074 <= E -> rep (units P E) ->
  binary_round_aux prec emax s (Zpos P) E loc_Exact = canon s (units P E).
Proof.
  intros Hd HE HV. rewrite <- (binary_round_canon s P E HE HV).
  unfold binary_round, shl_align.
  rewrite fexp_normal by lia.
  destruct (Zpos (digits2_pos P) + E - 53 - E) as [|p|p] eqn:Ep;
    try reflexivity.
  lia.
Qed.

(** Rounding up a quotient cut at [2^-c] does not reach the next whole number
    when the divisor is below [2^c]. *)
Lemma floor_rounded_quotient (U D c m1 : Z) :
  0 <= U -> 0 < D < 2 ^ c -> 0 <= c ->
  m1 = U * 2 ^ c / D \/ m1 = U * 2 ^ c / D + 1 ->
  m1 / 2 ^ c = U / D.
Proof.
  intros HU HD Hc Hm1.
  pose proof (pow2_pos c Hc) as Hp.
  pose proof (Z.div_mod U D ltac:(lia)) as EU.
  pose proof (Z.mod_pos_bound U D ltac:(lia)) as Hb.
  set (a := U / D) in *. set (b := U mod D) in *.
  pose proof (Z.div_mod (b * 2 ^ c) D ltac:(lia)) as Eg.
  pose proof (Z.mod_pos_bound (b * 2 ^ c) D ltac:(lia)) as Hgb.
  set (g := b * 2 ^ c / D) in *.
  set (r := (b * 2 ^ c) mod D) in *.
  assert (Hg : 0 <= g) by (apply Z.div_pos; nia).
  assert (Hg' : g + 1 < 2 ^ c).
  { assert (H1 : b * 2 ^ c <= (D - 1) * 2 ^ c)
      by (apply Z.mul_le_mono_nonneg_r; lia).
    assert (H2 : D * (g + 1) < D * 2 ^ c) by lia.
    apply Z.mul_lt_mono_pos_l with D; lia. }
  assert (Eq : U * 2 ^ c / D = a * 2 ^ c + g).
  { assert (E2 : U * 2 ^ c = D * a * 2 ^ c + b * 2 ^ c).
    { rewrite EU at 1. ring. }
    symmetry. apply (Z.div_unique _ _ _ r); [lia|]. rewrite E2, Eg. ring. }
  rewrite Eq in Hm1. symmetry.
  destruct Hm1 as [-> | ->].
  - apply (Z.div_unique _ _ _ g); lia.
  - apply (Z.div_unique _ _ _ (g + 1)); lia.
Qed.

(** The mantissa of a whole number below [2^53]. *)
Lemma whole_mantissa (m : positive) (e n : Z) :
  Zpos (digits2_pos m) = 53 -> -1074 <= e -> 1 <= n < 2 ^ 53 ->
  units m e = n * 2 ^ 1074 ->
  e = Zdigits2 n - 53 /\ e <= 0 /\ Zpos m = n * 2 ^ (- e).
Proof.
  intros Hd He Hn U.
  assert (Hdu : Zdigits2 (units m e) = 53 + (e + 1074)).
  { unfold units. rewrite Zdigits2_mul_pow2 by lia. cbn [Zdigits2]. lia. }
  rewrite U, Zdigits2_mul_pow2 in Hdu by lia.
  assert (Hdn : Zdigits2 n <= 53) by (apply Bounds.Zdigits2_le; lia).
  split; [lia|]. split; [lia|].
  unfold units in U.
  rewrite (pow2_split 1074 (e + 1074)) in U by lia.
  replace (1074 - (e + 1074)) with (- e) in U by lia.
  rewrite Z.mul_assoc in U.
  apply Z.mul_cancel_r in U; [exact U|].
  pose proof (pow2_pos (e + 1074)). lia.
Qed.

(** The quotient of two whole numbers below [2^52], rounded: its integer
    part is the quotient of the integers. *)
Lemma SF64div_whole (mW mS : positive) (eW eS W S : Z) :
  Zpos (digits2_pos mW) = 53 -> Zpos (digits2_pos mS) = 53 ->
  -1074 <= eW -> -1074 <= eS ->
  1 <= W < 2 ^ 52 -> 1 <= S < 2 ^ 52 ->
  units mW eW = W * 2 ^ 1074 -> units mS eS = S * 2 ^ 1074 ->
  exists m e,
    SF64div (S754_finite false mW eW) (S754_finite false mS eS) =
      S754_finite false m e /\
    Z.shiftl (Zpos m) e = W / S.
Proof.
  intros HdW HdS HeW HeS HW HS UW US.
  destruct (whole_mantissa mW eW W HdW HeW ltac:(lia) UW) as (EeW & _ & EmW).
  destruct (whole_mantissa mS eS S HdS HeS ltac:(lia) US) as (EeS & _ & EmS).
  pose proof (Zdigits2_pos W ltac:(lia)) as HdW1.
  pose proof (Zdigits2_pos S ltac:(lia)) as HdS1.
  assert (HdW52 : Zdigits2 W <= 52) by (apply Bounds.Zdigits2_le; lia).
  assert (HdS52 : Zdigits2 S <= 52) by (apply Bounds.Zdigits2_le; lia).
  pose proof (Zdigits2_bounds S ltac:(lia)) as [_ HSup].
  pose proof (Zdigits2_bounds (Zpos mW) ltac:(lia)) as HbW.
  pose proof (Zdigits2_bounds (Zpos mS) ltac:(lia)) as HbS.
  cbn [Zdigits2] in HbW, HbS. rewrite HdW in HbW. rewrite HdS in HbS.
  set (dW := Zdigits2 W) in *. set (dS := Zdigits2 S) in *.
  set (a := eW - eS).
  assert (Ha : a = dW - dS) by (unfold a; lia).
  unfold SF64div, SFdiv, SFdiv_core_binary.
  cbn [Zdigits2]. rewrite HdW, HdS.
  replace (53 + eW - (53 + eS)) with a by (unfold a; lia).
  fold a. rewrite fexp_normal by lia.
  rewrite Z.min_l by lia.
  replace (a - (a - 53)) with 53 by lia.
  rewrite Z.shiftl_mul_pow2 by lia.
  set (N := Zpos mW * 2 ^ 53).
  assert (HN : 2 ^ 105 <= N < 2 ^ 106) by (unfold N; lia).
  assert (Hqr : Z.div_eucl N (Zpos mS) = (N / Zpos mS, N mod Zpos mS)).
  { unfold Z.div, Z.modulo. destruct (Z.div_eucl N (Zpos mS)). reflexivity. }
  rewrite Hqr.
  destruct (binary_round_aux_spec (xorb false false) N (Zpos mS) (a - 53)
              ltac:(lia) ltac:(lia)) as (m1 & Hm1 & ->).
  cbv zeta in Hm1. cbn [xorb].
  set (q := N / Zpos mS) in *.
  assert (Hq : 2 ^ 52 <= q < 2 ^ 54).
  { unfold q. split.
    - apply Z.div_le_lower_bound; lia.
    - apply Z.div_lt_upper_bound; lia. }
  assert (Hdq : Zdigits2 q = 53 \/ Zdigits2 q = 54).
  { destruct (Z_lt_le_dec q (2 ^ 53)).
    - left. apply Zdigits2_eq; lia.
    - right. apply Zdigits2_eq; lia. }
  set (k := shift_of q (a - 53)) in *.
  assert (Hk : k = Zdigits2 q - 53).
  { unfold k, shift_of. rewrite fexp_normal by lia. lia. }
  assert (Hk2 : 2 ^ (52 + k) <= q < 2 ^ (53 + k)).
  { pose proof (Zdigits2_bounds q ltac:(lia)) as Hb.
    replace (52 + k) with (Zdigits2 q - 1) by lia.
    replace (53 + k) with (Zdigits2 q) by lia. exact Hb. }
  assert (Hk01 : k = 0 \/ k = 1) by lia.
  pose proof (pow2_pos k ltac:(lia)) as H2k.
  set (c := 53 - k - a).
  assert (Hc : 1 <= c) by (unfold c; lia).
  assert (HcS : dS <= c) by (unfold c; lia).
  pose proof (pow2_pos c ltac:(lia)) as H2c.
  pose proof (pow2_pos (k - eS) ltac:(lia)) as H2x.
  assert (EN : N = W * 2 ^ c * 2 ^ (k - eS)).
  { unfold N. rewrite EmW. rewrite <- !Z.mul_assoc.
    rewrite <- !Z.pow_add_r by lia. f_equal. f_equal. unfold c, a. lia. }
  assert (ED : Zpos mS * 2 ^ k = S * 2 ^ (k - eS)).
  { rewrite EmS. rewrite <- Z.mul_assoc, <- Z.pow_add_r by lia.
    f_equal. f_equal. lia. }
  assert (Ediv : N / (Zpos mS * 2 ^ k) = W * 2 ^ c / S).
  { rewrite EN, ED. apply Z.div_mul_cancel_r; lia. }
  assert (Eq2 : N / (Zpos mS * 2 ^ k) = q / 2 ^ k).
  { unfold q. rewrite Z.div_div by lia. reflexivity. }
  assert (Hqk : 2 ^ 52 <= q / 2 ^ k < 2 ^ 53).
  { split.
    - apply Z.div_le_lower_bound; [lia|].
      rewrite Z.mul_comm, <- Z.pow_add_r by lia. lia.
    - apply Z.div_lt_upper_bound; [lia|].
      rewrite Z.mul_comm, <- Z.pow_add_r by lia. lia. }
  assert (Hm1b : 2 ^ 52 <= m1 <= 2 ^ 53) by lia.
  assert (Hfloor : m1 / 2 ^ c = W / S).
  { assert (HSc : S < 2 ^ c).
    { apply Z.lt_le_trans with (2 ^ dS); [exact HSup|].
      apply Z.pow_le_mono_r; lia. }
    apply floor_rounded_quotient; [lia | lia | lia |].
    rewrite <- Ediv. destruct Hm1 as [[E _]|[E _]]; [left|right]; exact E. }
  replace (a - 53 + k) with (- c) by (unfold c; lia).
  destruct (Z_lt_le_dec m1 (2 ^ 53)) as [Hlt|Hge].
  - assert (Hs : shift_of m1 (- c) = 0).
    { unfold shift_of. rewrite (Zdigits2_eq m1 53) by lia.
      rewrite fexp_normal by lia. lia. }
    rewrite Hs, Z.pow_0_r, Z.div_1_r, Z.add_0_r.
    destruct m1 as [|p|p]; try lia.
    replace (- c <=? emax - prec) with true
      by (symmetry; apply Z.leb_le; unfold emax, prec; lia).
    exists p, (- c). split; [reflexivity|].
    rewrite Z.shiftl_div_pow2 by lia.
    replace (- - c) with c by lia. exact Hfloor.
  - assert (E : m1 = 2 ^ 53) by lia. subst m1.
    assert (Hs : shift_of (2 ^ 53) (- c) = 1).
    { unfold shift_of. rewrite (Zdigits2_eq (2 ^ 53) 54) by lia.
      rewrite fexp_normal by lia. lia. }
    rewrite Hs. change (2 ^ 53 / 2 ^ 1) with (Zpos (Z.to_pos (2 ^ 52))).
    cbv iota.
    replace (- c + 1 <=? emax - prec) with true
      by (symmetry; apply Z.leb_le; unfold emax, prec; lia).
    exists (Z.to_pos (2 ^ 52)), (- c + 1). split; [reflexivity|].
    destruct (Z.eq_dec c 1) as [Ec|Ec].
    + rewrite Ec in *. rewrite <- Hfloor. reflexivity.
    + rewrite Z.shiftl_div_pow2 by lia.
      replace (- (- c + 1)) with (c - 1) by lia.
      rewrite <- Hfloor.
      rewrite (pow2_split c (c - 1)) by lia.
      replace (c - (c - 1)) with 1 by lia.
      pose proof (pow2_pos (c - 1) ltac:(lia)).
      rewrite <- Z.div_div by lia. reflexivity.
Qed.

End Rounding.

(** ** The numpy operations of the collision analysis *)
Module Numpy.

Local Open Scope float_scope.

(** A row of a position array: the three ECI coordinates in km. *)
Definition vec3 : Type := (float * float * float)%type.

(** [np.array(positions)]: a non-empty list of 3-tuples is an array of shape
    (n, 3); the empty list is the one-dimensional empty array of shape (0,). *)
Definition ndarray3 : Type := list vec3.

Definition vsub (a b : vec3) : vec3 :=
  let '(x1, y1, z1) := a in
  let '(x2, y2, z2) := b in
  (x1 - x2, y1 - y2, z1 - z2).

Fixpoint zip_sub (a b : ndarray3) : ndarray3 :=
  match a, b with
  | x :: a', y :: b' => vsub x y :: zip_sub a' b'
  | _, _ => []
  end.

(** [a - b] with numpy's broadcasting: (0,) against (0,) is (0,); (0,) against
    (m, 3) fails (trailing dimensions 0 and 3); a single row is stretched
    along the other array; otherwise the row counts must agree. *)
Definition subtract (a b : ndarray3) : result ndarray3 :=
  match a, b with
  | [], [] => Ok []
  | [], _ :: _ => Raise ValueError_broadcast
  | _ :: _, [] => Raise ValueError_broadcast
  | [x], _ => Ok (map (vsub x) b)
  | _, [y] => Ok (map (fun x => vsub x y) a)
  | _, _ =>
      if Nat.eqb (length a) (length b) then Ok (zip_sub a b)
      else Raise ValueError_broadcast
  end.

(** The 2-norm of one row: [sqrt(add.reduce(x * x))].  The order of the two
    additions is numpy's; no statement below depends on it. *)
Definition norm3 (v : vec3) : float :=
  let '(x, y, z) := v in sqrt (x * x + y * y + z * z).

(** [np.linalg.norm(d, axis=1)]; a one-dimensional array has no axis 1. *)
Definition norm_axis1 (d : ndarray3) : result (list float) :=
  match d with
  | [] => Raise AxisError
  | _ :: _ => Ok (map norm3 d)
  end.

(** The scan of [np.argmin] over doubles: the running minimum [mp] found at
    [min_ind] is replaced when [!(x >= mp)]; a NaN ends the scan. *)
Fixpoint argmin_loop (mp : float) (min_ind i : nat) (ip : list float) : nat :=
  match ip with
  | [] => min_ind
  | x :: ip' =>
      if negb (mp <=? x) then
        if is_nan x then i else argmin_loop x i (S i) ip'
      else argmin_loop mp min_ind (S i) ip'
  end.

Definition argmin (a : list float) : result nat :=
  match a with
  | [] => Raise ValueError_empty
  | x :: ip => if is_nan x then Ok 0%nat else Ok (argmin_loop x 0 1 ip)
  end.

(** [_replace_nan(a, np.inf)] *)
Definition replace_nan (a : list float) : list float :=
  map (fun x => if is_nan x then infinity else x) a.

(** [np.nanargmin(a)]: NaNs are replaced by [+inf], an all-NaN (non-empty)
    array raises, and [argmin] runs on the replaced array. *)
Definition nanargmin (a : list float) : result nat :=
  if negb (Nat.eqb (length a) 0) && forallb is_nan a
  then Raise ValueError_all_nan
  else argmin (replace_nan a).

(** *** [argmin] returns the first index of a least element *)

Definition first_min (l : list float) (k : nat) : Prop :=
  (k < length l)%nat /\
  (forall j, (j < length l)%nat -> (nth k l nan <=? nth j l nan) = true) /\
  (forall j, (j < k)%nat -> (nth k l nan <? nth j l nan) = true).

Lemma argmin_loop_first_min (ip pre : list float) (mp : float) (mi : nat) :
  Forall (fun x => is_nan x = false) (pre ++ ip) ->
  (mi < length pre)%nat ->
  nth mi pre nan = mp ->
  (forall j, (j < length pre)%nat -> (mp <=? nth j pre nan) = true) ->
  (forall j, (j < mi)%nat -> (mp <? nth j pre nan) = true) ->
  first_min (pre ++ ip) (argmin_loop mp mi (length pre) ip).
Proof.
  revert pre mp mi.
  induction ip as [|x ip IH]; intros pre mp mi Hnan Hmi Hmp Hle Hlt; simpl.
  - rewrite app_nil_r. subst mp. repeat split; auto.
  - assert (Hx : is_nan x = false).
    { rewrite Forall_forall in Hnan. apply Hnan.
      apply in_or_app. right. left. reflexivity. }
    assert (Hmpn : is_nan mp = false).
    { rewrite Forall_forall in Hnan. apply Hnan.
      apply in_or_app. left. subst mp. apply nth_In. exact Hmi. }
    assert (Hlen : length (pre ++ [x]) = S (length pre)).
    { rewrite length_app. simpl. lia. }
    assert (Hnan' : Forall (fun y => is_nan y = false) ((pre ++ [x]) ++ ip)).
    { rewrite <- app_assoc. exact Hnan. }
    replace (pre ++ x :: ip) with ((pre ++ [x]) ++ ip)
      by (rewrite <- app_assoc; reflexivity).
    rewrite <- Hlen.
    destruct (mp <=? x) eqn:Hc; simpl.
    + apply IH; auto.
      * rewrite Hlen. lia.
      * rewrite app_nth1 by exact Hmi. exact Hmp.
      * intros j Hj. rewrite Hlen in Hj.
        destruct (Nat.eq_dec j (length pre)) as [->|Hne].
        -- rewrite nth_middle. exact Hc.
        -- rewrite app_nth1 by lia. apply Hle. lia.
      * intros j Hj. rewrite app_nth1 by lia. apply Hlt. exact Hj.
    + rewrite Hx.
      assert (Hxmp : (x <? mp) = true) by (apply F64.not_leb_ltb; auto).
      apply IH; auto.
      * rewrite Hlen. lia.
      * apply nth_middle.
      * intros j Hj. rewrite Hlen in Hj.
        destruct (Nat.eq_dec j (length pre)) as [->|Hne].
        -- rewrite nth_middle. apply F64.leb_refl. exact Hx.
        -- rewrite app_nth1 by lia. apply F64.ltb_leb.
           apply F64.ltb_leb_trans with mp; auto. apply Hle. lia.
      * intros j Hj. rewrite app_nth1 by lia.
        apply F64.ltb_leb_trans with mp; auto.
Qed.

Lemma argmin_first_min (l : list float) :
  l <> [] ->
  Forall (fun x => is_nan x = false) l ->
  exists k, argmin l = Ok k /\ first_min l k.
Proof.
  destruct l as [|x ip]; intros Hne Hnan; [congruence|].
  assert (Hx : is_nan x = false) by (inversion Hnan; assumption).
  simpl. rewrite Hx. eexists. split; [reflexivity|].
  apply (argmin_loop_first_min ip [x] x 0%nat); simpl; auto.
  - intros j Hj. assert (j = 0%nat) by lia. subst j.
    apply F64.leb_refl. exact Hx.
  - intros j Hj. lia.
Qed.

(** *** [nanargmin] skips NaNs when some entry is below [+inf] *)

Lemma replace_nan_length (a : list float) :
  length (replace_nan a) = length a.
Proof. apply length_map. Qed.

Lemma replace_nan_nth (a : list float) (i : nat) :
  (i < length a)%nat ->
  nth i (replace_nan a) nan =
  if is_nan (nth i a nan) then infinity else nth i a nan.
Proof.
  revert i. induction a as [|x a IH]; intros [|i] Hi; simpl in *;
    try lia; [reflexivity | apply IH; lia].
Qed.

Lemma replace_nan_not_nan (a : list float) :
  Forall (fun x => is_nan x = false) (replace_nan a).
Proof.
  unfold replace_nan. rewrite Forall_map. rewrite Forall_forall.
  intros x _. destruct (is_nan x) eqn:E; [reflexivity | exact E].
Qed.

Lemma ltb_infinity_not_nan (x : float) :
  (x <? infinity) = true -> is_nan x = false.
Proof. intros H. apply F64.leb_not_nan_l with infinity, F64.ltb_leb, H. Qed.

Lemma forallb_is_nan_nth (a : list float) (i : nat) :
  (i < length a)%nat -> forallb is_nan a = true -> is_nan (nth i a nan) = true.
Proof.
  intros Hi H. rewrite forallb_forall in H. apply H, nth_In, Hi.
Qed.

(** The index returned by [nanargmin] on an array with at least one entry
    below [+inf]: its entry is not NaN, is least among the entries that are not
    NaN, and is strictly below every earlier entry that is not NaN. *)
Lemma nanargmin_first_min (a : list float) (i0 : nat) :
  (i0 < length a)%nat ->
  (nth i0 a nan <? infinity) = true ->
  exists k,
    nanargmin a = Ok k /\ (k < length a)%nat /\
    is_nan (nth k a nan) = false /\
    (forall j, (j < length a)%nat -> is_nan (nth j a nan) = false ->
               (nth k a nan <=? nth j a nan) = true) /\
    (forall j, (j < k)%nat -> is_nan (nth j a nan) = false ->
               (nth k a nan <? nth j a nan) = true).
Proof.
  intros Hi0 Hfin.
  assert (Hn0 : is_nan (nth i0 a nan) = false)
    by (apply ltb_infinity_not_nan; exact Hfin).
  assert (Hne : replace_nan a <> []).
  { intros E. apply (f_equal (@length float)) in E.
    rewrite replace_nan_length in E. simpl in E. lia. }
  destruct (argmin_first_min _ Hne (replace_nan_not_nan a))
    as (k & Hk & Hlen & Hle & Hlt).
  rewrite replace_nan_length in Hlen, Hle.
  exists k. unfold nanargmin.
  assert (Hall : forallb is_nan a = false).
  { destruct (forallb is_nan a) eqn:E; [|reflexivity].
    rewrite (forallb_is_nan_nth _ _ Hi0 E) in Hn0. discriminate. }
  rewrite Hall, andb_false_r.
  assert (Hkn : is_nan (nth k a nan) = false).
  { destruct (is_nan (nth k a nan)) eqn:E; [|reflexivity].
    specialize (Hle i0 Hi0).
    rewrite !replace_nan_nth, E, Hn0 in Hle by assumption.
    rewrite (F64.ltb_not_leb _ _ Hfin) in Hle. discriminate. }
  repeat split; auto.
  - intros j Hj Hjn. specialize (Hle j Hj).
    rewrite !replace_nan_nth, Hkn, Hjn in Hle by assumption. exact Hle.
  - intros j Hj Hjn. specialize (Hlt j Hj).
    rewrite !replace_nan_nth, Hkn, Hjn in Hlt by lia. exact Hlt.
Qed.

(** The caveat of [nanargmin]: when every entry is NaN or [+inf], the index
    of a NaN can be returned. *)
Example nanargmin_nan_inf : nanargmin [nan; infinity] = Ok 0%nat.
Proof. vm_compute. reflexivity. Qed.

Lemma nanargmin_all_nan (a : list float) :
  a <> [] -> forallb is_nan a = true -> nanargmin a = Raise ValueError_all_nan.
Proof.
  intros Hne H. unfold nanargmin. rewrite H.
  destruct a; [congruence | reflexivity].
Qed.

(** *** The index returned is an index of the array *)

Lemma argmin_loop_bound (ip : list float) (mp : float) (mi i : nat) :
  (mi < i)%nat -> (argmin_loop mp mi i ip < i + length ip)%nat.
Proof.
  revert mp mi i. induction ip as [|x ip IH]; intros mp mi i H; simpl; [lia|].
  destruct (negb (mp <=? x)).
  - destruct (is_nan x); [lia|].
    specialize (IH x i (S i) ltac:(lia)). lia.
  - specialize (IH mp mi (S i) ltac:(lia)). lia.
Qed.

Lemma argmin_bound (a : list float) (k : nat) :
  argmin a = Ok k -> (k < length a)%nat.
Proof.
  destruct a as [|x ip]; simpl; [discriminate|].
  destruct (is_nan x); intros H; injection H as <-; [lia|].
  pose proof (argmin_loop_bound ip x 0 1 ltac:(lia)). lia.
Qed.

Lemma nanargmin_bound (a : list float) (k : nat) :
  nanargmin a = Ok k -> (k < length a)%nat.
Proof.
  unfold nanargmin. destruct (_ && _); [discriminate|].
  intros H. apply argmin_bound in H. rewrite replace_nan_length in H. exact H.
Qed.

End Numpy.

(** ** Python's numeric conversions *)
Module Py.

Local Open Scope float_scope.

(** [int(f)]: truncation toward zero; NaN and the infinities raise. *)
Definition int_of_float (f : float) : result Z :=
  match Prim2SF f with
  | S754_nan => Raise ValueError_nan
  | S754_infinity _ => Raise OverflowError
  | S754_zero _ => Ok 0%Z
  | S754_finite s m e => Ok (cond_Zopp s (Z.shiftl (Zpos m) e))
  end.

(** The integer part toward minus infinity of a finite float. *)
Definition floor_float (f : float) : option Z :=
  match Prim2SF f with
  | S754_zero _ => Some 0%Z
  | S754_finite s m e => Some (Z.shiftl (cond_Zopp s (Zpos m)) e)
  | _ => None
  end.

(** The double nearest to an integer (ties to even). *)
Definition nearest_float (z : Z) : float :=
  SF2Prim (binary_normalize prec emax z 0%Z false).

(** The conversion of an int operand of a float operation: the nearest
    double, [OverflowError] when the int is too large. *)
Definition float_of_int (z : Z) : result float :=
  match binary_normalize prec emax z 0%Z false with
  | S754_infinity _ => Raise OverflowError
  | _ => Ok (nearest_float z)
  end.

(** [a / b] on floats. *)
Definition truediv (a b : float) : result float :=
  if b =? 0 then Raise ZeroDivisionError else Ok (a / b).

(** [range(n)] *)
Definition range (n : Z) : list Z := map Z.of_nat (seq 0 (Z.to_nat n)).

(** *** Facts *)

Lemma float_of_int_positive (z : Z) :
  (0 < z < 2 ^ 53)%Z ->
  float_of_int z = Ok (nearest_float z) /\
  F64.signed false (Prim2SF (nearest_float z)).
Proof.
  intros Hz. destruct z as [|p|p]; try lia.
  destruct (F64.binary_round_small false p) as (m & e & Hn & Hv); [lia|].
  unfold float_of_int, nearest_float, binary_normalize. rewrite Hn.
  split; [reflexivity|].
  rewrite (Prim2SF_SF2Prim _ Hv). reflexivity.
Qed.

Lemma float_of_int_negative (z : Z) :
  (- 2 ^ 53 < z < 0)%Z ->
  float_of_int z = Ok (nearest_float z) /\
  F64.signed true (Prim2SF (nearest_float z)).
Proof.
  intros Hz. destruct z as [|p|p]; try lia.
  destruct (F64.binary_round_small true p) as (m & e & Hn & Hv); [lia|].
  unfold float_of_int, nearest_float, binary_normalize. rewrite Hn.
  split; [reflexivity|].
  rewrite (Prim2SF_SF2Prim _ Hv). reflexivity.
Qed.

(** On a finite float that is not negative, [int] is the floor. *)
Lemma int_of_float_floor (q : float) :
  is_finite q = true -> F64.sign_is false (Prim2SF q) ->
  exists n, int_of_float q = Ok n /\ floor_float q = Some n /\ (0 <= n)%Z.
Proof.
  intros Hfin Hs. unfold int_of_float, floor_float.
  destruct (F64.is_finite_Prim2SF _ Hfin) as [[s ->]|(s & m & e & E)].
  - exists 0%Z. repeat split; lia.
  - rewrite E in *. simpl in Hs. subst s. simpl.
    eexists. repeat split. apply Z.shiftl_nonneg. lia.
Qed.

(** On a finite float that is not positive, [int] is not positive. *)
Lemma int_of_float_nonpositive (q : float) :
  is_finite q = true -> F64.sign_is true (Prim2SF q) ->
  exists n, int_of_float q = Ok n /\ (n <= 0)%Z.
Proof.
  intros Hfin Hs. unfold int_of_float.
  destruct (F64.is_finite_Prim2SF _ Hfin) as [[s ->]|(s & m & e & E)].
  - exists 0%Z. split; [reflexivity | lia].
  - rewrite E in *. simpl in Hs. subst s. simpl.
    eexists. split; [reflexivity|].
    assert (0 <= Z.shiftl (Z.pos m) e)%Z by (apply Z.shiftl_nonneg; lia). lia.
Qed.

Lemma range_nonpositive (n : Z) : (n <= 0)%Z -> range n = [].
Proof.
  intros H. unfold range. replace (Z.to_nat n) with 0%nat by lia. reflexivity.
Qed.

Lemma range_length (n : Z) : length (range n) = Z.to_nat n.
Proof. unfold range. rewrite length_map, length_seq. reflexivity. Qed.

Lemma range_nth_error (n : Z) (i : nat) :
  (i < Z.to_nat n)%nat -> nth_error (range n) i = Some (Z.of_nat i).
Proof.
  intros H. unfold range. rewrite nth_error_map.
  rewrite nth_error_seq. destruct (Nat.ltb_spec i (Z.to_nat n)); [|lia].
  reflexivity.
Qed.

(** *** Float floor division and remainder, int true division

    [float.__floordiv__] and [float.__mod__] as [float_floor_div],
    [float_rem] and [_float_div_mod] of CPython compute them, over C's [fmod]
    and [floor]; [int.__truediv__] as [long_true_divide]. *)

Import Rounding.

(** C's [fmod]: the exact remainder of the division of [x] by [y] with the
    quotient cut toward zero; it has the sign of [x]. *)
Definition fmod (x y : float) : float :=
  match Prim2SF x, Prim2SF y with
  | S754_nan, _ | _, S754_nan => nan
  | S754_infinity _, _ => nan
  | _, S754_zero _ => nan
  | _, S754_infinity _ => x
  | S754_zero _, S754_finite _ _ _ => x
  | S754_finite sx mx ex, S754_finite _ my ey =>
      let r := (units mx ex mod units my ey)%Z in
      SF2Prim (binary_normalize prec emax (cond_Zopp sx r) (-1074) sx)
  end.

(** C's [floor]. *)
Definition floor (x : float) : float :=
  match Prim2SF x with
  | S754_finite s m e =>
      if (e <? 0)%Z
      then SF2Prim (binary_normalize prec emax
                      (Z.shiftl (cond_Zopp s (Zpos m)) e) 0 s)
      else x
  | _ => x
  end.

(** [copysign(0.0, x)] for an [x] that is not NaN (in [float_floordiv] a NaN
    quotient [x / y] comes with a NaN [div], which is not zero). *)
Definition copysign_zero (x : float) : float :=
  match Prim2SF x with
  | S754_zero true | S754_infinity true | S754_finite true _ _ => (-0)%float
  | _ => 0%float
  end.

(** [x // y] on floats. *)
Definition float_floordiv (x y : float) : result float :=
  if y =? 0 then Raise ZeroDivisionError
  else
    let md := fmod x y in
    let div := (x - md) / y in
    let div :=
      if negb (md =? 0) && negb (Bool.eqb (y <? 0) (md <? 0))
      then div - 1 else div in
    if negb (div =? 0) then
      let floordiv := floor div in
      if 0.5 <? div - floordiv then Ok (floordiv + 1) else Ok floordiv
    else Ok (copysign_zero (x / y)).

(** [x % y] on floats. *)
Definition float_mod (x y : float) : result float :=
  if y =? 0 then Raise ZeroDivisionError
  else
    let md := fmod x y in
    if negb (md =? 0) then
      if negb (Bool.eqb (y <? 0) (md <? 0)) then Ok (md + y) else Ok md
    else Ok (copysign_zero y).

(** The double nearest to [N / D] (ties to even), with the sign [s]. *)
Definition round_quotient (s : bool) (N D : Z) : spec_float :=
  let '(m, e, l) := SFdiv_core_binary prec emax N 0 D 0 in
  binary_round_aux prec emax s m e l.

(** [a / b] on ints: the double nearest to the quotient. *)
Definition int_truediv (a b : Z) : result float :=
  if (b =? 0)%Z then Raise ZeroDivisionError
  else if (a =? 0)%Z then Ok (if (b <? 0)%Z then (-0)%float else 0%float)
  else
    match round_quotient (xorb (a <? 0)%Z (b <? 0)%Z) (Z.abs a) (Z.abs b) with
    | S754_infinity _ => Raise OverflowError
    | q => Ok (SF2Prim q)
    end.

Local Open Scope Z_scope.

Lemma fmod_exact (x y : float) (sx sy : bool) (V Y : Z) :
  Prim2SF x = canon sx V -> Prim2SF y = canon sy Y -> rep V -> rep Y ->
  (V mod Y <> 0 -> rep (V mod Y)) ->
  fmod x y =
  SF2Prim (if V mod Y =? 0 then S754_zero sx else canon sx (V mod Y)).
Proof.
  intros Hx Hy HV HY HR.
  destruct (canon_units_of sx V HV) as (mx & ex & Ex & _ & _ & _ & Ux).
  destruct (canon_units_of sy Y HY) as (my & ey & Ey & _ & _ & _ & Uy).
  unfold fmod. rewrite Hx, Hy, Ex, Ey, Ux, Uy. f_equal.
  assert (HYpos : 0 < Y) by (destruct HY as [[H _] _]; lia).
  pose proof (Z.mod_pos_bound V Y HYpos) as Hb.
  destruct (Z.eqb_spec (V mod Y) 0) as [E0|E0].
  - rewrite E0. destruct sx; reflexivity.
  - rewrite binary_normalize_canon.
    + f_equal.
      * destruct sx; simpl; [apply Z.ltb_lt | apply Z.ltb_ge]; lia.
      * change (-1074 + 1074) with 0. rewrite Z.pow_0_r, Z.mul_1_r.
        destruct sx; simpl; lia.
    + lia.
    + destruct sx; simpl; lia.
    + change (-1074 + 1074) with 0. rewrite Z.pow_0_r, Z.mul_1_r.
      replace (Z.abs (cond_Zopp sx (V mod Y))) with (V mod Y)
        by (destruct sx; simpl; lia).
      auto.
Qed.

Lemma int_of_float_canon (x : float) (s : bool) (V : Z) :
  Prim2SF x = canon s V -> rep V ->
  int_of_float x = Ok (cond_Zopp s (V / 2 ^ 1074)).
Proof.
  intros Hx HV.
  destruct (canon_units_of s V HV) as (m & e & E & _ & He & _ & U).
  unfold int_of_float. rewrite Hx, E. f_equal. f_equal.
  rewrite <- U. unfold units.
  destruct (Z_le_gt_dec 0 e) as [Hpos|Hneg].
  - rewrite Z.shiftl_mul_pow2 by lia.
    rewrite Z.pow_add_r, Z.mul_assoc, Z.div_mul by lia. reflexivity.
  - rewrite Z.shiftl_div_pow2 by lia.
    rewrite (pow2_split 1074 (e + 1074)) by lia.
    replace (1074 - (e + 1074)) with (- e) by lia.
    rewrite Z.div_mul_cancel_r; [reflexivity| |];
      [pose proof (pow2_pos (- e)) | pose proof (pow2_pos (e + 1074))]; lia.
Qed.

(** [floor] keeps a whole number. *)
Lemma floor_exact (x : float) (s : bool) (n : Z) :
  Prim2SF x = canon s (n * 2 ^ 1074) -> 1 <= n < 2 ^ 53 -> floor x = x.
Proof.
  intros Hx Hn.
  assert (HV : rep (n * 2 ^ 1074)).
  { apply (rep_whole n); lia. }
  destruct (canon_units_of s _ HV) as (m & e & E & Hd & He & Hde & U).
  unfold floor. rewrite Hx, E.
  destruct (Z.ltb_spec e 0) as [Hneg|Hpos]; [|reflexivity].
  apply F64.Prim2SF_eq. rewrite Hx.
  assert (Em : Zpos m = n * 2 ^ (- e)).
  { unfold units in U.
    rewrite (pow2_split 1074 (e + 1074)) in U by lia.
    replace (1074 - (e + 1074)) with (- e) in U by lia.
    rewrite Z.mul_assoc in U.
    apply Z.mul_cancel_r in U; [exact U|].
    pose proof (pow2_pos (e + 1074)). lia. }
  assert (Esh : Z.shiftl (cond_Zopp s (Zpos m)) e = cond_Zopp s n).
  { rewrite Z.shiftl_div_pow2 by lia. rewrite Em.
    pose proof (pow2_pos (- e) ltac:(lia)).
    destruct s; simpl.
    - rewrite <- Z.mul_opp_l, Z.div_mul by lia. reflexivity.
    - rewrite Z.div_mul by lia. reflexivity. }
  rewrite Esh.
  rewrite binary_normalize_canon.
  - rewrite Prim2SF_SF2Prim.
    + f_equal.
      * destruct s; simpl; [apply Z.ltb_lt | apply Z.ltb_ge]; lia.
      * change (0 + 1074) with 1074. destruct s; simpl; f_equal; lia.
    + change (0 + 1074) with 1074.
      replace (Z.abs (cond_Zopp s n)) with n by (destruct s; simpl; lia).
      apply canon_valid, HV.
  - lia.
  - destruct s; simpl; lia.
  - change (0 + 1074) with 1074.
    replace (Z.abs (cond_Zopp s n)) with n by (destruct s; simpl; lia).
    exact HV.
Qed.

Lemma eqb_canon_zero (x : float) (s : bool) (V : Z) :
  Prim2SF x = canon s V -> (x =? 0)%float = false.
Proof.
  intros H. rewrite eqb_spec, H. unfold canon. destruct s; reflexivity.
Qed.

Lemma ltb_canon_zero (x : float) (s : bool) (V : Z) :
  Prim2SF x = canon s V -> (x <? 0)%float = s.
Proof.
  intros H. rewrite ltb_spec, H. unfold canon. destruct s; reflexivity.
Qed.

Lemma leb_canon_zero (x : float) (s : bool) (V : Z) :
  Prim2SF x = canon s V -> (x <=? 0)%float = s.
Proof.
  intros H. rewrite leb_spec, H. unfold canon. destruct s; reflexivity.
Qed.

Lemma Prim2SF_60_canon : Prim2SF 60 = canon false (60 * 2 ^ 1074) /\
                         rep (60 * 2 ^ 1074).
Proof.
  destruct Prim2SF_60 as [E U]. rewrite E, <- U.
  destruct (canon_units false 8444249301319680 (-47)) as [H1 H2];
    [reflexivity | lia | auto].
Qed.

(** The parts of a value below [2^53] in the division by sixty. *)
Lemma rep_parts (V : Z) :
  rep V -> 2 ^ 104 <= V < 2 ^ 1127 ->
  let Y := 60 * 2 ^ 1074 in
  (V mod Y <> 0 -> rep (V mod Y)) /\
  (1 <= V / Y -> rep (V / Y * Y)) /\
  0 <= V / Y < 2 ^ 52.
Proof.
  intros HV Hb Y.
  pose proof (rep_digits V HV) as Hd0.
  assert (Hd : 105 <= Zdigits2 V <= 1127).
  { split.
    - pose proof (Zdigits2_bounds V ltac:(lia)) as [_ H].
      destruct (Z_lt_le_dec (Zdigits2 V) 105) as [Hlt|Hge]; [|lia].
      exfalso. assert (2 ^ Zdigits2 V <= 2 ^ 104).
      { apply Z.pow_le_mono_r; lia. }
      lia.
    - apply Bounds.Zdigits2_le; lia. }
  pose proof (Zdigits2_bounds V ltac:(lia)) as [_ Hup].
  destruct HV as [_ Hmod].
  set (g := Zdigits2 V - 53) in *.
  pose proof (pow2_pos g ltac:(lia)) as HG.
  assert (HYpos : 0 < Y) by (unfold Y; lia).
  assert (HYG : Y mod 2 ^ g = 0).
  { unfold Y. rewrite (pow2_split 1074 g) by lia.
    rewrite Z.mul_assoc. apply Z.mod_mul. lia. }
  pose proof (Z.div_mod V Y ltac:(lia)) as EV.
  pose proof (Z.mod_pos_bound V Y HYpos) as HR.
  assert (Hn : 0 <= V / Y) by (apply Z.div_pos; lia).
  apply Z.mod_divide in Hmod; [|lia].
  apply Z.mod_divide in HYG; [|lia].
  assert (HnY : (2 ^ g | V / Y * Y)) by (apply Z.divide_mul_r; exact HYG).
  assert (HRG : (2 ^ g | V mod Y)).
  { replace (V mod Y) with (V - V / Y * Y) by lia.
    apply Z.divide_sub_r; assumption. }
  assert (H52 : 2 ^ 52 <= 2 ^ g) by (apply Z.pow_le_mono_r; lia).
  assert (Hup' : V < 2 ^ (53 + g)).
  { replace (53 + g) with (Zdigits2 V) by (unfold g; lia). exact Hup. }
  assert (HnYb : 0 <= V / Y * Y) by (apply Z.mul_nonneg_nonneg; lia).
  split; [|split].
  - intros HR0. apply (rep_intro _ g); [lia| | |lia].
    + apply Z.mod_divide; [lia|exact HRG].
    + split; [|lia]. destruct HRG as [c Hc]. rewrite Hc in *.
      assert (1 <= c) by nia. nia.
  - intros H1. apply (rep_intro _ g); [lia| | |lia].
    + apply Z.mod_divide; [lia|exact HnY].
    + split; [|lia]. unfold Y in *. nia.
  - split; [exact Hn|]. apply Z.div_lt_upper_bound; [lia|].
    unfold Y. replace 1127 with (53 + 1074) in Hb by lia.
    rewrite Z.pow_add_r in Hb by lia. lia.
Qed.

Lemma copysign_zero_div (x y : float) (mx my : positive) (ex ey : Z) :
  Prim2SF x = S754_finite false mx ex ->
  Prim2SF y = S754_finite false my ey ->
  copysign_zero (x / y) = 0%float.
Proof.
  intros Hx Hy. unfold copysign_zero. rewrite div_spec, Hx, Hy.
  unfold SF64div, SFdiv.
  destruct (SFdiv_core_binary prec emax (Zpos mx) ex (Zpos my) ey)
    as [[mz ez] lz].
  unfold binary_round_aux.
  destruct (shr_fexp prec emax mz ez lz) as [mrs1 e1].
  destruct (shr_fexp prec emax _ e1 loc_Exact) as [mrs2 e2].
  destruct (shr_m mrs2); [reflexivity| |reflexivity].
  destruct (e2 <=? emax - prec); reflexivity.
Qed.

Lemma mod_sixty (V : Z) :
  0 <= V -> V mod (60 * 2 ^ 1074) / 2 ^ 1074 = V / 2 ^ 1074 mod 60.
Proof.
  intros HV. rewrite (Z.mul_comm 60), Z.rem_mul_r by lia.
  rewrite Z.mul_comm, Z.div_add by lia.
  rewrite Z.div_small; [lia|]. apply Z.mod_pos_bound. lia.
Qed.

(** The remainder of a positive float below [2^53] in the division by sixty
    is that of its integer part, with the fraction. *)
Lemma float_mod_60 (t : float) (V : Z) :
  Prim2SF t = canon false V -> rep V -> 2 ^ 104 <= V < 2 ^ 1127 ->
  exists r, float_mod t 60 = Ok r /\
            int_of_float r = Ok (V / 2 ^ 1074 mod 60).
Proof.
  intros Ht HV Hb.
  destruct Prim2SF_60_canon as [H60 HY].
  destruct (rep_parts V HV Hb) as (HR & _ & _). cbv zeta in HR.
  pose proof (fmod_exact t 60 false false V _ Ht H60 HV HY HR) as Hmd.
  unfold float_mod. change (60 =? 0)%float with false. cbv iota.
  change (60 <? 0)%float with false.
  set (md := fmod t 60) in *.
  destruct (Z.eqb_spec (V mod (60 * 2 ^ 1074)) 0) as [E0|E0].
  - change (SF2Prim (S754_zero false)) with 0%float in Hmd. rewrite Hmd.
    change (0 =? 0)%float with true. cbn [negb].
    exists (copysign_zero 60). split; [reflexivity|].
    change (copysign_zero 60) with 0%float.
    rewrite <- mod_sixty, E0 by lia. reflexivity.
  - assert (Pmd : Prim2SF md = canon false (V mod (60 * 2 ^ 1074))).
    { rewrite Hmd. apply Prim2SF_canon. auto. }
    rewrite (eqb_canon_zero _ _ _ Pmd), (ltb_canon_zero _ _ _ Pmd).
    cbn [negb Bool.eqb]. exists md. split; [reflexivity|].
    rewrite (int_of_float_canon _ _ _ Pmd) by auto.
    cbn [cond_Zopp]. rewrite mod_sixty by lia. reflexivity.
Qed.

(** The quotient [n] of a whole multiple of sixty, floored. *)
Lemma floordiv_tail (d : float) (s : bool) (n : Z) (z : result float) :
  Prim2SF d = canon s (n * 2 ^ 1074) -> 1 <= n < 2 ^ 53 ->
  (if negb (d =? 0)%float
   then if (0.5 <? d - floor d)%float
        then Ok (floor d + 1)%float else Ok (floor d)
   else z) = Ok d.
Proof.
  intros Hd Hn. pose proof (rep_whole n Hn) as HV.
  rewrite (eqb_canon_zero _ _ _ Hd). cbn [negb].
  rewrite (floor_exact d s n Hd Hn).
  assert (E : Prim2SF (d - d) = S754_zero false).
  { rewrite sub_spec, Hd.
    destruct (canon_units_of s _ HV) as (m & e & E & _ & He & _ & U).
    rewrite E, SF64sub_exact by lia.
    rewrite Z.sub_diag. reflexivity. }
  rewrite ltb_spec, E. reflexivity.
Qed.

Lemma float_floordiv_60 (t : float) (V : Z) :
  Prim2SF t = canon false V -> rep V -> 2 ^ 104 <= V < 2 ^ 1127 ->
  exists q, float_floordiv t 60 = Ok q /\
            int_of_float q = Ok (V / 2 ^ 1074 / 60).
Proof.
  intros Ht HV Hb.
  destruct Prim2SF_60_canon as [H60 HY].
  destruct (rep_parts V HV Hb) as (HR & HQ & Hn). cbv zeta in HR, HQ, Hn.
  pose proof (fmod_exact t 60 false false V _ Ht H60 HV HY HR) as Hmd.
  set (Y := 60 * 2 ^ 1074) in *.
  assert (HYpos : 0 < Y) by (unfold Y; lia).
  pose proof (Z.div_mod V Y ltac:(lia)) as EV.
  pose proof (Z.mod_pos_bound V Y HYpos) as HRb.
  assert (En : V / 2 ^ 1074 / 60 = V / Y).
  { rewrite Z.div_div by lia. unfold Y. f_equal; lia. }
  rewrite En.
  destruct (canon_units_of false V HV) as (m & e & E & Hdm & He & _ & U).
  destruct (canon_units_of false Y HY) as (my & ey & Ey & Hdy & Hey & _ & Uy).
  unfold float_floordiv. change (60 =? 0)%float with false. cbv iota.
  change (60 <? 0)%float with false.
  set (md := fmod t 60) in *.
  (* the remainder is not negative: no correction *)
  assert (Hlt : (md <? 0)%float = false).
  { destruct (Z.eqb_spec (V mod Y) 0) as [E0|E0].
    - rewrite Hmd. reflexivity.
    - apply (ltb_canon_zero _ false (V mod Y)). rewrite Hmd.
      apply Prim2SF_canon. auto. }
  rewrite Hlt. cbn [Bool.eqb negb]. rewrite andb_false_r.
  (* the difference is the multiple of sixty below *)
  assert (Hsub : Prim2SF (t - md) =
                 if V / Y =? 0 then S754_zero false
                 else canon false (V / Y * Y)).
  { rewrite sub_spec, Ht, E.
    destruct (Z.eqb_spec (V mod Y) 0) as [E0|E0].
    - rewrite Hmd. change (Prim2SF (SF2Prim (S754_zero false)))
        with (S754_zero false).
      cbn [SF64sub SFsub].
      destruct (Z.eqb_spec (V / Y) 0) as [Q0|Q0]; [lia|].
      rewrite <- E. f_equal. lia.
    - rewrite Hmd, Prim2SF_canon by auto.
      destruct (canon_units_of false _ (HR E0))
        as (mr & er & Er & _ & Her & _ & Ur).
      rewrite Er.
      assert (EW : cond_Zopp false (units m e) -
                   cond_Zopp false (units mr er) = V / Y * Y).
      { cbn [cond_Zopp]. rewrite U, Ur. lia. }
      rewrite SF64sub_exact; [ | lia | lia | ]; rewrite EW.
      + destruct (Z.eqb_spec (V / Y) 0) as [Q0|Q0].
        * rewrite Q0. reflexivity.
        * destruct (Z.eqb_spec (V / Y * Y) 0) as [Q1|Q1]; [nia|].
          f_equal; [apply Z.ltb_ge|]; nia.
      + intros Q1. rewrite Z.abs_eq by nia. apply HQ. nia. }
  destruct (Z.eqb_spec (V / Y) 0) as [Q0|Q0].
  - (* less than a minute *)
    assert (Hdiv : ((t - md) / 60)%float = 0%float).
    { apply F64.Prim2SF_eq. rewrite div_spec, Hsub, H60. reflexivity. }
    rewrite Hdiv. change (0 =? 0)%float with true. cbn [negb].
    eexists. split; [reflexivity|].
    rewrite (copysign_zero_div t 60 m my e ey); [|congruence|congruence].
    rewrite Q0. reflexivity.
  - assert (Hdiv : Prim2SF ((t - md) / 60) = canon false (V / Y * 2 ^ 1074)).
    { rewrite div_spec, Hsub, H60.
      destruct (canon_units_of false _ (HQ ltac:(lia)))
        as (mq & eq & Eq & Hdq & Heq & _ & Uq).
      rewrite Eq, Ey.
      apply (SF64div_exact false false mq my eq ey (V / Y)); lia. }
    rewrite (floordiv_tail _ false (V / Y) _ Hdiv) by lia.
    eexists. split; [reflexivity|].
    rewrite (int_of_float_canon _ _ _ Hdiv) by (apply rep_whole; lia).
    cbn [cond_Zopp]. rewrite Z.div_mul by lia. reflexivity.
Qed.

Lemma int_of_float_bnd (x : float) (k : Z) :
  Bounds.bnd k (Prim2SF x) -> exists z, int_of_float x = Ok z.
Proof.
  unfold int_of_float.
  destruct (Prim2SF x) as [s|s| |s m e]; simpl; intros H;
    try contradiction; eauto.
Qed.

Lemma Prim2SF_1_canon : Prim2SF 1 = canon false (1 * 2 ^ 1074).
Proof.
  change (Prim2SF 1) with (S754_finite false 4503599627370496 (-52)).
  destruct (canon_units false 4503599627370496 (-52)) as [_ H];
    [reflexivity | lia |].
  rewrite H. reflexivity.
Qed.

(** Floor division and remainder of a negative float above [-2^53] by
    sixty: the quotient is the floor of the exact quotient. *)
Lemma float_mod_60_negative (t : float) (V : Z) :
  Prim2SF t = canon true V -> rep V -> 2 ^ 104 <= V < 2 ^ 1127 ->
  exists r z, float_mod t 60 = Ok r /\ int_of_float r = Ok z.
Proof.
  intros Ht HV Hb.
  destruct Prim2SF_60_canon as [H60 HY].
  destruct (rep_parts V HV Hb) as (HR & _ & _). cbv zeta in HR.
  pose proof (fmod_exact t 60 true false V _ Ht H60 HV HY HR) as Hmd.
  unfold float_mod. change (60 =? 0)%float with false. cbv iota.
  change (60 <? 0)%float with false.
  set (md := fmod t 60) in *.
  destruct (Z.eqb_spec (V mod (60 * 2 ^ 1074)) 0) as [E0|E0].
  - change (SF2Prim (S754_zero true)) with (-0)%float in Hmd. rewrite Hmd.
    change (-0 =? 0)%float with true. cbn [negb].
    exists (copysign_zero 60), 0. split; reflexivity.
  - assert (Pmd : Prim2SF md = canon true (V mod (60 * 2 ^ 1074))).
    { rewrite Hmd. apply Prim2SF_canon. auto. }
    rewrite (eqb_canon_zero _ _ _ Pmd), (ltb_canon_zero _ _ _ Pmd).
    cbn [negb Bool.eqb].
    destruct (canon_units_of true _ (HR E0))
      as (mr & er & Er & Hdr & Her & Her' & Ur).
    destruct (canon_units_of false _ HY)
      as (my & ey & Ey & Hdy & Hey & Hey' & Uy).
    pose proof (Z.mod_pos_bound V (60 * 2 ^ 1074) ltac:(lia)) as HRb.
    assert (Zdigits2 (V mod (60 * 2 ^ 1074)) <= 1080)
      by (apply Bounds.Zdigits2_le; lia).
    assert (Zdigits2 (60 * 2 ^ 1074) <= 1080)
      by (apply Bounds.Zdigits2_le; lia).
    destruct (int_of_float_bnd (md + 60) (Z.max (100 + 1) (-1074) + 1))
      as [z Hz].
    { rewrite add_spec, Pmd, H60, Er, Ey. unfold SF64add, SFadd.
      apply (Bounds.finite_sum_bound true false mr my er ey 100 false); lia. }
    exists (md + 60)%float, z. split; [reflexivity|exact Hz].
Qed.

Lemma float_floordiv_60_negative (t : float) (V : Z) :
  Prim2SF t = canon true V -> rep V -> 2 ^ 104 <= V < 2 ^ 1127 ->
  exists q, float_floordiv t 60 = Ok q /\
            int_of_float q = Ok (- V / (60 * 2 ^ 1074)).
Proof.
  intros Ht HV Hb.
  destruct Prim2SF_60_canon as [H60 HY].
  destruct (rep_parts V HV Hb) as (HR & HQ & Hn). cbv zeta in HR, HQ, Hn.
  pose proof (fmod_exact t 60 true false V _ Ht H60 HV HY HR) as Hmd.
  set (Y := 60 * 2 ^ 1074) in *.
  assert (HYpos : 0 < Y) by (unfold Y; lia).
  pose proof (Z.div_mod V Y ltac:(lia)) as EV.
  pose proof (Z.mod_pos_bound V Y HYpos) as HRb.
  destruct (canon_units_of true V HV) as (m & e & E & Hdm & He & _ & U).
  destruct (canon_units_of false Y HY) as (my & ey & Ey & Hdy & Hey & _ & Uy).
  unfold float_floordiv. change (60 =? 0)%float with false. cbv iota.
  change (60 <? 0)%float with false.
  set (md := fmod t 60) in *.
  destruct (Z.eqb_spec (V mod Y) 0) as [E0|E0].
  - (* a whole number of minutes *)
    assert (Q1 : 1 <= V / Y) by nia.
    assert (Emd : md = (-0)%float) by (rewrite Hmd; reflexivity).
    rewrite Emd. change (-0 =? 0)%float with true. cbn [negb andb].
    assert (Hsub : Prim2SF (t - -0) = canon true (V / Y * Y)).
    { rewrite sub_spec, Ht, E. change (Prim2SF (-0)) with (S754_zero true).
      cbn [SF64sub SFsub]. rewrite <- E. f_equal. lia. }
    assert (Hdiv : Prim2SF ((t - -0) / 60) = canon true (V / Y * 2 ^ 1074)).
    { rewrite div_spec, Hsub, H60.
      destruct (canon_units_of true _ (HQ Q1))
        as (mq & eq & Eq & Hdq & Heq & _ & Uq).
      rewrite Eq, Ey.
      apply (SF64div_exact true false mq my eq ey (V / Y)); lia. }
    rewrite (floordiv_tail _ true (V / Y) _ Hdiv) by lia.
    eexists. split; [reflexivity|].
    rewrite (int_of_float_canon _ _ _ Hdiv) by (apply rep_whole; lia).
    cbn [cond_Zopp]. rewrite Z.div_mul by lia. f_equal.
    apply Z.div_unique_exact; lia.
  - assert (Pmd : Prim2SF md = canon true (V mod Y)).
    { rewrite Hmd. apply Prim2SF_canon. auto. }
    rewrite (eqb_canon_zero _ _ _ Pmd), (ltb_canon_zero _ _ _ Pmd).
    cbn [negb Bool.eqb andb].
    destruct (canon_units_of true _ (HR E0))
      as (mr & er & Er & _ & Her & _ & Ur).
    assert (Hsub : Prim2SF (t - md) =
                   if V / Y =? 0 then S754_zero false
                   else canon true (V / Y * Y)).
    { rewrite sub_spec, Ht, E, Pmd, Er.
      assert (EW : cond_Zopp true (units m e) -
                   cond_Zopp true (units mr er) = - (V / Y * Y)).
      { cbn [cond_Zopp]. rewrite U, Ur. lia. }
      rewrite SF64sub_exact; [ | lia | lia | ]; rewrite EW.
      + destruct (Z.eqb_spec (V / Y) 0) as [Q0|Q0].
        * rewrite Q0. reflexivity.
        * destruct (Z.eqb_spec (- (V / Y * Y)) 0) as [Q1|Q1]; [nia|].
          f_equal; [apply Z.ltb_lt|]; nia.
      + intros Q1. rewrite Z.abs_neq by nia. rewrite Z.opp_involutive.
        apply HQ. nia. }
    assert (Hdiv : Prim2SF ((t - md) / 60 - 1) =
                   canon true ((V / Y + 1) * 2 ^ 1074)).
    { rewrite sub_spec, div_spec, Hsub, H60, Prim2SF_1_canon.
      destruct (canon_units_of false _ (rep_whole 1 ltac:(lia)))
        as (m1 & e1 & E1 & Hd1 & He1 & _ & U1).
      rewrite E1.
      destruct (Z.eqb_spec (V / Y) 0) as [Q0|Q0].
      - rewrite Ey. cbn [SF64div SFdiv SF64sub SFsub xorb negb].
        rewrite Q0. change ((0 + 1) * 2 ^ 1074) with (1 * 2 ^ 1074).
        destruct (canon_units true m1 e1 Hd1 He1) as [_ H].
        rewrite H, U1. reflexivity.
      - destruct (canon_units_of true _ (HQ ltac:(lia)))
          as (mq & eq & Eq & Hdq & Heq & _ & Uq).
        rewrite Eq, Ey.
        rewrite (SF64div_exact true false mq my eq ey (V / Y)) by lia.
        cbn [xorb].
        destruct (canon_units_of true _ (rep_whole (V / Y) ltac:(lia)))
          as (mn & en & En & Hdn & Hen & _ & Un).
        rewrite En.
        assert (EW : cond_Zopp true (units mn en) -
                     cond_Zopp false (units m1 e1) =
                     - ((V / Y + 1) * 2 ^ 1074)).
        { cbn [cond_Zopp]. rewrite Un, U1. lia. }
        rewrite SF64sub_exact; [ | lia | lia | ]; rewrite EW.
        + destruct (Z.eqb_spec (- ((V / Y + 1) * 2 ^ 1074)) 0) as [Q1|Q1];
            [lia|].
          f_equal; [apply Z.ltb_lt; lia|]. lia.
        + intros _. rewrite Z.abs_neq by lia. rewrite Z.opp_involutive.
          apply rep_whole. lia. }
    rewrite (floordiv_tail _ true (V / Y + 1) _ Hdiv) by lia.
    eexists. split; [reflexivity|].
    rewrite (int_of_float_canon _ _ _ Hdiv) by (apply rep_whole; lia).
    cbn [cond_Zopp]. rewrite Z.div_mul by lia. f_equal.
    apply (Z.div_unique _ _ _ (Y - V mod Y)); lia.
Qed.

(** The quotient of a positive count of microseconds by a million, rounded:
    the mantissa is that of [U * 2^c / 1000000], rounded to nearest. *)
Lemma round_quotient_million (s : bool) (U : Z) :
  0 < U < 2 ^ 63 ->
  exists m1 c,
    9 <= c <= 72 /\ 72 - Zdigits2 U <= c /\ 2 ^ 52 <= m1 <= 2 ^ 53 /\
    (m1 = (U * 2 ^ c) / 1000000 \/
     (m1 = (U * 2 ^ c) / 1000000 + 1 /\
      1000000 <= 2 * ((U * 2 ^ c) mod 1000000))) /\
    round_quotient s U 1000000 =
      if m1 <? 2 ^ 53 then S754_finite s (Z.to_pos m1) (- c)
      else S754_finite s (Z.to_pos (2 ^ 52)) (1 - c).
Proof.
  intros HU.
  pose proof (Zdigits2_bounds U ltac:(lia)) as Hd.
  assert (Hd1 : 1 <= Zdigits2 U <= 63).
  { split.
    - destruct U; try lia. cbn [Zdigits2]. lia.
    - apply Bounds.Zdigits2_le; lia. }
  set (d := Zdigits2 U) in *.
  unfold round_quotient, SFdiv_core_binary. fold d.
  change (Zdigits2 1000000) with 20.
  replace (Z.min (fexp prec emax (d + 0 - (20 + 0))) (0 - 0)) with (d - 73)
    by (unfold fexp, emin, prec, emax; lia).
  replace (0 - 0 - (d - 73)) with (73 - d) by lia.
  destruct (73 - d) as [|p|p] eqn:Ep; try lia.
  rewrite Z.shiftl_mul_pow2 by lia. rewrite <- Ep. clear p Ep.
  set (N := U * 2 ^ (73 - d)).
  assert (HN : 2 ^ 72 <= N < 2 ^ 73).
  { assert (H2 : 0 < 2 ^ (73 - d)) by (apply Z.pow_pos_nonneg; lia).
    assert (E72 : 2 ^ 72 = 2 ^ (d - 1) * 2 ^ (73 - d)).
    { rewrite <- Z.pow_add_r by lia. f_equal. lia. }
    assert (E73 : 2 ^ 73 = 2 ^ d * 2 ^ (73 - d)).
    { rewrite <- Z.pow_add_r by lia. f_equal. lia. }
    rewrite E72, E73. unfold N. split.
    - apply Z.mul_le_mono_nonneg_r; lia.
    - apply Z.mul_lt_mono_pos_r; lia. }
  pose proof (Z.div_eucl_eq N 1000000 ltac:(lia)) as Heq.
  pose proof (Z.mod_pos_bound N 1000000 ltac:(lia)) as Hmod.
  unfold Z.modulo in Hmod.
  assert (Hqr : Z.div_eucl N 1000000 = (N / 1000000, N mod 1000000)).
  { unfold Z.div, Z.modulo. destruct (Z.div_eucl N 1000000). reflexivity. }
  rewrite Hqr.
  destruct (binary_round_aux_spec s N 1000000 (d - 73) ltac:(lia) ltac:(lia))
    as (m1 & Hm1 & Hres).
  cbv zeta in Hres. rewrite Hres. clear Hres.
  set (q := N / 1000000) in *.
  assert (Hq : 2 ^ 52 < q < 2 ^ 54).
  { unfold q. split.
    - assert (2 ^ 52 + 1 <= N / 1000000)
        by (apply Z.div_le_lower_bound; lia). lia.
    - apply Z.div_lt_upper_bound; lia. }
  assert (Hdq : Zdigits2 q = 53 \/ Zdigits2 q = 54).
  { destruct (Z_lt_le_dec q (2 ^ 53)).
    - left. apply Zdigits2_eq; lia.
    - right. apply Zdigits2_eq; lia. }
  set (k := shift_of q (d - 73)) in *.
  assert (Hk : k = Zdigits2 q - 53).
  { unfold k, shift_of. rewrite fexp_normal by lia. lia. }
  assert (Hk2 : 2 ^ (52 + k) <= q < 2 ^ (53 + k)).
  { pose proof (Zdigits2_bounds q ltac:(lia)) as Hb.
    replace (52 + k) with (Zdigits2 q - 1) by lia.
    replace (53 + k) with (Zdigits2 q) by lia. exact Hb. }
  assert (Hk01 : k = 0 \/ k = 1) by lia.
  assert (H2k : 0 < 2 ^ k) by (apply Z.pow_pos_nonneg; lia).
  set (c := 73 - d - k).
  assert (EN : N = U * 2 ^ c * 2 ^ k).
  { unfold N, c. rewrite <- Z.mul_assoc, <- Z.pow_add_r by lia.
    f_equal. f_equal. lia. }
  assert (Ediv : N / (1000000 * 2 ^ k) = U * 2 ^ c / 1000000).
  { rewrite EN. apply Z.div_mul_cancel_r; lia. }
  assert (Emod : N mod (1000000 * 2 ^ k) =
                 (U * 2 ^ c) mod 1000000 * 2 ^ k).
  { rewrite EN. apply Z.mul_mod_distr_r; lia. }
  assert (Eq2 : N / (1000000 * 2 ^ k) = q / 2 ^ k).
  { unfold q. rewrite Z.div_div by lia. reflexivity. }
  assert (Hqk : 2 ^ 52 <= q / 2 ^ k < 2 ^ 53).
  { split.
    - apply Z.div_le_lower_bound; [lia|].
      rewrite Z.mul_comm, <- Z.pow_add_r by lia. lia.
    - apply Z.div_lt_upper_bound; [lia|].
      rewrite Z.mul_comm, <- Z.pow_add_r by lia. lia. }
  rewrite Ediv, Emod in Hm1. rewrite <- Eq2, Ediv in Hqk.
  exists m1, c.
  assert (Hm1b : 2 ^ 52 <= m1 <= 2 ^ 53) by lia.
  split; [unfold c; lia|]. split; [unfold c; lia|].
  split; [exact Hm1b|]. split.
  { destruct Hm1 as [[E _]|[E H]]; [left; exact E|right].
    split; [exact E|]. nia. }
  replace (d - 73 + k) with (- c) by (unfold c; lia).
  destruct (Z.ltb_spec m1 (2 ^ 53)) as [Hlt|Hge].
  - assert (Hs : shift_of m1 (- c) = 0).
    { unfold shift_of. rewrite (Zdigits2_eq m1 53) by lia.
      rewrite fexp_normal by (unfold c; lia). lia. }
    rewrite Hs. rewrite Z.pow_0_r, Z.div_1_r, Z.add_0_r.
    destruct m1 as [|p|p]; try lia.
    replace (- c <=? emax - prec) with true
      by (symmetry; apply Z.leb_le; unfold emax, prec, c; lia).
    reflexivity.
  - assert (E : m1 = 2 ^ 53) by lia. subst m1.
    assert (Hs : shift_of (2 ^ 53) (- c) = 1).
    { unfold shift_of. rewrite (Zdigits2_eq (2 ^ 53) 54) by lia.
      rewrite fexp_normal by (unfold c; lia). lia. }
    rewrite Hs. change (2 ^ 53 / 2 ^ 1) with (Zpos (Z.to_pos (2 ^ 52))).
    cbv iota.
    replace (- c + 1 <=? emax - prec) with true
      by (symmetry; apply Z.leb_le; unfold emax, prec, c; lia).
    f_equal. lia.
Qed.

(** Rounding up a quotient by a million cut at [2^-c], [c >= 20], does not
    reach the next whole number. *)
Lemma floor_rounded (U c m1 : Z) :
  0 <= U -> 20 <= c ->
  m1 = U * 2 ^ c / 1000000 \/ m1 = U * 2 ^ c / 1000000 + 1 ->
  m1 / 2 ^ c = U / 1000000.
Proof.
  intros HU Hc Hm1.
  pose proof (pow2_pos c ltac:(lia)) as Hp.
  assert (H20 : 2 ^ 20 <= 2 ^ c) by (apply Z.pow_le_mono_r; lia).
  pose proof (Z.div_mod U 1000000 ltac:(lia)) as EU.
  pose proof (Z.mod_pos_bound U 1000000 ltac:(lia)) as Hb.
  set (a := U / 1000000) in *. set (b := U mod 1000000) in *.
  pose proof (Z.div_mod (b * 2 ^ c) 1000000 ltac:(lia)) as Eg.
  pose proof (Z.mod_pos_bound (b * 2 ^ c) 1000000 ltac:(lia)) as Hgb.
  set (g := b * 2 ^ c / 1000000) in *.
  set (r := (b * 2 ^ c) mod 1000000) in *.
  assert (Hg : 0 <= g) by (apply Z.div_pos; nia).
  assert (Hg' : g + 1 < 2 ^ c) by nia.
  assert (Eq : U * 2 ^ c / 1000000 = a * 2 ^ c + g).
  { assert (E2 : U * 2 ^ c = 1000000 * a * 2 ^ c + b * 2 ^ c).
    { rewrite EU at 1. ring. }
    symmetry. apply (Z.div_unique _ _ _ r); lia. }
  rewrite Eq in Hm1. symmetry.
  destruct Hm1 as [-> | ->].
  - apply (Z.div_unique _ _ _ g); lia.
  - apply (Z.div_unique _ _ _ (g + 1)); lia.
Qed.

(** [U / 1000000] on ints, [U] not zero and below [2^63]: a normal float of
    the sign of [U]; below [2^52] its integer part is that of the exact
    quotient. *)
Lemma int_truediv_million (U : Z) :
  U <> 0 -> Z.abs U < 2 ^ 63 ->
  exists t V,
    int_truediv U 1000000 = Ok t /\
    Prim2SF t = canon (U <? 0) V /\ rep V /\ 2 ^ 104 <= V < 2 ^ 1127 /\
    (Z.abs U < 2 ^ 52 -> V / 2 ^ 1074 = Z.abs U / 1000000).
Proof.
  intros HU0 HU.
  destruct (round_quotient_million (U <? 0) (Z.abs U) ltac:(lia))
    as (m1 & c & Hc & Hcd & Hm1 & Hrel & Hres).
  pose proof (pow2_pos (1074 - c) ltac:(lia)) as Hp.
  pose proof (pow2_pos c ltac:(lia)) as Hpc.
  set (V := m1 * 2 ^ (1074 - c)).
  assert (Hfin : exists m e,
             round_quotient (U <? 0) (Z.abs U) 1000000 =
               S754_finite (U <? 0) m e /\
             Zpos (digits2_pos m) = 53 /\ -1074 <= e <= 971 /\
             units m e = V).
  { destruct (Z.ltb_spec m1 (2 ^ 53)) as [Hlt|Hge].
    - exists (Z.to_pos m1), (- c). split; [exact Hres|]. split.
      + change (Zpos (digits2_pos ?p)) with (Zdigits2 (Zpos p)).
        rewrite Z2Pos.id by lia. apply Zdigits2_eq; lia.
      + split; [lia|]. unfold units, V. rewrite Z2Pos.id by lia.
        f_equal. f_equal. lia.
    - exists (Z.to_pos (2 ^ 52)), (1 - c). split; [exact Hres|].
      split; [reflexivity|]. split; [lia|].
      unfold units, V. replace m1 with (2 ^ 53) by lia.
      replace (1 - c + 1074) with (1 + (1074 - c)) by lia.
      rewrite Z.pow_add_r, Z.mul_assoc by lia. reflexivity. }
  destruct Hfin as (m & e & Hq & Hd & He & HUn).
  destruct (canon_units (U <? 0) m e Hd He) as [Hrep Hcanon].
  rewrite HUn in *.
  exists (SF2Prim (canon (U <? 0) V)), V.
  split; [|split; [|split; [|split]]].
  - unfold int_truediv.
    change (1000000 =? 0) with false. change (1000000 <? 0) with false.
    destruct (Z.eqb_spec U 0) as [E|_]; [contradiction|].
    rewrite xorb_false_r. change (Z.abs 1000000) with 1000000.
    rewrite Hq, Hcanon. reflexivity.
  - apply Prim2SF_canon, Hrep.
  - exact Hrep.
  - unfold V. split.
    + apply Z.le_trans with (2 ^ 52 * 2 ^ (1074 - c)); [|nia].
      rewrite <- Z.pow_add_r by lia. apply Z.pow_le_mono_r; lia.
    + apply Z.le_lt_trans with (2 ^ 53 * 2 ^ (1074 - c)); [nia|].
      rewrite <- Z.pow_add_r by lia. apply Z.pow_lt_mono_r; lia.
  - intros H52.
    assert (Hdg : Zdigits2 (Z.abs U) <= 52)
      by (apply Bounds.Zdigits2_le; lia).
    rewrite <- (floor_rounded (Z.abs U) c m1) by (tauto || lia).
    unfold V. rewrite (pow2_split 1074 (1074 - c)) by lia.
    replace (1074 - (1074 - c)) with c by lia.
    apply Z.div_mul_cancel_r; lia.
Qed.

(** The float of a whole number below [2^53] is that number. *)
Lemma nearest_float_canon (n : Z) :
  1 <= n < 2 ^ 53 -> Prim2SF (nearest_float n) = canon false (n * 2 ^ 1074).
Proof.
  intros Hn. pose proof (rep_whole n Hn) as HV.
  unfold nearest_float.
  rewrite (binary_normalize_canon n 0 false); try lia.
  - change (0 + 1074) with 1074. rewrite Z.abs_eq by lia.
    replace (n <? 0) with false by (symmetry; apply Z.ltb_ge; lia).
    apply Prim2SF_canon, HV.
  - change (0 + 1074) with 1074. rewrite Z.abs_eq by lia. exact HV.
Qed.

(** A whole number of hours in seconds: the product by 3600 is exact. *)
Lemma mul_3600_whole (x : float) (n : Z) :
  Prim2SF x = canon false (n * 2 ^ 1074) -> 1 <= n -> n * 3600 < 2 ^ 53 ->
  Prim2SF (x * 3600)%float = canon false (n * 3600 * 2 ^ 1074).
Proof.
  intros Hx Hn1 Hn.
  pose proof (rep_whole n ltac:(lia)) as HV.
  pose proof (rep_whole (n * 3600) ltac:(lia)) as HP.
  destruct (canon_units_of false _ HV) as (m & e & E & Hd & He & _ & U).
  destruct (whole_mantissa m e n Hd ltac:(lia) ltac:(lia) U)
    as (Ee & He0 & Em).
  assert (Hdn : 1 <= Zdigits2 n) by (apply Zdigits2_pos; lia).
  rewrite mul_spec, Hx, E.
  change (Prim2SF 3600)
    with (S754_finite false 7916483719987200 (-41)).
  unfold SF64mul, SFmul. cbn [xorb].
  assert (EU : units (m * 7916483719987200) (e + -41) =
               n * 3600 * 2 ^ 1074).
  { unfold units. rewrite Pos2Z.inj_mul, Em.
    change (Zpos 7916483719987200) with (3600 * 2 ^ 41).
    rewrite (pow2_split 1074 (e + -41 + 1074)) by lia.
    replace (1074 - (e + -41 + 1074)) with (- e + 41) by lia.
    rewrite (Z.pow_add_r 2 (- e) 41) by lia. ring. }
  rewrite binary_round_aux_canon.
  - rewrite EU. reflexivity.
  - pose proof (Zdigits2_mul_pow2 (Zpos m * 3600) 41 ltac:(lia) ltac:(lia))
      as Hdm.
    assert (H52 : 2 ^ 52 <= Zpos m * 3600 * 2 ^ 41).
    { pose proof (Zdigits2_bounds (Zpos m) ltac:(lia)) as Hb.
      cbn [Zdigits2] in Hb. rewrite Hd in Hb. lia. }
    change (Zpos (digits2_pos (m * 7916483719987200)))
      with (Zdigits2 (Zpos (m * 7916483719987200))).
    rewrite Pos2Z.inj_mul.
    pose proof (Zdigits2_bounds (Zpos m * Zpos 7916483719987200) ltac:(lia))
      as [_ Hup].
    destruct (Z_lt_le_dec (Zdigits2 (Zpos m * Zpos 7916483719987200)) 53)
      as [Hlt|Hge]; [|exact Hge].
    exfalso.
    assert (2 ^ Zdigits2 (Zpos m * Zpos 7916483719987200) <= 2 ^ 52)
      by (apply Z.pow_le_mono_r; lia).
    change (Zpos 7916483719987200) with (3600 * 2 ^ 41) in *. lia.
  - lia.
  - rewrite EU. exact HP.
Qed.

End Py.

(** ** [datetime] and [timedelta] *)
Module Datetime.

Local Open Scope Z_scope.
Local Open Scope py_scope.

Record timedelta : Type := mk_timedelta {
  td_days : Z;
  td_seconds : Z;
  td_microseconds : Z
}.

(** [timedelta(days, seconds, microseconds, minutes=, hours=)] on ints: the
    normalisation to [0 <= seconds < 86400], [0 <= microseconds < 1000000]
    and the range check on the days. *)
Definition timedelta_new (days seconds microseconds minutes hours : Z)
  : result timedelta :=
  let seconds := seconds + (minutes * 60 + hours * 3600) in
  let d := days in
  let d := d + seconds / 86400 in
  let s := seconds mod 86400 in
  let seconds' := microseconds / 1000000 in
  let microseconds := microseconds mod 1000000 in
  let d := d + seconds' / 86400 in
  let s := s + seconds' mod 86400 in
  let seconds'' := microseconds / 1000000 in
  let us := microseconds mod 1000000 in
  let s := s + seconds'' in
  let d := d + s / 86400 in
  let s := s mod 86400 in
  if Z.abs d >? 999999999 then Raise OverflowError
  else Ok (mk_timedelta d s us).

(** [timedelta(seconds=n)] *)
Definition timedelta_seconds (n : Z) : result timedelta :=
  timedelta_new 0 n 0 0 0.

Definition timedelta_add (a b : timedelta) : result timedelta :=
  timedelta_new (td_days a + td_days b) (td_seconds a + td_seconds b)
                (td_microseconds a + td_microseconds b) 0 0.

Record datetime : Type := mk_datetime {
  year : Z;
  month : Z;
  day : Z;
  hour : Z;
  minute : Z;
  second : Z;
  microsecond : Z
}.

Definition MAXORDINAL : Z := 3652059.

Definition is_leap (y : Z) : bool :=
  (y mod 4 =? 0) && (negb (y mod 100 =? 0) || (y mod 400 =? 0)).

Definition days_before_year (y : Z) : Z :=
  let y := y - 1 in y * 365 + y / 4 - y / 100 + y / 400.

Definition DAYS_IN_MONTH (m : Z) : Z :=
  nth (Z.to_nat m) [-1; 31; 28; 31; 30; 31; 30; 31; 31; 30; 31; 30; 31] 0.

Definition DAYS_BEFORE_MONTH (m : Z) : Z :=
  nth (Z.to_nat m) [-1; 0; 31; 59; 90; 120; 151; 181; 212; 243; 273; 304; 334] 0.

Definition days_before_month (y m : Z) : Z :=
  DAYS_BEFORE_MONTH m + (if (m >? 2) && is_leap y then 1 else 0).

Definition ymd2ord (y m d : Z) : Z :=
  days_before_year y + days_before_month y m + d.

Definition DI400Y : Z := 146097.
Definition DI100Y : Z := 36524.
Definition DI4Y : Z := 1461.

Definition ord2ymd (n : Z) : Z * Z * Z :=
  let n := n - 1 in
  let n400 := n / DI400Y in
  let n := n mod DI400Y in
  let y := n400 * 400 + 1 in
  let n100 := n / DI100Y in
  let n := n mod DI100Y in
  let n4 := n / DI4Y in
  let n := n mod DI4Y in
  let n1 := n / 365 in
  let n := n mod 365 in
  let y := y + (n100 * 100 + n4 * 4 + n1) in
  if (n1 =? 4) || (n100 =? 4) then (y - 1, 12, 31)
  else
    let leapyear := (n1 =? 3) && (negb (n4 =? 24) || (n100 =? 3)) in
    let m := Z.shiftr (n + 50) 5 in
    let preceding :=
      DAYS_BEFORE_MONTH m + (if (m >? 2) && leapyear then 1 else 0) in
    if preceding >? n then
      let m := m - 1 in
      let preceding :=
        preceding - (DAYS_IN_MONTH m + (if (m =? 2) && leapyear then 1 else 0)) in
      (y, m, n - preceding + 1)
    else (y, m, n - preceding + 1).

Definition toordinal (t : datetime) : Z := ymd2ord (year t) (month t) (day t).

(** [t + delta] *)
Definition datetime_add (t : datetime) (other : timedelta) : result datetime :=
  delta <- timedelta_new (toordinal t) (second t) (microsecond t)
                         (minute t) (hour t) ;;
  delta <- timedelta_add delta other ;;
  let hour := td_seconds delta / 3600 in
  let rem := td_seconds delta mod 3600 in
  let minute := rem / 60 in
  let second := rem mod 60 in
  if (0 <? td_days delta) && (td_days delta <=? MAXORDINAL) then
    let '(y, m, d) := ord2ymd (td_days delta) in
    Ok (mk_datetime y m d hour minute second (td_microseconds delta))
  else Raise OverflowError.

(** [t.replace(microsecond=us)] *)
Definition replace_microsecond (t : datetime) (us : Z) : datetime :=
  mk_datetime (year t) (month t) (day t) (hour t) (minute t) (second t) us.

(** *** The microsecond is carried unchanged by whole-second arithmetic *)

Definition timedelta_set_microseconds (t : timedelta) (us : Z) : timedelta :=
  mk_timedelta (td_days t) (td_seconds t) us.

Lemma timedelta_new_microseconds (days seconds us minutes hours : Z) :
  0 <= us < 1000000 ->
  timedelta_new days seconds us minutes hours =
  match timedelta_new days seconds 0 minutes hours with
  | Ok t => Ok (timedelta_set_microseconds t us)
  | Raise e => Raise e
  end.
Proof.
  intros Hus. unfold timedelta_new.
  rewrite (Z.mod_small us 1000000 Hus), (Z.div_small us 1000000 Hus).
  rewrite (Z.mod_small us 1000000 Hus).
  change (0 mod 1000000) with 0. change (0 / 1000000) with 0.
  destruct (Z.abs _ >? 999999999); reflexivity.
Qed.

Lemma timedelta_new_whole (days seconds minutes hours : Z) (t : timedelta) :
  timedelta_new days seconds 0 minutes hours = Ok t -> td_microseconds t = 0.
Proof.
  unfold timedelta_new.
  destruct (Z.abs _ >? 999999999); [discriminate|].
  intros H. injection H as <-. reflexivity.
Qed.

Lemma timedelta_seconds_microseconds (n : Z) (t : timedelta) :
  timedelta_seconds n = Ok t -> td_microseconds t = 0.
Proof. apply timedelta_new_whole. Qed.

Lemma toordinal_replace_microsecond (t : datetime) (us : Z) :
  toordinal (replace_microsecond t us) = toordinal t.
Proof. reflexivity. Qed.

(** Adding a whole number of seconds: the result is the sum computed from
    the instant truncated to the second, with the microsecond put back. *)
Lemma datetime_add_microsecond (t : datetime) (other : timedelta) :
  0 <= microsecond t < 1000000 ->
  td_microseconds other = 0 ->
  datetime_add t other =
  match datetime_add (replace_microsecond t 0) other with
  | Ok r => Ok (replace_microsecond r (microsecond t))
  | Raise e => Raise e
  end.
Proof.
  intros Hus Hother. unfold datetime_add. simpl.
  rewrite toordinal_replace_microsecond.
  rewrite (timedelta_new_microseconds _ _ _ _ _ Hus).
  destruct (timedelta_new (toordinal t) (second t) 0 (minute t) (hour t))
    as [d0|e] eqn:E0; [|reflexivity].
  simpl. unfold timedelta_add. simpl. rewrite Hother, Z.add_0_r.
  rewrite (timedelta_new_microseconds _ _ _ _ _ Hus).
  rewrite (timedelta_new_whole _ _ _ _ _ E0). simpl.
  destruct (timedelta_new _ _ 0 0 0) as [d1|e]; [|reflexivity].
  simpl.
  destruct ((0 <? td_days d1) && (td_days d1 <=? MAXORDINAL)); [|reflexivity].
  destruct (ord2ymd (td_days d1)) as [[y m] d]. reflexivity.
Qed.

Lemma datetime_add_whole (t r : datetime) (other : timedelta) :
  microsecond t = 0 -> td_microseconds other = 0 ->
  datetime_add t other = Ok r -> microsecond r = 0.
Proof.
  intros Ht Hother. unfold datetime_add. rewrite Ht.
  destruct (timedelta_new (toordinal t) (second t) 0 (minute t) (hour t))
    as [d0|e] eqn:E0; [|discriminate].
  simpl. unfold timedelta_add.
  rewrite (timedelta_new_whole _ _ _ _ _ E0), Hother. simpl.
  destruct (timedelta_new _ _ 0 0 0) as [d1|e] eqn:E1; [|discriminate].
  simpl. rewrite (timedelta_new_whole _ _ _ _ _ E1).
  destruct ((0 <? td_days d1) && (td_days d1 <=? MAXORDINAL)); [|discriminate].
  destruct (ord2ymd (td_days d1)) as [[y m] d].
  intros H. injection H as <-. reflexivity.
Qed.

(** *** The calendar: ordinals and dates

    [_days_in_month], [_check_date_fields] and the inverse pair [_ymd2ord] /
    [_ord2ymd]. *)

(** [_days_in_month(year, month)] *)
Definition days_in_month (y m : Z) : Z :=
  if (m =? 2) && is_leap y then 29 else DAYS_IN_MONTH m.

(** [_check_date_fields]: the dates a [datetime] can hold. *)
Definition check_date_fields (y m d : Z) : bool :=
  (1 <=? y) && (y <=? 9999) && (1 <=? m) && (m <=? 12) &&
  (1 <=? d) && (d <=? days_in_month y m).

(** [f] holds on the [n] integers from [lo]. *)
Fixpoint check_range (f : Z -> bool) (lo : Z) (n : nat) : bool :=
  match n with
  | O => true
  | S n' => f lo && check_range f (lo + 1) n'
  end.

Lemma check_range_spec (f : Z -> bool) (n : nat) (lo : Z) :
  check_range f lo n = true ->
  forall k, lo <= k < lo + Z.of_nat n -> f k = true.
Proof.
  revert lo. induction n as [|n IH]; intros lo H k Hk; [lia|].
  simpl in H. apply andb_true_iff in H. destruct H as [H0 H1].
  destruct (Z.eq_dec k lo) as [->|Hne]; [exact H0|].
  apply (IH (lo + 1) H1). lia.
Qed.

(** The month and the day of the day [n] (from 0) of a year, as the tail of
    [ord2ymd] computes them. *)
Definition month_day (leapyear : bool) (n : Z) : Z * Z :=
  let m := Z.shiftr (n + 50) 5 in
  let preceding :=
    DAYS_BEFORE_MONTH m + (if (m >? 2) && leapyear then 1 else 0) in
  if preceding >? n then
    let m := m - 1 in
    let preceding :=
      preceding - (DAYS_IN_MONTH m + (if (m =? 2) && leapyear then 1 else 0)) in
    (m, n - preceding + 1)
  else (m, n - preceding + 1).

Definition month_day_ok (leapyear : bool) (n : Z) : bool :=
  let '(m, d) := month_day leapyear n in
  (1 <=? m) && (m <=? 12) && (1 <=? d) &&
  (d <=? (if (m =? 2) && leapyear then 29 else DAYS_IN_MONTH m)) &&
  (DAYS_BEFORE_MONTH m + (if (m >? 2) && leapyear then 1 else 0) + d =? n + 1).

Lemma month_day_checked (leapyear : bool) :
  check_range (month_day_ok leapyear) 0 365 = true.
Proof. destruct leapyear; vm_compute; reflexivity. Qed.

Lemma month_day_spec (leapyear : bool) (n : Z) :
  0 <= n < 365 ->
  exists m d, month_day leapyear n = (m, d) /\
    1 <= m <= 12 /\ 1 <= d /\
    d <= (if (m =? 2) && leapyear then 29 else DAYS_IN_MONTH m) /\
    DAYS_BEFORE_MONTH m + (if (m >? 2) && leapyear then 1 else 0) + d = n + 1.
Proof.
  intros Hn.
  assert (H := check_range_spec _ _ _ (month_day_checked leapyear) n).
  specialize (H ltac:(lia)). unfold month_day_ok in H.
  destruct (month_day leapyear n) as [m d]. exists m, d.
  rewrite !andb_true_iff in H. destruct H as [[[[H1 H2] H3] H4] H5].
  apply Z.leb_le in H1, H2, H3, H4. apply Z.eqb_eq in H5.
  repeat split; auto.
Qed.

Lemma is_leap_spec (y : Z) :
  is_leap y = true <-> (y mod 4 = 0 /\ (y mod 100 <> 0 \/ y mod 400 = 0)).
Proof.
  unfold is_leap. rewrite andb_true_iff, orb_true_iff, negb_true_iff.
  rewrite !Z.eqb_eq, Z.eqb_neq. tauto.
Qed.

Lemma ord2ymd_spec (n : Z) :
  exists y m d, ord2ymd n = (y, m, d) /\
    1 <= m <= 12 /\ 1 <= d <= days_in_month y m /\ ymd2ord y m d = n.
Proof.
  unfold ord2ymd.
  pose proof (Z.div_mod (n - 1) DI400Y ltac:(discriminate)) as E400.
  pose proof (Z.mod_pos_bound (n - 1) DI400Y ltac:(reflexivity)) as B400.
  set (n400 := (n - 1) / DI400Y) in *. set (r400 := (n - 1) mod DI400Y) in *.
  pose proof (Z.div_mod r400 DI100Y ltac:(discriminate)) as E100.
  pose proof (Z.mod_pos_bound r400 DI100Y ltac:(reflexivity)) as B100.
  set (n100 := r400 / DI100Y) in *. set (r100 := r400 mod DI100Y) in *.
  pose proof (Z.div_mod r100 DI4Y ltac:(discriminate)) as E4.
  pose proof (Z.mod_pos_bound r100 DI4Y ltac:(reflexivity)) as B4.
  set (n4 := r100 / DI4Y) in *. set (r4 := r100 mod DI4Y) in *.
  pose proof (Z.div_mod r4 365 ltac:(discriminate)) as E1.
  pose proof (Z.mod_pos_bound r4 365 ltac:(reflexivity)) as B1.
  set (n1 := r4 / 365) in *. set (r1 := r4 mod 365) in *.
  unfold DI400Y, DI100Y, DI4Y in *.
  clearbody n400 r400 n100 r100 n4 r4 n1 r1.
  assert (Hdby : forall a b c e, 0 <= b <= 3 -> 0 <= c <= 24 -> 0 <= e <= 3 ->
            days_before_year (a * 400 + 1 + (b * 100 + c * 4 + e)) =
            146097 * a + 36524 * b + 1461 * c + 365 * e).
  { intros a b c e Hb Hc He. unfold days_before_year.
    Z.div_mod_to_equations. lia. }
  destruct ((n1 =? 4) || (n100 =? 4)) eqn:Hsp.
  - exists (n400 * 400 + 1 + (n100 * 100 + n4 * 4 + n1) - 1), 12, 31.
    split; [reflexivity|]. split; [lia|].
    apply orb_true_iff in Hsp. rewrite !Z.eqb_eq in Hsp.
    destruct Hsp as [Hsp|Hsp].
    + assert (n100 <= 3 /\ n4 <= 23 /\ 0 <= n100 /\ 0 <= n4) by lia.
      replace (n400 * 400 + 1 + (n100 * 100 + n4 * 4 + n1) - 1)
        with (n400 * 400 + 1 + (n100 * 100 + n4 * 4 + 3)) by lia.
      assert (Hl : is_leap (n400 * 400 + 1 + (n100 * 100 + n4 * 4 + 3)) = true).
      { apply is_leap_spec. Z.div_mod_to_equations. lia. }
      unfold ymd2ord, days_before_month. rewrite Hdby by lia. rewrite Hl.
      change (days_in_month _ 12) with 31.
      change (DAYS_BEFORE_MONTH 12 + (if (12 >? 2) && true then 1 else 0))
        with 335.
      lia.
    + replace (n400 * 400 + 1 + (n100 * 100 + n4 * 4 + n1) - 1)
        with (n400 * 400 + 1 + (3 * 100 + 24 * 4 + 3)) by lia.
      assert (Hl : is_leap (n400 * 400 + 1 + (3 * 100 + 24 * 4 + 3)) = true).
      { apply is_leap_spec. Z.div_mod_to_equations. lia. }
      unfold ymd2ord, days_before_month. rewrite Hdby by lia. rewrite Hl.
      change (days_in_month _ 12) with 31.
      change (DAYS_BEFORE_MONTH 12 + (if (12 >? 2) && true then 1 else 0))
        with 335.
      lia.
  - apply orb_false_iff in Hsp. rewrite !Z.eqb_neq in Hsp.
    assert (Hb : 0 <= n100 <= 3 /\ 0 <= n4 <= 24 /\ 0 <= n1 <= 3) by lia.
    set (leapyear := (n1 =? 3) && (negb (n4 =? 24) || (n100 =? 3))).
    set (y := n400 * 400 + 1 + (n100 * 100 + n4 * 4 + n1)).
    assert (Hl : is_leap y = leapyear).
    { unfold leapyear, y.
      destruct (is_leap _) eqn:E.
      - apply is_leap_spec in E. symmetry.
        rewrite andb_true_iff, orb_true_iff, negb_true_iff, !Z.eqb_eq, Z.eqb_neq.
        revert E. Z.div_mod_to_equations. lia.
      - symmetry. apply not_true_iff_false. intros Hc. 
        apply not_true_iff_false in E. apply E. apply is_leap_spec.
        rewrite andb_true_iff, orb_true_iff, negb_true_iff, !Z.eqb_eq, Z.eqb_neq in Hc.
        Z.div_mod_to_equations. lia. }
    destruct (month_day_spec leapyear r1 ltac:(lia)) as (m & d & Hmd & Hm & Hd1 & Hd2 & Hsum).
    exists y, m, d.
    split.
    { unfold month_day in Hmd.
      destruct (_ >? r1); injection Hmd as <- <-; reflexivity. }
    split; [exact Hm|].
    unfold days_in_month, ymd2ord, days_before_month. rewrite Hl.
    split; [lia|]. unfold y at 1. rewrite Hdby by lia. lia.
Qed.

Lemma days_before_year_succ (y : Z) :
  days_before_year (y + 1) =
  days_before_year y + 365 + (if is_leap y then 1 else 0).
Proof.
  unfold days_before_year.
  destruct (is_leap y) eqn:E.
  - apply is_leap_spec in E. revert E. Z.div_mod_to_equations. lia.
  - assert (H : ~ (y mod 4 = 0 /\ (y mod 100 <> 0 \/ y mod 400 = 0))).
    { rewrite <- is_leap_spec. congruence. }
    revert H. Z.div_mod_to_equations. lia.
Qed.

Lemma days_before_year_mono (y y' : Z) :
  y <= y' -> days_before_year y <= days_before_year y'.
Proof. unfold days_before_year. Z.div_mod_to_equations. lia. Qed.

Lemma month_cases (m : Z) :
  1 <= m <= 12 ->
  m = 1 \/ m = 2 \/ m = 3 \/ m = 4 \/ m = 5 \/ m = 6 \/
  m = 7 \/ m = 8 \/ m = 9 \/ m = 10 \/ m = 11 \/ m = 12.
Proof. lia. Qed.

Ltac each_month H :=
  apply month_cases in H;
  repeat (destruct H as [H|H]; [subst|]); subst.

Lemma days_before_month_bounds (y m : Z) :
  1 <= m <= 12 ->
  0 <= days_before_month y m /\
  days_before_month y m + days_in_month y m <=
    365 + (if is_leap y then 1 else 0).
Proof.
  intros Hm. unfold days_before_month, days_in_month.
  each_month Hm; destruct (is_leap y); cbv -[Z.le Z.lt Z.add]; lia.
Qed.

Lemma days_before_month_mono (y m m' : Z) :
  1 <= m -> m < m' -> m' <= 12 ->
  days_before_month y m + days_in_month y m <= days_before_month y m'.
Proof.
  intros H1 H2 H3. unfold days_before_month, days_in_month.
  assert (Hm : 1 <= m <= 12) by lia. assert (Hm' : 1 <= m' <= 12) by lia.
  each_month Hm; each_month Hm'; try lia; destruct (is_leap y); cbv -[Z.le Z.lt Z.add]; lia.
Qed.

Lemma ymd2ord_bounds (y m d : Z) :
  1 <= m <= 12 -> 1 <= d <= days_in_month y m ->
  days_before_year y < ymd2ord y m d <= days_before_year (y + 1).
Proof.
  intros Hm Hd. rewrite days_before_year_succ. unfold ymd2ord.
  pose proof (days_before_month_bounds y m Hm). lia.
Qed.

Lemma ymd2ord_inj (y m d y' m' d' : Z) :
  1 <= m <= 12 -> 1 <= d <= days_in_month y m ->
  1 <= m' <= 12 -> 1 <= d' <= days_in_month y' m' ->
  ymd2ord y m d = ymd2ord y' m' d' -> y = y' /\ m = m' /\ d = d'.
Proof.
  intros Hm Hd Hm' Hd' E.
  pose proof (ymd2ord_bounds y m d Hm Hd) as B.
  pose proof (ymd2ord_bounds y' m' d' Hm' Hd') as B'.
  assert (Hy : y = y').
  { destruct (Z.lt_trichotomy y y') as [H|[H|H]]; [|exact H|].
    - pose proof (days_before_year_mono (y + 1) y' ltac:(lia)). lia.
    - pose proof (days_before_year_mono (y' + 1) y ltac:(lia)). lia. }
  subst y'. split; [reflexivity|].
  unfold ymd2ord in E.
  assert (Hmm : m = m').
  { destruct (Z.lt_trichotomy m m') as [H|[H|H]]; [|exact H|].
    - pose proof (days_before_month_mono y m m' ltac:(lia) H ltac:(lia)). lia.
    - pose proof (days_before_month_mono y m' m ltac:(lia) H ltac:(lia)). lia. }
  subst m'. split; [reflexivity | lia].
Qed.

(** The two conversions are inverse of each other. *)
Lemma ord2ymd_ymd2ord (y m d : Z) :
  1 <= m <= 12 -> 1 <= d <= days_in_month y m ->
  ord2ymd (ymd2ord y m d) = (y, m, d).
Proof.
  intros Hm Hd.
  destruct (ord2ymd_spec (ymd2ord y m d)) as (y' & m' & d' & E & Hm' & Hd' & Ho).
  rewrite E.
  destruct (ymd2ord_inj _ _ _ _ _ _ Hm' Hd' Hm Hd Ho) as (-> & -> & ->).
  reflexivity.
Qed.

Lemma check_date_fields_spec (y m d : Z) :
  check_date_fields y m d = true <->
  1 <= y <= 9999 /\ 1 <= m <= 12 /\ 1 <= d <= days_in_month y m.
Proof.
  unfold check_date_fields. rewrite !andb_true_iff, !Z.leb_le. tauto.
Qed.

Lemma ymd2ord_range (y m d : Z) :
  check_date_fields y m d = true -> 1 <= ymd2ord y m d <= MAXORDINAL.
Proof.
  rewrite check_date_fields_spec. intros (Hy & Hm & Hd).
  pose proof (ymd2ord_bounds y m d Hm Hd).
  pose proof (days_before_year_mono 1 y ltac:(lia)).
  pose proof (days_before_year_mono (y + 1) 10000 ltac:(lia)).
  change (days_before_year 1) with 0 in *.
  change (days_before_year 10000) with 3652059 in *.
  unfold MAXORDINAL. lia.
Qed.

Lemma ord2ymd_range (n : Z) :
  1 <= n <= MAXORDINAL ->
  exists y m d, ord2ymd n = (y, m, d) /\ check_date_fields y m d = true /\
                ymd2ord y m d = n.
Proof.
  intros Hn.
  destruct (ord2ymd_spec n) as (y & m & d & E & Hm & Hd & Ho).
  exists y, m, d. split; [exact E|]. split; [|exact Ho].
  apply check_date_fields_spec. split; [|tauto].
  pose proof (ymd2ord_bounds y m d Hm Hd) as B. rewrite Ho in B.
  unfold MAXORDINAL in Hn.
  destruct (Z_le_gt_dec y 0) as [H0|H0].
  { pose proof (days_before_year_mono (y + 1) 1 ltac:(lia)).
    change (days_before_year 1) with 0 in *. lia. }
  destruct (Z_le_gt_dec y 9999) as [H1|H1]; [lia|].
  pose proof (days_before_year_mono 10000 y ltac:(lia)).
  change (days_before_year 10000) with 3652059 in *. lia.
Qed.

(** *** Durations as microsecond counts *)

(** [timedelta._to_microseconds] *)
Definition to_microseconds (t : timedelta) : Z :=
  (td_days t * 86400 + td_seconds t) * 1000000 + td_microseconds t.

(** The normalised duration of [us] microseconds. *)
Definition timedelta_of_microseconds (us : Z) : timedelta :=
  mk_timedelta (us / 86400000000) (us / 1000000 mod 86400) (us mod 1000000).

(** The constructor in closed form: the fields of the total number of
    microseconds, when its days are in range. *)
Lemma timedelta_new_closed (days seconds microseconds minutes hours : Z) :
  timedelta_new days seconds microseconds minutes hours =
  let us := (days * 86400 + seconds + minutes * 60 + hours * 3600) * 1000000
            + microseconds in
  if Z.abs (us / 86400000000) >? 999999999 then Raise OverflowError
  else Ok (timedelta_of_microseconds us).
Proof.
  unfold timedelta_new, timedelta_of_microseconds. cbv zeta.
  set (T := (days * 86400 + seconds + minutes * 60 + hours * 3600) * 1000000
            + microseconds).
  set (s0 := seconds + (minutes * 60 + hours * 3600)).
  set (c := microseconds / 1000000).
  assert (HT : T = (days * 86400 + s0 + c) * 1000000 + microseconds mod 1000000).
  { unfold T, s0, c. Z.div_mod_to_equations. lia. }
  assert (Hu := Z.mod_pos_bound microseconds 1000000 ltac:(lia)).
  assert (Hus : T mod 1000000 = microseconds mod 1000000).
  { rewrite HT. rewrite Z.add_comm, Z_mod_plus_full. apply Z.mod_small, Hu. }
  assert (Hsec : T / 1000000 = days * 86400 + s0 + c).
  { rewrite HT. rewrite Z.add_comm, Z.div_add by lia.
    rewrite Z.div_small by exact Hu. lia. }
  assert (Hday : T / 86400000000 = (days * 86400 + s0 + c) / 86400).
  { change 86400000000 with (1000000 * 86400).
    rewrite <- Z.div_div by lia. rewrite Hsec. reflexivity. }
  rewrite Z.mod_mod by lia.
  rewrite (Z.div_small (microseconds mod 1000000)) by exact Hu.
  rewrite Hus, Hsec, Hday, Z.add_0_r.
  assert (Hs : (s0 mod 86400 + c mod 86400) mod 86400 =
               (days * 86400 + s0 + c) mod 86400).
  { Z.div_mod_to_equations. lia. }
  assert (Hd : days + s0 / 86400 + c / 86400 +
               (s0 mod 86400 + c mod 86400) / 86400 =
               (days * 86400 + s0 + c) / 86400).
  { Z.div_mod_to_equations. lia. }
  rewrite Hs, Hd. reflexivity.
Qed.

Lemma timedelta_seconds_closed (n : Z) :
  timedelta_seconds n =
  if Z.abs (n / 86400) >? 999999999 then Raise OverflowError
  else Ok (timedelta_of_microseconds (n * 1000000)).
Proof.
  unfold timedelta_seconds. rewrite timedelta_new_closed. cbv zeta.
  replace ((0 * 86400 + n + 0 * 60 + 0 * 3600) * 1000000 + 0)
    with (n * 1000000) by lia.
  change 86400000000 with (1000000 * 86400).
  rewrite <- Z.div_div by lia. rewrite Z.div_mul by lia. reflexivity.
Qed.


(** *** Instants as microsecond counts *)

(** What the constructor of [datetime] demands of the fields. *)
Definition valid_datetime (t : datetime) : bool :=
  check_date_fields (year t) (month t) (day t) &&
  (0 <=? hour t) && (hour t <=? 23) &&
  (0 <=? minute t) && (minute t <=? 59) &&
  (0 <=? second t) && (second t <=? 59) &&
  (0 <=? microsecond t) && (microsecond t <=? 999999).

(** [t1 - t2] for two naive datetimes. *)
Definition datetime_sub (a b : datetime) : result timedelta :=
  let days1 := toordinal a in
  let days2 := toordinal b in
  let secs1 := second a + minute a * 60 + hour a * 3600 in
  let secs2 := second b + minute b * 60 + hour b * 3600 in
  timedelta_new (days1 - days2) (secs1 - secs2)
                (microsecond a - microsecond b) 0 0.

(** The microseconds from midnight before day 1 to the instant [t]. *)
Definition datetime_microseconds (t : datetime) : Z :=
  (toordinal t * 86400 + (second t + minute t * 60 + hour t * 3600)) * 1000000
  + microsecond t.

Definition datetime_of_microseconds (us : Z) : datetime :=
  let '(y, m, d) := ord2ymd (us / 86400000000) in
  let s := us / 1000000 mod 86400 in
  mk_datetime y m d (s / 3600) (s mod 3600 / 60) (s mod 3600 mod 60)
              (us mod 1000000).

Lemma valid_datetime_spec (t : datetime) :
  valid_datetime t = true <->
  check_date_fields (year t) (month t) (day t) = true /\
  0 <= hour t <= 23 /\ 0 <= minute t <= 59 /\ 0 <= second t <= 59 /\
  0 <= microsecond t <= 999999.
Proof.
  unfold valid_datetime. rewrite !andb_true_iff, !Z.leb_le. tauto.
Qed.

Lemma to_microseconds_of (us : Z) :
  to_microseconds (timedelta_of_microseconds us) = us.
Proof.
  unfold to_microseconds, timedelta_of_microseconds. simpl.
  change 86400000000 with (1000000 * 86400).
  rewrite <- Z.div_div by lia.
  Z.div_mod_to_equations. lia.
Qed.

Lemma datetime_microseconds_fields (t : datetime) :
  valid_datetime t = true ->
  let us := datetime_microseconds t in
  us / 86400000000 = toordinal t /\
  us / 1000000 mod 86400 = second t + minute t * 60 + hour t * 3600 /\
  us mod 1000000 = microsecond t.
Proof.
  rewrite valid_datetime_spec. intros (_ & Hh & Hm & Hs & Hu).
  unfold datetime_microseconds. cbv zeta.
  change 86400000000 with (1000000 * 86400).
  rewrite <- Z.div_div by lia.
  set (o := toordinal t). clearbody o.
  set (s := second t + minute t * 60 + hour t * 3600).
  assert (Hsb : 0 <= s < 86400) by (unfold s; lia). clearbody s.
  assert (H1 : ((o * 86400 + s) * 1000000 + microsecond t) / 1000000 =
               o * 86400 + s).
  { rewrite Z.add_comm, Z.div_add by lia. rewrite Z.div_small by lia. lia. }
  rewrite H1. repeat split.
  - rewrite Z.add_comm, Z.div_add by lia. rewrite Z.div_small by lia. lia.
  - rewrite Z.add_comm, Z_mod_plus_full. apply Z.mod_small. lia.
  - rewrite Z.add_comm, Z_mod_plus_full. apply Z.mod_small. lia.
Qed.

(** A valid instant is recovered from its microsecond count. *)
Lemma datetime_of_microseconds_inv (t : datetime) :
  valid_datetime t = true ->
  datetime_of_microseconds (datetime_microseconds t) = t.
Proof.
  intros Hv. destruct (datetime_microseconds_fields t Hv) as (Hd & Hs & Hu).
  unfold datetime_of_microseconds. rewrite Hd, Hs, Hu.
  apply valid_datetime_spec in Hv. destruct Hv as (Hdate & Hh & Hm & Hsec & _).
  apply check_date_fields_spec in Hdate. destruct Hdate as (_ & Hmo & Hda).
  unfold toordinal. rewrite (ord2ymd_ymd2ord _ _ _ Hmo Hda).
  destruct t as [y mo d h mi s us]. simpl in *.
  f_equal; Z.div_mod_to_equations; lia.
Qed.

(** Every microsecond count whose day is an ordinal of the calendar is that of
    one valid instant. *)
Lemma datetime_of_microseconds_valid (us : Z) :
  1 <= us / 86400000000 <= MAXORDINAL ->
  valid_datetime (datetime_of_microseconds us) = true /\
  datetime_microseconds (datetime_of_microseconds us) = us.
Proof.
  intros Hr. unfold datetime_of_microseconds.
  destruct (ord2ymd_range _ Hr) as (y & m & d & -> & Hdate & Ho).
  split.
  - apply valid_datetime_spec. simpl. split; [exact Hdate|].
    Z.div_mod_to_equations. lia.
  - unfold datetime_microseconds, toordinal. simpl. rewrite Ho.
    change 86400000000 with (1000000 * 86400).
    rewrite <- Z.div_div by lia.
    Z.div_mod_to_equations. lia.
Qed.

Lemma datetime_add_closed (t : datetime) (other : timedelta) :
  valid_datetime t = true ->
  datetime_add t other =
  let us := datetime_microseconds t + to_microseconds other in
  if (0 <? us / 86400000000) && (us / 86400000000 <=? MAXORDINAL)
  then Ok (datetime_of_microseconds us)
  else Raise OverflowError.
Proof.
  intros Hv. unfold datetime_add.
  destruct (datetime_microseconds_fields t Hv) as (Hd & Hs & Hu).
  cbv zeta in Hd, Hs, Hu.
  assert (Hord : 1 <= toordinal t <= MAXORDINAL).
  { apply ymd2ord_range. apply valid_datetime_spec in Hv. tauto. }
  rewrite timedelta_new_closed. cbv zeta.
  replace ((toordinal t * 86400 + second t + minute t * 60 + hour t * 3600)
           * 1000000 + microsecond t)
    with (datetime_microseconds t) by (unfold datetime_microseconds; lia).
  rewrite Hd.
  destruct (Z.abs (toordinal t) >? 999999999) eqn:E.
  { unfold MAXORDINAL in Hord. lia. }
  cbn [bind]. unfold timedelta_add. rewrite timedelta_new_closed. cbv zeta.
  set (us0 := datetime_microseconds t) in *.
  replace (((td_days (timedelta_of_microseconds us0) + td_days other) * 86400 +
            (td_seconds (timedelta_of_microseconds us0) + td_seconds other) +
            0 * 60 + 0 * 3600) * 1000000 +
           (td_microseconds (timedelta_of_microseconds us0) +
            td_microseconds other))
    with (us0 + to_microseconds other).
  2:{ pose proof (to_microseconds_of us0) as H0.
      unfold to_microseconds in *. lia. }
  set (us := us0 + to_microseconds other).
  destruct (Z.abs (us / 86400000000) >? 999999999) eqn:E1.
  - cbn [bind].
    destruct ((0 <? us / 86400000000) && (us / 86400000000 <=? MAXORDINAL))
      eqn:E2; [|reflexivity].
    apply andb_true_iff in E2. unfold MAXORDINAL in E2. lia.
  - cbn [bind]. unfold timedelta_of_microseconds.
    cbn [td_days td_seconds td_microseconds].
    destruct ((0 <? us / 86400000000) && (us / 86400000000 <=? MAXORDINAL));
      [|reflexivity].
    unfold datetime_of_microseconds.
    destruct (ord2ymd (us / 86400000000)) as [[y m] d]. reflexivity.
Qed.

Lemma datetime_sub_closed (a b : datetime) :
  valid_datetime a = true -> valid_datetime b = true ->
  datetime_sub a b =
  Ok (timedelta_of_microseconds
        (datetime_microseconds a - datetime_microseconds b)).
Proof.
  intros Ha Hb. unfold datetime_sub. cbv zeta.
  rewrite timedelta_new_closed. cbv zeta.
  match goal with |- context [Z.abs (?x / _)] => set (us := x) end.
  assert (Hus : us = datetime_microseconds a - datetime_microseconds b).
  { unfold us, datetime_microseconds. lia. }
  assert (Hoa : 1 <= toordinal a <= MAXORDINAL).
  { apply ymd2ord_range. apply valid_datetime_spec in Ha. tauto. }
  assert (Hob : 1 <= toordinal b <= MAXORDINAL).
  { apply ymd2ord_range. apply valid_datetime_spec in Hb. tauto. }
  apply valid_datetime_spec in Ha, Hb.
  destruct (Z.abs (us / 86400000000) >? 999999999) eqn:E.
  - exfalso. unfold MAXORDINAL in *.
    assert (-3652059 <= us / 86400000000 <= 3652059); [|lia].
    unfold us. Z.div_mod_to_equations. lia.
  - rewrite Hus. reflexivity.
Qed.

(** *** [timedelta.total_seconds] *)

(** [td.total_seconds()]: the microseconds of the duration over [10**6], a
    true division of two ints. *)
Definition total_seconds (t : timedelta) : result float :=
  Py.int_truediv (to_microseconds t) 1000000.

Lemma datetime_microseconds_range (t : datetime) :
  valid_datetime t = true -> 0 < datetime_microseconds t < 2 ^ 59.
Proof.
  intros Ht. pose proof Ht as Hf. rewrite valid_datetime_spec in Hf.
  destruct Hf as (Hd & Hh & Hm & Hs & Hu).
  pose proof (ymd2ord_range _ _ _ Hd) as Ho. fold (toordinal t) in Ho.
  unfold datetime_microseconds, MAXORDINAL in *. lia.
Qed.

(** The seconds from [b] to [a], two valid instants: the difference of their
    microseconds over a million, rounded. *)
Lemma total_seconds_sub (a b : datetime) :
  valid_datetime a = true -> valid_datetime b = true ->
  exists td,
    datetime_sub a b = Ok td /\
    total_seconds td =
      Py.int_truediv (datetime_microseconds a - datetime_microseconds b)
                     1000000 /\
    Z.abs (datetime_microseconds a - datetime_microseconds b) < 2 ^ 59.
Proof.
  intros Ha Hb. eexists. split; [apply datetime_sub_closed; assumption|].
  unfold total_seconds. rewrite to_microseconds_of. split; [reflexivity|].
  pose proof (datetime_microseconds_range a Ha).
  pose proof (datetime_microseconds_range b Hb). lia.
Qed.

End Datetime.

(** ** [str.strip] and [str.splitlines]

    The response text is a [string] whose characters are the code points below
    256. *)
Module Str.

Local Open Scope nat_scope.

(** [str.isspace] on one character. *)
Definition is_space (c : ascii) : bool :=
  let n := nat_of_ascii c in
  ((9 <=? n) && (n <=? 13)) || ((28 <=? n) && (n <=? 32))
  || (n =? 133) || (n =? 160).

(** The line boundaries of [str.splitlines]. *)
Definition is_linebreak (c : ascii) : bool :=
  let n := nat_of_ascii c in
  ((10 <=? n) && (n <=? 13)) || ((28 <=? n) && (n <=? 30)) || (n =? 133).

Definition is_cr (c : ascii) : bool := nat_of_ascii c =? 13.
Definition is_lf (c : ascii) : bool := nat_of_ascii c =? 10.

Fixpoint lstrip (s : string) : string :=
  match s with
  | EmptyString => EmptyString
  | String c s' => if is_space c then lstrip s' else s
  end.

Fixpoint rstrip (s : string) : string :=
  match s with
  | EmptyString => EmptyString
  | String c s' =>
      match rstrip s' with
      | EmptyString => if is_space c then EmptyString else String c EmptyString
      | r => String c r
      end
  end.

Definition strip (s : string) : string := rstrip (lstrip s).

(** [cur] is the line being read, [pending] whether it has a character,
    [after_cr] whether the previous character was a carriage return. *)
Fixpoint splitlines_go (cur : string) (pending after_cr : bool) (s : string)
  : list string :=
  match s with
  | EmptyString => if pending then [cur] else []
  | String c s' =>
      if after_cr && is_lf c then splitlines_go EmptyString false false s'
      else if is_linebreak c then
        cur :: splitlines_go EmptyString false (is_cr c) s'
      else splitlines_go (cur ++ String c EmptyString) true false s'
  end.

Definition splitlines (s : string) : list string :=
  splitlines_go EmptyString false false s.

(** *** Facts about [strip] and [splitlines] *)

Local Open Scope string_scope.

(** All the characters of [s] satisfy [p]. *)
Fixpoint all_chars (p : ascii -> bool) (s : string) : bool :=
  match s with
  | EmptyString => true
  | String c s' => p c && all_chars p s'
  end.

(** [s] has no line boundary inside. *)
Definition no_linebreak (s : string) : bool :=
  all_chars (fun c => negb (is_linebreak c)) s.

(** [s] is empty or starts with a character that is not whitespace. *)
Definition no_leading_space (s : string) : bool :=
  match s with
  | EmptyString => true
  | String c _ => negb (is_space c)
  end.

Lemma append_nil_r (s : string) : s ++ "" = s.
Proof. induction s as [|c s IH]; simpl; congruence. Qed.

Lemma append_assoc (a b c : string) : (a ++ b) ++ c = a ++ (b ++ c).
Proof. induction a as [|x a IH]; simpl; congruence. Qed.

Lemma all_chars_app (p : ascii -> bool) (a b : string) :
  all_chars p (a ++ b) = all_chars p a && all_chars p b.
Proof.
  induction a as [|x a IH]; simpl; [reflexivity|].
  rewrite IH, andb_assoc. reflexivity.
Qed.

Lemma is_linebreak_space (c : ascii) : is_linebreak c = true -> is_space c = true.
Proof.
  unfold is_linebreak, is_space. generalize (nat_of_ascii c). intros n.
  rewrite !orb_true_iff, !andb_true_iff, !Nat.leb_le, !Nat.eqb_eq. lia.
Qed.

(** *** [strip] *)

Lemma lstrip_no_leading_space (s : string) : no_leading_space (lstrip s) = true.
Proof.
  induction s as [|c s IH]; simpl; [reflexivity|].
  destruct (is_space c) eqn:E; [exact IH|]. simpl. rewrite E. reflexivity.
Qed.

Lemma lstrip_id (s : string) : no_leading_space s = true -> lstrip s = s.
Proof.
  destruct s as [|c s]; simpl; [reflexivity|].
  intros H. apply negb_true_iff in H. rewrite H. reflexivity.
Qed.

Lemma rstrip_cons (c : ascii) (s : string) :
  is_space c = false -> rstrip (String c s) = String c (rstrip s).
Proof. intros H. simpl. destruct (rstrip s); [rewrite H|]; reflexivity. Qed.

Lemma rstrip_no_leading_space (s : string) :
  no_leading_space s = true -> no_leading_space (rstrip s) = true.
Proof.
  destruct s as [|c s]; [reflexivity|]. cbn [no_leading_space].
  intros H. apply negb_true_iff in H. rewrite (rstrip_cons _ _ H).
  simpl. rewrite H. reflexivity.
Qed.

Lemma rstrip_idem (s : string) : rstrip (rstrip s) = rstrip s.
Proof.
  induction s as [|c s IH]; [reflexivity|]. simpl.
  destruct (rstrip s) as [|c' r] eqn:E.
  - destruct (is_space c) eqn:Ec; [reflexivity|]. simpl. rewrite Ec. reflexivity.
  - change (rstrip (String c (String c' r))) with
      (match rstrip (String c' r) with
       | EmptyString => if is_space c then EmptyString else String c EmptyString
       | r0 => String c r0
       end).
    rewrite IH. reflexivity.
Qed.

Lemma strip_idem (s : string) : strip (strip s) = strip s.
Proof.
  unfold strip.
  rewrite (lstrip_id (rstrip (lstrip s))).
  - apply rstrip_idem.
  - apply rstrip_no_leading_space, lstrip_no_leading_space.
Qed.

Lemma strip_no_leading_space (s : string) : no_leading_space (strip s) = true.
Proof. apply rstrip_no_leading_space, lstrip_no_leading_space. Qed.

Lemma all_chars_lstrip (p : ascii -> bool) (s : string) :
  all_chars p s = true -> all_chars p (lstrip s) = true.
Proof.
  induction s as [|c s IH]; simpl; [auto|].
  intros H. apply andb_true_iff in H. destruct H as [Hc Hs].
  destruct (is_space c); [auto|]. simpl. rewrite Hc, Hs. reflexivity.
Qed.

Lemma all_chars_rstrip (p : ascii -> bool) (s : string) :
  all_chars p s = true -> all_chars p (rstrip s) = true.
Proof.
  induction s as [|c s IH]; simpl; [auto|].
  intros H. apply andb_true_iff in H. destruct H as [Hc Hs].
  specialize (IH Hs).
  destruct (rstrip s) as [|c' r].
  - destruct (is_space c); simpl; [reflexivity|]. rewrite Hc. reflexivity.
  - simpl in *. rewrite Hc, IH. reflexivity.
Qed.

Lemma all_chars_strip (p : ascii -> bool) (s : string) :
  all_chars p s = true -> all_chars p (strip s) = true.
Proof. intros H. apply all_chars_rstrip, all_chars_lstrip, H. Qed.

(** A string that starts with a character that is not whitespace is not
    emptied by [strip]. *)
Lemma strip_cons_nonempty (c : ascii) (s : string) :
  is_space c = false -> strip (String c s) <> "".
Proof.
  intros H. unfold strip. simpl lstrip. rewrite H.
  rewrite (rstrip_cons _ _ H). discriminate.
Qed.

(** *** [splitlines] *)

Lemma splitlines_go_lines (s cur : string) (pending after_cr : bool) :
  no_linebreak cur = true ->
  Forall (fun l => no_linebreak l = true) (splitlines_go cur pending after_cr s).
Proof.
  revert cur pending after_cr.
  induction s as [|c s IH]; intros cur pending after_cr Hcur; simpl.
  - destruct pending; repeat constructor. exact Hcur.
  - destruct (after_cr && is_lf c); [apply IH; reflexivity|].
    destruct (is_linebreak c) eqn:E.
    + constructor; [exact Hcur | apply IH; reflexivity].
    + apply IH. unfold no_linebreak in *. rewrite all_chars_app, Hcur.
      simpl. rewrite E. reflexivity.
Qed.

Lemma splitlines_lines (s : string) :
  Forall (fun l => no_linebreak l = true) (splitlines s).
Proof. apply splitlines_go_lines. reflexivity. Qed.

(** While a line is being read, what was read is the beginning of the next
    line returned. *)
Lemma splitlines_go_pending (s cur : string) :
  exists rest ls, splitlines_go cur true false s = (cur ++ rest) :: ls.
Proof.
  revert cur. induction s as [|c s IH]; intros cur; simpl.
  - exists "", []. rewrite append_nil_r. reflexivity.
  - destruct (is_linebreak c).
    + exists "". eexists. rewrite append_nil_r. reflexivity.
    + destruct (IH (cur ++ String c "")) as (rest & ls & ->).
      exists (String c rest), ls. rewrite append_assoc. reflexivity.
Qed.

(** A text that starts with a character that is no line boundary: that
    character starts the first line. *)
Lemma splitlines_cons (c : ascii) (s : string) :
  is_linebreak c = false ->
  exists rest ls, splitlines (String c s) = String c rest :: ls.
Proof.
  intros H. unfold splitlines. simpl. rewrite H.
  apply (splitlines_go_pending s (String c "")).
Qed.

Lemma is_linebreak_lf (c : ascii) : is_lf c = true -> is_linebreak c = true.
Proof.
  unfold is_lf, is_linebreak. intros H. apply Nat.eqb_eq in H. rewrite H.
  reflexivity.
Qed.

(** Reading a line with no boundary inside. *)
Lemma splitlines_go_line (l cur rest : string) (pending after_cr : bool) :
  no_linebreak l = true -> l <> "" ->
  splitlines_go cur pending after_cr (l ++ rest) =
  splitlines_go (cur ++ l) true false rest.
Proof.
  revert cur pending after_cr.
  induction l as [|c l IH]; intros cur pending after_cr Hl Hne; [congruence|].
  unfold no_linebreak in Hl. simpl in Hl. apply andb_true_iff in Hl.
  destruct Hl as [Hc Hl]. apply negb_true_iff in Hc.
  cbn [append splitlines_go].
  assert (Hlf : is_lf c = false).
  { destruct (is_lf c) eqn:E; [|reflexivity].
    apply is_linebreak_lf in E. congruence. }
  rewrite Hlf, andb_false_r, Hc.
  destruct l as [|c' l'].
  - reflexivity.
  - rewrite IH by (auto; discriminate). rewrite append_assoc. reflexivity.
Qed.

(** The line ends a reply may use. *)
Definition LF : string := String (ascii_of_nat 10) "".
Definition CR : string := String (ascii_of_nat 13) "".
Definition CRLF : string := String (ascii_of_nat 13) LF.

Definition is_line_end (sep : string) : Prop :=
  sep = LF \/ sep = CRLF \/ sep = CR.

(** The text made of the lines [ls], each followed by [sep]. *)
Fixpoint terminated (sep : string) (ls : list string) : string :=
  match ls with
  | [] => ""
  | l :: ls' => l ++ sep ++ terminated sep ls'
  end.

(** Reading a line end after a line (when a carriage return came just before,
    the line end is not a line feed). *)
Lemma splitlines_go_line_end (sep cur rest : string) (pending after_cr : bool) :
  is_line_end sep -> (after_cr = true -> sep = CR) ->
  exists after_cr',
    (after_cr' = true -> sep = CR) /\
    splitlines_go cur pending after_cr (sep ++ rest) =
    cur :: splitlines_go "" false after_cr' rest.
Proof.
  intros Hsep Hcr.
  assert (Hac : sep = CR \/ after_cr = false).
  { destruct after_cr; auto. }
  destruct Hsep as [->|[->| ->]].
  - exists false. split; [discriminate|].
    destruct Hac as [Hac| ->]; [discriminate Hac | reflexivity].
  - exists false. split; [discriminate|].
    destruct Hac as [Hac| ->]; [discriminate Hac|].
    reflexivity.
  - exists true. split; [reflexivity|].
    destruct after_cr; reflexivity.
Qed.

Lemma splitlines_go_terminated (sep : string) (ls : list string)
    (after_cr : bool) :
  is_line_end sep -> (after_cr = true -> sep = CR) ->
  Forall (fun l => no_linebreak l = true) ls ->
  splitlines_go "" false after_cr (terminated sep ls) = ls.
Proof.
  intros Hsep Hcr Hls. revert after_cr Hcr.
  induction Hls as [|l ls Hl Hls IH]; intros after_cr Hcr; [reflexivity|].
  cbn [terminated].
  destruct l as [|c l].
  - cbn [append].
    destruct (splitlines_go_line_end sep "" (terminated sep ls) false after_cr
                Hsep Hcr) as (ac & Hac & ->).
    rewrite IH by exact Hac. reflexivity.
  - rewrite (splitlines_go_line (String c l) "" _ false after_cr Hl)
      by discriminate.
    cbn [append].
    destruct (splitlines_go_line_end sep (String c l) (terminated sep ls)
                true false Hsep ltac:(discriminate)) as (ac & Hac & ->).
    rewrite IH by exact Hac. reflexivity.
Qed.

Lemma splitlines_go_terminated_app (sep tail : string) (ls : list string)
    (after_cr : bool) :
  is_line_end sep -> (after_cr = true -> sep = CR) ->
  Forall (fun l => no_linebreak l = true) ls ->
  exists after_cr',
    (after_cr' = true -> sep = CR) /\
    splitlines_go "" false after_cr (terminated sep ls ++ tail) =
    (ls ++ splitlines_go "" false after_cr' tail)%list.
Proof.
  intros Hsep Hcr Hls. revert after_cr Hcr.
  induction Hls as [|l ls Hl Hls IH]; intros after_cr Hcr.
  - exists after_cr. split; [exact Hcr | reflexivity].
  - cbn [terminated]. rewrite !append_assoc.
    destruct l as [|c l].
    + cbn [append].
      destruct (splitlines_go_line_end sep "" (terminated sep ls ++ tail)
                  false after_cr Hsep Hcr) as (ac & Hac & ->).
      destruct (IH ac Hac) as (ac' & Hac' & ->).
      exists ac'. split; [exact Hac' | reflexivity].
    + rewrite (splitlines_go_line (String c l) "" _ false after_cr Hl)
        by discriminate.
      cbn [append].
      destruct (splitlines_go_line_end sep (String c l)
                  (terminated sep ls ++ tail)
                  true false Hsep ltac:(discriminate)) as (ac & Hac & ->).
      destruct (IH ac Hac) as (ac' & Hac' & ->).
      exists ac'. split; [exact Hac' | reflexivity].
Qed.

Lemma rstrip_spaces (w : string) : all_chars is_space w = true -> rstrip w = "".
Proof.
  induction w as [|c w IH]; simpl; [reflexivity|].
  intros H. apply andb_true_iff in H. destruct H as [Hc Hw].
  rewrite (IH Hw), Hc. reflexivity.
Qed.

Lemma rstrip_app_spaces (x w : string) :
  all_chars is_space w = true -> rstrip (x ++ w) = rstrip x.
Proof.
  intros Hw. induction x as [|c x IH]; simpl.
  - apply rstrip_spaces, Hw.
  - rewrite IH. reflexivity.
Qed.

Lemma rstrip_app_keep (x y : string) :
  rstrip y <> "" -> rstrip (x ++ y) = x ++ rstrip y.
Proof.
  intros Hy. induction x as [|c x IH]; simpl; [reflexivity|].
  rewrite IH. destruct (x ++ rstrip y) eqn:E; [|reflexivity].
  destruct x; simpl in E; [contradiction | discriminate].
Qed.

Lemma line_end_spaces (sep : string) :
  is_line_end sep -> all_chars is_space sep = true.
Proof. intros [->|[->| ->]]; reflexivity. Qed.

Lemma strip_rstrip (s : string) : strip s = s -> rstrip s = s.
Proof. intros H. rewrite <- H at 1. unfold strip. rewrite rstrip_idem. exact H. Qed.

Lemma strip_lstrip (s : string) : strip s = s -> no_leading_space s = true.
Proof. intros H. rewrite <- H. apply strip_no_leading_space. Qed.


(** The lines of a text in which every line is ended by the same line end
    are the lines that were joined. *)
Lemma splitlines_terminated_lines (sep : string) (ls : list string) :
  is_line_end sep -> Forall (fun l => no_linebreak l = true) ls ->
  splitlines (terminated sep ls) = ls.
Proof.
  intros Hsep Hls. apply splitlines_go_terminated; auto. discriminate.
Qed.

Lemma terminated_app (sep : string) (ls ls' : list string) :
  terminated sep (ls ++ ls') = terminated sep ls ++ terminated sep ls'.
Proof.
  induction ls as [|l ls IH]; cbn [terminated app]; [reflexivity|].
  rewrite IH, !append_assoc. reflexivity.
Qed.

(** A text whose lines are stripped and end with the same line end, the first
    and the last of them not empty: [strip] removes the last line end only,
    and [splitlines] gives the lines back. *)
Lemma splitlines_strip_terminated (sep : string) (ls : list string) :
  is_line_end sep ->
  Forall (fun l => strip l = l /\ no_linebreak l = true) ls ->
  hd "" ls <> "" -> last ls "" <> "" ->
  splitlines (strip (terminated sep ls)) = ls.
Proof.
  intros Hsep Hls Hhd Hlast.
  assert (Hne : ls <> []) by (intros ->; apply Hhd; reflexivity).
  rewrite (app_removelast_last "" Hne) in Hls |- * .
  remember (removelast ls) as init eqn:Einit.
  set (l := last ls "") in *.
  apply Forall_app in Hls. destruct Hls as [Hinit Hl].
  apply Forall_inv in Hl. destruct Hl as [Hs Hn].
  assert (Hstrip : strip (terminated sep (init ++ [l])) =
                   terminated sep init ++ l).
  { rewrite terminated_app. cbn [terminated]. rewrite append_nil_r.
    unfold strip. rewrite lstrip_id.
    - rewrite <- !append_assoc.
      rewrite (rstrip_app_spaces _ _ (line_end_spaces _ Hsep)).
      rewrite rstrip_app_keep; rewrite (strip_rstrip _ Hs);
        [reflexivity | exact Hlast].
    - destruct init as [|l0 init'].
      + cbn [terminated append]. destruct l as [|c l']; [congruence|].
        apply strip_lstrip in Hs. exact Hs.
      + cbn [terminated]. 
        assert (Hl0 : l0 <> "").
        { intros ->. apply Hhd.
          destruct ls as [|x [|y ls']]; cbn [removelast] in Einit;
            try discriminate. injection Einit as <- _. reflexivity. }
        pose proof (Forall_inv Hinit) as [Hs0 _].
        destruct l0 as [|c l0']; [congruence|].
        apply strip_lstrip in Hs0. exact Hs0. }
  rewrite Hstrip. unfold splitlines.
  destruct (splitlines_go_terminated_app sep l init false Hsep
              ltac:(discriminate))
    as (ac & Hac & ->).
  { rewrite Forall_forall in *. intros x Hx. apply Hinit, Hx. }
  replace l with (l ++ "") at 1 by apply append_nil_r.
  rewrite (splitlines_go_line l "" "" false ac Hn Hlast).
  reflexivity.
Qed.

End Str.

(** ** The closest approach of two position arrays *)
Module Analysis.

Import Numpy.
Local Open Scope py_scope.

(** The marker recorded when propagation fails. *)
Definition nan3 : vec3 := (nan, nan, nan).

(** A sample is valid when none of its coordinates is NaN. *)
Definition valid (p : vec3) : bool :=
  let '(x, y, z) := p in negb (is_nan x || is_nan y || is_nan z).

(** The separation of two samples as line 73 computes it. *)
Definition dist (a b : vec3) : float := norm3 (vsub a b).

(** A position is in range when each of its coordinates has a magnitude below
    [2^500] km: no separation of two such positions overflows. *)
Definition in_range (p : vec3) : bool :=
  let '(x, y, z) := p in Bounds.small x && Bounds.small y && Bounds.small z.

(** A trajectory is well-formed when each of its samples is either invalid or
    a position in range. *)
Definition well_formed (p : ndarray3) : Prop :=
  Forall (fun s => valid s = true -> in_range s = true) p.

(** Lines 73-75: the index and the value of the least separation. *)
Definition closest_approach (p1 p2 : ndarray3) : result (nat * float) :=
  d <- subtract p1 p2 ;;
  distances <- norm_axis1 d ;;
  min_dist_idx <- nanargmin distances ;;
  Ok (min_dist_idx, nth min_dist_idx distances nan).

(** *** The separations of a pair *)

Lemma dist_invalid_nan (a b : vec3) :
  valid a = false \/ valid b = false -> is_nan (dist a b) = true.
Proof.
  destruct a as [[x1 y1] z1], b as [[x2 y2] z2]. unfold valid, dist. simpl.
  rewrite !negb_false_iff, !orb_true_iff. intros H.
  apply F64.sqrt_nan.
  assert (Hc : is_nan (x1 - x2) = true \/ is_nan (y1 - y2) = true \/
               is_nan (z1 - z2) = true).
  { destruct H as [[[H|H]|H]|[[H|H]|H]];
      [left|right;left|right;right|left|right;left|right;right];
      apply F64.sub_nan; auto. }
  destruct Hc as [Hc|[Hc|Hc]].
  - apply F64.add_nan. left. apply F64.add_nan. left. apply F64.mul_nan. auto.
  - apply F64.add_nan. left. apply F64.add_nan. right. apply F64.mul_nan. auto.
  - apply F64.add_nan. right. apply F64.mul_nan. auto.
Qed.

Lemma subtract_same_length (p1 p2 : ndarray3) :
  length p1 = length p2 -> p1 <> [] -> subtract p1 p2 = Ok (zip_sub p1 p2).
Proof.
  destruct p1 as [|x [|x' p1]], p2 as [|y [|y' p2]]; simpl;
    intros Hlen Hne; try congruence; try discriminate; try reflexivity.
  injection Hlen as Hlen. rewrite Hlen, Nat.eqb_refl. reflexivity.
Qed.

Lemma norm_axis1_nonempty (d : ndarray3) :
  d <> [] -> norm_axis1 d = Ok (map norm3 d).
Proof. destruct d; [congruence | reflexivity]. Qed.

Lemma zip_sub_length (p1 p2 : ndarray3) :
  length p1 = length p2 -> length (zip_sub p1 p2) = length p1.
Proof.
  revert p2. induction p1 as [|x p1 IH]; intros [|y p2] H; simpl in *;
    try discriminate; auto.
Qed.

Lemma nth_error_distances (p1 p2 : ndarray3) (i : nat) :
  nth_error (map norm3 (zip_sub p1 p2)) i =
  match nth_error p1 i, nth_error p2 i with
  | Some a, Some b => Some (dist a b)
  | _, _ => None
  end.
Proof.
  revert p2 i. induction p1 as [|x p1 IH]; intros [|y p2] [|i]; simpl; auto.
  - destruct (nth_error p1 i); reflexivity.
Qed.

Lemma nth_distances (p1 p2 : ndarray3) (i : nat) (a b : vec3) :
  nth_error p1 i = Some a -> nth_error p2 i = Some b ->
  nth i (map norm3 (zip_sub p1 p2)) nan = dist a b.
Proof.
  intros Ha Hb. apply nth_error_nth.
  rewrite nth_error_distances, Ha, Hb. reflexivity.
Qed.

(** The separation of two positions in range is a finite number. *)
Lemma dist_finite (a b : vec3) :
  in_range a = true -> in_range b = true ->
  (dist a b <? infinity)%float = true.
Proof.
  destruct a as [[x1 y1] z1], b as [[x2 y2] z2]. unfold in_range.
  rewrite !andb_true_iff. intros [[Hx1 Hy1] Hz1] [[Hx2 Hy2] Hz2].
  destruct (Bounds.square_diff_bound x1 x2 Hx1 Hx2) as [Bx Sx].
  destruct (Bounds.square_diff_bound y1 y2 Hy1 Hy2) as [By Sy].
  destruct (Bounds.square_diff_bound z1 z2 Hz1 Hz2) as [Bz Sz].
  unfold dist, norm3, vsub.
  set (sx := ((x1 - x2) * (x1 - x2))%float) in *.
  set (sy := ((y1 - y2) * (y1 - y2))%float) in *.
  set (sz := ((z1 - z2) * (z1 - z2))%float) in *.
  assert (H1 : Bounds.bnd 1007 (Prim2SF (sx + sy)%float) /\
               F64.sign_is false (Prim2SF (sx + sy)%float)).
  { rewrite add_spec.
    apply (Bounds.SF64add_bound _ _ 1005); try apply Prim2SF_valid; auto.
    lia. }
  destruct H1 as [B1 S1].
  assert (H2 : Bounds.bnd 1009 (Prim2SF (sx + sy + sz)%float) /\
               F64.sign_is false (Prim2SF (sx + sy + sz)%float)).
  { rewrite add_spec.
    apply (Bounds.SF64add_bound _ _ 1007); try apply Prim2SF_valid; auto;
      try lia.
    apply Bounds.bnd_weaken with 1005%Z; [exact Bz | lia]. }
  destruct H2 as [B2 S2].
  apply Bounds.bnd_ltb_infinity with 1023%Z. rewrite sqrt_spec.
  apply (Bounds.SF64sqrt_bound _ 1009); try apply Prim2SF_valid; auto. lia.
Qed.

Lemma well_formed_separations_finite (p1 p2 : ndarray3) :
  well_formed p1 -> well_formed p2 ->
  forall i a b, nth_error p1 i = Some a -> nth_error p2 i = Some b ->
                valid a = true -> valid b = true ->
                (dist a b <? infinity)%float = true.
Proof.
  unfold well_formed. rewrite !Forall_forall.
  intros H1 H2 i a b Ha Hb Hva Hvb.
  apply dist_finite; [apply H1 | apply H2]; auto;
    eapply nth_error_In; eassumption.
Qed.

(** What lines 73-75 return for two position arrays of the same shape, when
    the separations at the mutually valid indices are below [+inf] and there is
    such an index. *)
Lemma closest_approach_spec (p1 p2 : ndarray3) (i0 : nat) (a0 b0 : vec3) :
  length p1 = length p2 ->
  (forall i a b, nth_error p1 i = Some a -> nth_error p2 i = Some b ->
                 valid a = true -> valid b = true ->
                 (dist a b <? infinity)%float = true) ->
  nth_error p1 i0 = Some a0 -> nth_error p2 i0 = Some b0 ->
  valid a0 = true -> valid b0 = true ->
  exists k a b,
    closest_approach p1 p2 = Ok (k, dist a b) /\
    nth_error p1 k = Some a /\ nth_error p2 k = Some b /\
    valid a = true /\ valid b = true /\
    (forall i a' b', nth_error p1 i = Some a' -> nth_error p2 i = Some b' ->
                     valid a' = true -> valid b' = true ->
                     (dist a b <=? dist a' b')%float = true) /\
    (forall i a' b', (i < k)%nat ->
                     nth_error p1 i = Some a' -> nth_error p2 i = Some b' ->
                     valid a' = true -> valid b' = true ->
                     (dist a b <? dist a' b')%float = true).
Proof.
  intros Hlen Hfin Ha0 Hb0 Hva0 Hvb0.
  assert (Hne : p1 <> []) by (intros ->; destruct i0; discriminate).
  set (ds := map norm3 (zip_sub p1 p2)).
  assert (Hds : length ds = length p1).
  { unfold ds. rewrite length_map. apply zip_sub_length, Hlen. }
  assert (Hi0 : (i0 < length ds)%nat).
  { rewrite Hds. apply nth_error_Some. congruence. }
  assert (Hd0 : (nth i0 ds nan <? infinity)%float = true).
  { unfold ds. rewrite (nth_distances _ _ _ _ _ Ha0 Hb0). eauto. }
  destruct (nanargmin_first_min ds i0 Hi0 Hd0)
    as (k & Hk & Hklen & Hkn & Hle & Hlt).
  assert (Hk1 : exists a, nth_error p1 k = Some a).
  { destruct (nth_error p1 k) eqn:E; eauto.
    apply nth_error_None in E. lia. }
  assert (Hk2 : exists b, nth_error p2 k = Some b).
  { destruct (nth_error p2 k) eqn:E; eauto.
    apply nth_error_None in E. lia. }
  destruct Hk1 as [a Ha], Hk2 as [b Hb].
  assert (Hdk : nth k ds nan = dist a b) by (apply nth_distances; auto).
  rewrite Hdk in Hkn, Hle, Hlt.
  assert (Hvalid : valid a = true /\ valid b = true).
  { destruct (valid a) eqn:Ea, (valid b) eqn:Eb; auto;
      rewrite dist_invalid_nan in Hkn by auto; discriminate. }
  assert (Hin : forall i a' b',
             nth_error p1 i = Some a' -> nth_error p2 i = Some b' ->
             valid a' = true -> valid b' = true ->
             (i < length ds)%nat /\ nth i ds nan = dist a' b' /\
             is_nan (dist a' b') = false).
  { intros i a' b' Ha' Hb' Hva Hvb. repeat split.
    - rewrite Hds. apply nth_error_Some. congruence.
    - apply nth_distances; auto.
    - apply ltb_infinity_not_nan. eauto. }
  exists k, a, b. repeat split; try tauto.
  - unfold closest_approach.
    rewrite (subtract_same_length _ _ Hlen Hne). simpl.
    rewrite norm_axis1_nonempty.
    + simpl. fold ds. rewrite Hk. simpl. rewrite Hdk. reflexivity.
    + intros Ez. apply (f_equal (@length vec3)) in Ez.
      rewrite zip_sub_length in Ez by exact Hlen.
      destruct p1; [congruence | discriminate].
  - intros i a' b' Ha' Hb' Hva Hvb.
    destruct (Hin i a' b' Ha' Hb' Hva Hvb) as (Hi & Hnth & Hnn).
    rewrite <- Hnth. apply Hle; auto. rewrite Hnth. exact Hnn.
  - intros i a' b' Hik Ha' Hb' Hva Hvb.
    destruct (Hin i a' b' Ha' Hb' Hva Hvb) as (Hi & Hnth & Hnn).
    rewrite <- Hnth. apply Hlt; auto. rewrite Hnth. exact Hnn.
Qed.

Lemma distances_all_nan (p1 p2 : ndarray3) :
  (forall i a b, nth_error p1 i = Some a -> nth_error p2 i = Some b ->
                 valid a = false \/ valid b = false) ->
  forallb is_nan (map norm3 (zip_sub p1 p2)) = true.
Proof.
  revert p2. induction p1 as [|x p1 IH]; intros [|y p2] H; simpl; auto.
  rewrite andb_true_iff. split.
  - apply dist_invalid_nan. apply (H 0%nat); reflexivity.
  - apply IH. intros i a b Ha Hb. apply (H (S i)); assumption.
Qed.

(** Two arrays of the same shape with no mutually valid index: [nanargmin]
    raises. *)
Lemma closest_approach_no_overlap (p1 p2 : ndarray3) :
  length p1 = length p2 -> p1 <> [] ->
  (forall i a b, nth_error p1 i = Some a -> nth_error p2 i = Some b ->
                 valid a = false \/ valid b = false) ->
  closest_approach p1 p2 = Raise ValueError_all_nan.
Proof.
  intros Hlen Hne Hno. unfold closest_approach.
  rewrite (subtract_same_length _ _ Hlen Hne). simpl.
  assert (Hz : zip_sub p1 p2 <> []).
  { intros Ez. apply (f_equal (@length vec3)) in Ez.
    rewrite zip_sub_length in Ez by exact Hlen.
    destruct p1; [congruence | discriminate]. }
  rewrite (norm_axis1_nonempty _ Hz). simpl.
  rewrite nanargmin_all_nan; [reflexivity | | apply distances_all_nan, Hno].
  intros Em. apply map_eq_nil in Em. contradiction.
Qed.

(** Two arrays with different row counts, neither of them a single row: the
    subtraction raises. *)
Lemma closest_approach_grid_mismatch (p1 p2 : ndarray3) :
  length p1 <> length p2 -> length p1 <> 1%nat -> length p2 <> 1%nat ->
  closest_approach p1 p2 = Raise ValueError_broadcast.
Proof.
  intros Hne H1 H2. unfold closest_approach.
  destruct p1 as [|x [|x' p1]], p2 as [|y [|y' p2]]; simpl in *;
    try congruence; try reflexivity.
  destruct (Nat.eqb (length p1) (length p2)) eqn:E; [|reflexivity].
  apply Nat.eqb_eq in E. congruence.
Qed.



(** *** Further facts about the separations *)

Lemma dist_sym (a b : vec3) : dist a b = dist b a.
Proof.
  destruct a as [[x1 y1] z1], b as [[x2 y2] z2]. unfold dist, norm3, vsub.
  rewrite (F64.square_diff_sym x1 x2), (F64.square_diff_sym y1 y2),
    (F64.square_diff_sym z1 z2).
  reflexivity.
Qed.

(** The separations of a pair, lines 73: the subtraction, then the norms. *)
Definition separations (p1 p2 : ndarray3) : result (list float) :=
  d <- subtract p1 p2 ;; norm_axis1 d.

Lemma closest_approach_separations (p1 p2 : ndarray3) :
  closest_approach p1 p2 =
  (ds <- separations p1 p2 ;;
   k <- nanargmin ds ;;
   Ok (k, nth k ds nan)).
Proof.
  unfold closest_approach, separations.
  destruct (subtract p1 p2); reflexivity.
Qed.

Lemma norms_zip_sub_sym (p1 p2 : ndarray3) :
  map norm3 (zip_sub p1 p2) = map norm3 (zip_sub p2 p1).
Proof.
  revert p2. induction p1 as [|x p1 IH]; intros [|y p2]; simpl; auto.
  rewrite IH. f_equal. apply dist_sym.
Qed.

Lemma norms_broadcast_sym (x : vec3) (p : ndarray3) :
  map norm3 (map (vsub x) p) = map norm3 (map (fun y => vsub y x) p).
Proof.
  rewrite !map_map. apply map_ext. intros y. apply dist_sym.
Qed.

Lemma norm3_vsub_sym (x y : vec3) : norm3 (vsub x y) = norm3 (vsub y x).
Proof. apply dist_sym. Qed.

Lemma separations_sym (p1 p2 : ndarray3) :
  separations p1 p2 = separations p2 p1.
Proof.
  unfold separations, subtract.
  destruct p1 as [|x [|x' p1]], p2 as [|y [|y' p2]]; try reflexivity.
  - cbn [bind norm_axis1 map]. rewrite (norm3_vsub_sym x y). reflexivity.
  - cbn [bind norm_axis1 map].
    rewrite (norm3_vsub_sym x y), (norm3_vsub_sym x y').
    f_equal. f_equal. f_equal. apply norms_broadcast_sym.
  - cbn [bind norm_axis1 map].
    rewrite (norm3_vsub_sym x y), (norm3_vsub_sym x' y).
    f_equal. f_equal. f_equal. symmetry. apply norms_broadcast_sym.
  - rewrite (Nat.eqb_sym (length (y :: y' :: p2))).
    destruct (Nat.eqb _ _); [|reflexivity].
    cbn [bind].
    assert (H := norms_zip_sub_sym (x :: x' :: p1) (y :: y' :: p2)).
    cbn [zip_sub norm_axis1] in *. cbn [map] in *. rewrite H. reflexivity.
Qed.

(** The closest approach of a pair does not depend on the order in which the
    two arrays are given. *)
Lemma closest_approach_sym (p1 p2 : ndarray3) :
  closest_approach p1 p2 = closest_approach p2 p1.
Proof.
  rewrite !closest_approach_separations, separations_sym. reflexivity.
Qed.

Lemma closest_approach_ok (p1 p2 : ndarray3) (k : nat) (d : float) :
  closest_approach p1 p2 = Ok (k, d) ->
  exists ds, separations p1 p2 = Ok ds /\ nanargmin ds = Ok k /\
             (k < length ds)%nat /\ d = nth k ds nan.
Proof.
  rewrite closest_approach_separations.
  destruct (separations p1 p2) as [ds|e]; [|discriminate]. cbn [bind].
  destruct (nanargmin ds) as [k'|e] eqn:E; [|discriminate]. cbn [bind].
  intros H. injection H as <- <-.
  exists ds. repeat split; auto. apply nanargmin_bound, E.
Qed.

Lemma separations_same_length (p1 p2 : ndarray3) (ds : list float) :
  length p1 = length p2 -> separations p1 p2 = Ok ds ->
  ds = map norm3 (zip_sub p1 p2) /\ length ds = length p1.
Proof.
  intros Hlen. unfold separations.
  assert (Hcase : p1 = [] \/ p1 <> []) by (destruct p1; [left|right]; congruence).
  destruct Hcase as [->|Hne].
  - destruct p2; discriminate.
  - rewrite (subtract_same_length _ _ Hlen Hne). cbn [bind].
    assert (Hz : zip_sub p1 p2 <> []).
    { intros Ez. apply (f_equal (@length vec3)) in Ez.
      rewrite zip_sub_length in Ez by exact Hlen.
      destruct p1; [congruence | discriminate]. }
    rewrite (norm_axis1_nonempty _ Hz).
    intros H. injection H as <-. split; [reflexivity|].
    rewrite length_map. apply zip_sub_length, Hlen.
Qed.

Lemma norm3_not_negative (v : vec3) : (norm3 v <? 0)%float = false.
Proof. destruct v as [[x y] z]. apply F64.sqrt_not_negative. Qed.

Lemma separations_not_negative (p1 p2 : ndarray3) (ds : list float) :
  separations p1 p2 = Ok ds -> Forall (fun d => (d <? 0)%float = false) ds.
Proof.
  unfold separations.
  destruct (subtract p1 p2) as [d|e]; [|discriminate]. cbn [bind].
  destruct d as [|v d]; [discriminate|]. intros H. injection H as <-.
  apply Forall_forall. intros x Hx.
  change (In x (map norm3 (v :: d))) in Hx. apply in_map_iff in Hx.
  destruct Hx as (v' & <- & _). apply norm3_not_negative.
Qed.

(** A reported distance is never below zero, so with a threshold that is not
    positive nothing is below the threshold. *)
Lemma closest_approach_not_negative (p1 p2 : ndarray3) (k : nat) (d : float) :
  closest_approach p1 p2 = Ok (k, d) ->
  (d <? 0)%float = false /\
  forall thr, (thr <=? 0)%float = true -> (d <? thr)%float = false.
Proof.
  intros H. destruct (closest_approach_ok _ _ _ _ H) as (ds & Hs & _ & Hk & ->).
  assert (Hd : (nth k ds nan <? 0)%float = false).
  { pose proof (separations_not_negative _ _ _ Hs) as HF.
    rewrite Forall_forall in HF. apply HF, nth_In, Hk. }
  split; [exact Hd|].
  intros thr Hthr. destruct (nth k ds nan <? thr)%float eqn:E; [|reflexivity].
  rewrite (F64.ltb_leb_trans _ _ _ E Hthr) in Hd. discriminate.
Qed.

(** The reported distance is below a threshold exactly when the two objects
    are closer than the threshold at some index at which both samples are
    valid. *)
Lemma closest_approach_below_iff (p1 p2 : ndarray3) (k : nat) (d thr : float) :
  length p1 = length p2 ->
  closest_approach p1 p2 = Ok (k, d) ->
  ((d <? thr)%float = true <->
   exists i a b, nth_error p1 i = Some a /\ nth_error p2 i = Some b /\
                 valid a = true /\ valid b = true /\
                 (dist a b <? thr)%float = true).
Proof.
  intros Hlen H.
  destruct (closest_approach_ok _ _ _ _ H) as (ds & Hs & Hmin & Hk & ->).
  destruct (separations_same_length _ _ _ Hlen Hs) as [-> Hds].
  rewrite length_map in Hds.
  split.
  - intros Hlt.
    assert (Hk1 : exists a, nth_error p1 k = Some a).
    { destruct (nth_error p1 k) eqn:E; eauto.
      apply nth_error_None in E. rewrite length_map in Hk. lia. }
    assert (Hk2 : exists b, nth_error p2 k = Some b).
    { destruct (nth_error p2 k) eqn:E; eauto.
      apply nth_error_None in E. rewrite length_map in Hk. lia. }
    destruct Hk1 as [a Ha], Hk2 as [b Hb].
    rewrite (nth_distances _ _ _ _ _ Ha Hb) in Hlt.
    exists k, a, b. repeat split; auto.
    + destruct (valid a) eqn:E; [reflexivity|].
      pose proof (ltb_infinity_not_nan _ (F64.ltb_lt_infinity _ _ Hlt)) as Hn.
      rewrite dist_invalid_nan in Hn by auto. discriminate.
    + destruct (valid b) eqn:E; [reflexivity|].
      pose proof (ltb_infinity_not_nan _ (F64.ltb_lt_infinity _ _ Hlt)) as Hn.
      rewrite dist_invalid_nan in Hn by auto. discriminate.
  - intros (i & a & b & Ha & Hb & _ & _ & Hlt).
    assert (Hi : (i < length (map norm3 (zip_sub p1 p2)))%nat).
    { rewrite length_map, Hds. apply nth_error_Some. congruence. }
    pose proof (nth_distances _ _ _ _ _ Ha Hb) as Hnth.
    destruct (nanargmin_first_min (map norm3 (zip_sub p1 p2)) i Hi)
      as (k' & Hk' & _ & _ & Hle & _).
    { rewrite Hnth. apply F64.ltb_lt_infinity with thr, Hlt. }
    rewrite Hmin in Hk'. injection Hk' as <-.
    specialize (Hle i Hi). rewrite Hnth in Hle.
    apply F64.leb_ltb_trans with (dist a b); [|exact Hlt].
    apply Hle. apply ltb_infinity_not_nan, F64.ltb_lt_infinity with thr, Hlt.
Qed.

Lemma dist_self (a : vec3) : in_range a = true -> dist a a = 0%float.
Proof.
  destruct a as [[x y] z]. unfold in_range. rewrite !andb_true_iff.
  intros [[Hx Hy] Hz]. unfold dist, norm3, vsub.
  rewrite (Bounds.small_sub_self _ Hx), (Bounds.small_sub_self _ Hy), (Bounds.small_sub_self _ Hz).
  reflexivity.
Qed.

(** An array compared with itself: the distance is 0, at the first index
    whose sample is valid. *)
Lemma closest_approach_self (p : ndarray3) (i0 : nat) (a0 : vec3) :
  well_formed p -> nth_error p i0 = Some a0 -> valid a0 = true ->
  exists k a,
    closest_approach p p = Ok (k, 0%float) /\
    nth_error p k = Some a /\ valid a = true /\
    (forall i a', (i < k)%nat -> nth_error p i = Some a' -> valid a' = false).
Proof.
  intros Hw Ha0 Hv0.
  assert (Hself : forall i a, nth_error p i = Some a -> valid a = true ->
                              dist a a = 0%float).
  { intros i a Ha Hv. apply dist_self.
    unfold well_formed in Hw. rewrite Forall_forall in Hw.
    apply Hw; [eapply nth_error_In; eassumption | exact Hv]. }
  destruct (closest_approach_spec p p i0 a0 a0 eq_refl
              (well_formed_separations_finite p p Hw Hw) Ha0 Ha0 Hv0 Hv0)
    as (k & a & b & Hca & Ha & Hb & Hva & Hvb & _ & Hlt).
  assert (b = a) by congruence. subst b.
  rewrite (Hself k a Ha Hva) in Hca, Hlt.
  exists k, a. repeat split; auto.
  intros i a' Hik Ha'. destruct (valid a') eqn:E; [|reflexivity].
  specialize (Hlt i a' a' Hik Ha' Ha' E E).
  rewrite (Hself i a' Ha' E) in Hlt. discriminate.
Qed.

(** ** Worked inputs *)

(** Two arrays on a four-point grid; the first sample of the first one is the
    invalid marker, the separations are NaN, 5, 3, 3. *)
Definition ex_p1 : ndarray3 :=
  [nan3; (5, 0, 0); (0, 3, 0); (0, 0, 3)]%float.
Definition ex_p2 : ndarray3 :=
  [(0, 0, 0); (0, 0, 0); (0, 0, 0); (0, 0, 0)]%float.

Example ex_closest_approach : closest_approach ex_p1 ex_p2 = Ok (2%nat, 3%float).
Proof. vm_compute. reflexivity. Qed.








End Analysis.

(** ** The script [satellite_monitor.py] *)
Module Monitor.

Import Numpy Datetime Analysis.
Local Open Scope py_scope.

(** The outcome of [requests.get(url, timeout=10)]: a [RequestException]
    (connection error, timeout) or a response with its status and text. *)
Inductive http_outcome : Type :=
| RequestException
| Response (status_code : Z) (text : string).

(** An insertion-ordered [dict] with int keys. *)
Definition dict (V : Type) : Type := list (Z * V).

Fixpoint dict_set {V : Type} (d : dict V) (k : Z) (v : V) : dict V :=
  match d with
  | [] => [(k, v)]
  | (k', v') :: d' =>
      if Z.eqb k' k then (k, v) :: d' else (k', v') :: dict_set d' k v
  end.

Definition keys {V : Type} (d : dict V) : list Z := map fst d.

(** An entry of [sats]. *)
Record sat : Type := mk_sat {
  name : string;
  positions : ndarray3
}.

(** An entry of [closest_events]. *)
Record event : Type := mk_event {
  s1 : string;
  s2 : string;
  distance : float;
  time_of_approach : datetime
}.

Inductive category : Type := ALERT | SAFE.

(** A paragraph of the live panel: its category and the fields it shows (the
    countdown text is left out). *)
Record info_line : Type := mk_info_line {
  line_category : category;
  line_s1 : string;
  line_s2 : string;
  line_distance : float
}.

Section Script.

(** The sgp4 library. *)
Variable satrec : Type.
Variable twoline2rv : string -> string -> result satrec.
Variable jday : Z -> Z -> Z -> Z -> Z -> Z -> float * float.
Variable sgp4 : satrec -> float -> float -> Z * vec3 * vec3.

(** The network: the outcome of the GET for a catalogue number. *)
Variable requests_get : Z -> http_outcome.

(** [datetime.utcnow()] when the script starts. *)
Variable start_time : datetime.

(** The configuration constants. *)
Variable NORAD_IDS : list Z.
Variable TIME_WINDOW_HOURS : float.
Variable TIME_STEP_SECONDS : Z.
Variable COLLISION_THRESHOLD_KM : float.

Definition fetch_tle (norad_id : Z) : option (string * string * string) :=
  match requests_get norad_id with
  | RequestException => None
  | Response status_code text =>
      if ((400 <=? status_code) && (status_code <? 600))%Z then None
      else
        match Str.splitlines (Str.strip text) with
        | l0 :: l1 :: l2 :: _ =>
            Some (Str.strip l0, Str.strip l1, Str.strip l2)
        | _ => None
        end
  end.

(** [int(hours * 3600 / step_sec)] *)
Definition num_steps (hours : float) (step_sec : Z) : result Z :=
  step_f <- Py.float_of_int step_sec ;;
  q <- Py.truediv (hours * 3600)%float step_f ;;
  Py.int_of_float q.

(** [start_time + timedelta(seconds=i * step_sec)] *)
Definition grid_time (start : datetime) (step_sec i : Z) : result datetime :=
  td <- timedelta_seconds (i * step_sec) ;;
  datetime_add start td.

(** The Julian date handed to the propagator for the instant [t]. *)
Definition jday_of (t : datetime) : float * float :=
  jday (year t) (month t) (day t) (hour t) (minute t) (second t).

(** The sample recorded for the instant [t]. *)
Definition position_at (satellite : satrec) (t : datetime) : vec3 :=
  let '(jd, fr) := jday_of t in
  let '(error, position, _) := sgp4 satellite jd fr in
  if Z.eqb error 0 then position else nan3.

(** The body of the loop of [propagate_positions]. *)
Definition sample (satellite : satrec) (start : datetime) (step_sec i : Z)
  : result vec3 :=
  current_time <- grid_time start step_sec i ;;
  Ok (position_at satellite current_time).

Definition propagate_positions (line1 line2 : string) (start : datetime)
    (hours : float) (step_sec : Z) : result ndarray3 :=
  satellite <- twoline2rv line1 line2 ;;
  n <- num_steps hours step_sec ;;
  mapM (sample satellite start step_sec) (Py.range n).

(** The loop that fills [sats]; [log] records the requests sent. *)
Fixpoint build_sats (ids : list Z) (sats : dict sat) (log : list Z)
  : result (dict sat) * list Z :=
  match ids with
  | [] => (Ok sats, log)
  | nid :: ids' =>
      let log := log ++ [nid] in
      match fetch_tle nid with
      | None => build_sats ids' sats log
      | Some (nm, line1, line2) =>
          match propagate_positions line1 line2 start_time
                  TIME_WINDOW_HOURS TIME_STEP_SECONDS with
          | Raise e => (Raise e, log)
          | Ok ps => build_sats ids' (dict_set sats nid (mk_sat nm ps)) log
          end
      end
  end.

(** The body of the pair loop, lines 72-83. *)
Definition analyse_pair (a b : Z * sat) : result event :=
  '(min_dist_idx, min_dist_km) <-
    closest_approach (positions (snd a)) (positions (snd b)) ;;
  td <- timedelta_seconds (Z.of_nat min_dist_idx * TIME_STEP_SECONDS) ;;
  toa <- datetime_add start_time td ;;
  Ok (mk_event (name (snd a)) (name (snd b)) min_dist_km toa).

(** The pairs [(ids[i], ids[j])], [i < j], in the order of the two loops. *)
Fixpoint pairs {A : Type} (l : list A) : list (A * A) :=
  match l with
  | [] => []
  | a :: rest => map (fun b => (a, b)) rest ++ pairs rest
  end.

(** Lines 68-83: [sats[ids[i]]] is the i-th entry of the dict. *)
Definition closest_events (sats : dict sat) : result (list event) :=
  mapM (fun p => analyse_pair (fst p) (snd p)) (pairs sats).

(** The whole analysis at load time. *)
Definition run : result (list event) * list Z :=
  match build_sats NORAD_IDS [] [] with
  | (Ok sats, log) => (closest_events sats, log)
  | (Raise e, log) => (Raise e, log)
  end.

(** The classification made by the callback [update_info]. *)
Definition update_info (events : list event) : list info_line :=
  map (fun ev =>
         if (distance ev <? COLLISION_THRESHOLD_KM)%float
         then mk_info_line ALERT (s1 ev) (s2 ev) (distance ev)
         else mk_info_line SAFE (s1 ev) (s2 ev) (distance ev))
      events.

(** *** Predicates of the statements *)

(** The quotient of the window by the step, as line 33 computes it. *)
Definition window_quotient (hours : float) (step_sec : Z) : float :=
  (hours * 3600 / Py.nearest_float step_sec)%float.

(** The sample count in the words of the specification: the floor of the
    exact quotient of the window, [hours] hours as the float holds them, by
    the step (a positive number of seconds). *)
Definition spec_sample_count (hours : float) (step_sec : Z) : option Z :=
  match Prim2SF hours with
  | S754_zero _ => Some 0%Z
  | S754_finite s m e =>
      let w := (cond_Zopp s (Zpos m) * 3600)%Z in
      Some (if (0 <=? e)%Z then (w * 2 ^ e / step_sec)%Z
            else (w / (step_sec * 2 ^ (- e)))%Z)
  | _ => None
  end.

(** A retrieval fails when the request raises, when the status is an HTTP
    error, or when the stripped text has fewer than three lines. *)
Definition retrieval_failed (o : http_outcome) : Prop :=
  match o with
  | RequestException => True
  | Response status_code text =>
      (400 <= status_code < 600)%Z \/
      (length (Str.splitlines (Str.strip text)) < 3)%nat
  end.

(** An entry of [sats] is well-formed when its record was retrieved and its
    positions are the sampler's output for that record. *)
Definition entry_from_fetch (e : Z * sat) : Prop :=
  exists line1 line2,
    fetch_tle (fst e) = Some (name (snd e), line1, line2) /\
    propagate_positions line1 line2 start_time
      TIME_WINDOW_HOURS TIME_STEP_SECONDS = Ok (positions (snd e)).

(** *** Properties *)

Ltac clear_unused := repeat match goal with v : _ |- _ => clear v end.

Lemma analyse_pair_raise (a b : Z * sat) (e : py_exception) :
  closest_approach (positions (snd a)) (positions (snd b)) = Raise e ->
  analyse_pair a b = Raise e.
Proof using. clear_unused. intros H. unfold analyse_pair. rewrite H. reflexivity. Qed.

(** The event of a pair holds the distance returned for the pair, and its
    instant is the grid instant of the returned index. *)
Lemma analyse_pair_ok (a b : Z * sat) (ev : event) :
  analyse_pair a b = Ok ev ->
  exists k,
    closest_approach (positions (snd a)) (positions (snd b)) =
      Ok (k, distance ev) /\
    grid_time start_time TIME_STEP_SECONDS (Z.of_nat k) =
      Ok (time_of_approach ev) /\
    s1 ev = name (snd a) /\ s2 ev = name (snd b).
Proof using.
  clear_unused. unfold analyse_pair, grid_time.
  destruct (closest_approach (positions (snd a)) (positions (snd b)))
    as [[k d]|e]; [|discriminate].
  simpl.
  destruct (timedelta_seconds (Z.of_nat k * TIME_STEP_SECONDS)) as [td|e]
    eqn:Etd; [|discriminate].
  simpl.
  destruct (datetime_add start_time td) as [toa|e] eqn:Eadd; [|discriminate].
  simpl. intros H. injection H as <-. exists k. simpl.
  rewrite Etd. simpl. rewrite Eadd. repeat split; reflexivity.
Qed.

Lemma closest_events_raise (sats : dict sat) (a b : Z * sat)
    (e : py_exception) :
  In (a, b) (pairs sats) -> analyse_pair a b = Raise e ->
  exists e', closest_events sats = Raise e'.
Proof using.
  clear_unused. intros Hin He. unfold closest_events.
  apply mapM_raise with (x := (a, b)) (e := e); assumption.
Qed.

(** *** Retrieval and the dict of satellites *)

Lemma fetch_tle_none_iff (nid : Z) :
  fetch_tle nid = None <-> retrieval_failed (requests_get nid).
Proof using.
  clear_unused. unfold fetch_tle, retrieval_failed.
  destruct (requests_get nid) as [|st text]; [tauto|].
  destruct ((400 <=? st) && (st <? 600))%Z eqn:Est.
  - apply andb_true_iff in Est. destruct Est as [H1 H2].
    apply Z.leb_le in H1. apply Z.ltb_lt in H2.
    split; intros _; [left; split; assumption | reflexivity].
  - assert (Hst : ~ (400 <= st < 600)%Z).
    { intros [H1 H2]. apply Z.leb_le in H1. apply Z.ltb_lt in H2.
      rewrite H1, H2 in Est. discriminate. }
    destruct (Str.splitlines (Str.strip text)) as [|l0 [|l1 [|l2 rest]]];
      simpl; split; intros H; auto; try discriminate;
      destruct H as [H|H]; try contradiction; lia.
Qed.

Lemma keys_dict_set {V : Type} (d : dict V) (k : Z) (v : V) (x : Z) :
  In x (keys (dict_set d k v)) <-> x = k \/ In x (keys d).
Proof using.
  clear_unused. induction d as [|[k' v'] d IH]; simpl.
  - intuition.
  - destruct (Z.eqb_spec k' k) as [->|Hne]; simpl; [intuition|].
    unfold keys in IH. rewrite IH. intuition.
Qed.

Lemma in_dict_set {V : Type} (d : dict V) (k : Z) (v : V) (x : Z * V) :
  In x (dict_set d k v) -> x = (k, v) \/ In x d.
Proof using.
  clear_unused. induction d as [|[k' v'] d IH]; simpl.
  - intuition.
  - destruct (Z.eqb_spec k' k) as [->|Hne]; simpl; intuition.
Qed.


Lemma build_sats_spec (ids : list Z) (sats0 : dict sat) (log0 : list Z) :
  (forall nid nm line1 line2,
     In nid ids -> fetch_tle nid = Some (nm, line1, line2) ->
     is_ok (propagate_positions line1 line2 start_time
              TIME_WINDOW_HOURS TIME_STEP_SECONDS) = true) ->
  Forall entry_from_fetch sats0 ->
  exists sats,
    build_sats ids sats0 log0 = (Ok sats, log0 ++ ids) /\
    Forall entry_from_fetch sats /\
    (forall nid, In nid (keys sats) <->
                 In nid (keys sats0) \/
                 (In nid ids /\ ~ retrieval_failed (requests_get nid))).
Proof using.
  clear_unused. revert sats0 log0.
  induction ids as [|nid ids IH]; intros sats0 log0 Hprop Hwf; simpl.
  - exists sats0. rewrite app_nil_r. repeat split; auto. tauto.
  - assert (Hprop' : forall nid0 nm line1 line2,
               In nid0 ids -> fetch_tle nid0 = Some (nm, line1, line2) ->
               is_ok (propagate_positions line1 line2 start_time
                        TIME_WINDOW_HOURS TIME_STEP_SECONDS) = true).
    { intros. eapply Hprop; [right|]; eassumption. }
    replace (log0 ++ nid :: ids) with ((log0 ++ [nid]) ++ ids)
      by (rewrite <- app_assoc; reflexivity).
    destruct (fetch_tle nid) as [[[nm line1] line2]|] eqn:Ef.
    + specialize (Hprop nid nm line1 line2 (or_introl eq_refl) Ef).
      destruct (propagate_positions line1 line2 start_time
                  TIME_WINDOW_HOURS TIME_STEP_SECONDS) as [ps|e] eqn:Ep;
        [|discriminate].
      destruct (IH (dict_set sats0 nid (mk_sat nm ps)) (log0 ++ [nid]) Hprop')
        as (sats & Hb & Hwf' & Hkeys).
      { rewrite Forall_forall in *. intros x Hx.
        apply in_dict_set in Hx. destruct Hx as [->|Hx]; [|auto].
        exists line1, line2. simpl. auto. }
      exists sats. repeat split; auto.
      * intros Hin. apply Hkeys in Hin. rewrite keys_dict_set in Hin.
        destruct Hin as [[->|Hin]|[Hin Hok]]; auto.
        right. split; [left; reflexivity|].
        rewrite <- fetch_tle_none_iff. congruence.
      * intros Hin. apply Hkeys. rewrite keys_dict_set.
        destruct Hin as [Hin|[[->|Hin] Hok]]; auto.
    + destruct (IH sats0 (log0 ++ [nid]) Hprop' Hwf) as (sats & Hb & Hwf' & Hkeys).
      exists sats. repeat split; auto.
      * intros Hin. apply Hkeys in Hin.
        destruct Hin as [Hin|[Hin Hok]]; auto.
      * intros Hin. apply Hkeys.
        destruct Hin as [Hin|[[->|Hin] Hok]]; auto.
        apply fetch_tle_none_iff in Ef. contradiction.
Qed.


(** C9, as the code has it: no checksum is computed anywhere.  A response is
    accepted exactly when its status is not an HTTP error and its stripped
    text has at least three lines, and the record is then made of the first
    three lines, stripped, whatever their checksum digits are; a missing or
    shorter text gives no record ([None]: the object is skipped), not an
    error; the only errors about a record are those the library's
    [twoline2rv] raises on the two lines, which the sampler passes on. *)
Theorem fetch_tle_accepts_any_three_lines (nid : Z) :
  (retrieval_failed (requests_get nid) -> fetch_tle nid = None) /\
  (forall status_code text l0 l1 l2 rest,
     requests_get nid = Response status_code text ->
     ~ (400 <= status_code < 600)%Z ->
     Str.splitlines (Str.strip text) = l0 :: l1 :: l2 :: rest ->
     fetch_tle nid = Some (Str.strip l0, Str.strip l1, Str.strip l2)) /\
  (forall line1 line2 start hours step_sec e,
     twoline2rv line1 line2 = Raise e ->
     propagate_positions line1 line2 start hours step_sec = Raise e).
Proof using.
  clear_unused. split; [|split].
  - apply fetch_tle_none_iff.
  - intros st text l0 l1 l2 rest Hr Hst Hl. unfold fetch_tle.
    rewrite Hr, Hl.
    destruct ((400 <=? st) && (st <? 600))%Z eqn:Est; [|reflexivity].
    apply andb_true_iff in Est. destruct Est as [H1 H2].
    apply Z.leb_le in H1. apply Z.ltb_lt in H2. lia.
  - intros line1 line2 start hours step_sec e He.
    unfold propagate_positions. rewrite He. reflexivity.
Qed.

(** *** The sampler *)

Lemma Prim2SF_3600 :
  Prim2SF 3600 = S754_finite false 7916483719987200 (-41).
Proof using. vm_compute. reflexivity. Qed.

Lemma num_steps_eq (hours : float) (step_sec : Z) (step_f : float) :
  Py.float_of_int step_sec = Ok step_f -> (step_f =? 0)%float = false ->
  num_steps hours step_sec = Py.int_of_float (hours * 3600 / step_f)%float.
Proof using.
  clear_unused. intros Hf Hz. unfold num_steps, Py.truediv.
  rewrite Hf. simpl. rewrite Hz. reflexivity.
Qed.

(** The sign of the quotient [hours * 3600 / step_f]. *)
Lemma quotient_sign (sh ss : bool) (hours step_f : float) :
  F64.sign_is sh (Prim2SF hours) -> F64.signed ss (Prim2SF step_f) ->
  F64.sign_is (xorb sh ss) (Prim2SF (hours * 3600 / step_f)%float).
Proof using.
  clear_unused. intros Hh Hs. rewrite div_spec, mul_spec.
  apply F64.SF64div_sign; [|exact Hs].
  replace sh with (xorb sh false) by (destruct sh; reflexivity).
  apply F64.SF64mul_sign; [exact Hh|]. rewrite Prim2SF_3600. reflexivity.
Qed.

Lemma sample_ok (satellite : satrec) (start : datetime) (step_sec i : Z)
    (p : vec3) :
  sample satellite start step_sec i = Ok p <->
  exists t, grid_time start step_sec i = Ok t /\ p = position_at satellite t.
Proof using.
  clear_unused. unfold sample.
  destruct (grid_time start step_sec i) as [t|e]; simpl; split.
  - intros H. injection H as <-. eauto.
  - intros (t' & Ht & ->). injection Ht as ->. reflexivity.
  - discriminate.
  - intros (t' & Ht & _). discriminate.
Qed.

Lemma num_steps_zero_step (hours : float) :
  num_steps hours 0 = Raise ZeroDivisionError.
Proof using. reflexivity. Qed.

(** C6, as the code has it: the sampler does not validate its parameters.  A
    zero step raises [ZeroDivisionError] when the sample count is computed,
    before any sample is taken; a non-positive window with a positive step, or
    a negative step with a positive window, is not rejected: when the quotient
    is a finite float the sampler returns the empty array; and a sample raises
    exactly when its grid instant is out of the range of [datetime], whatever
    the propagator reports. *)
Theorem propagate_positions_parameter_handling
    (line1 line2 : string) (start : datetime) (hours : float) (step_sec : Z)
    (satellite : satrec) :
  twoline2rv line1 line2 = Ok satellite ->
  (step_sec = 0%Z ->
   propagate_positions line1 line2 start hours step_sec =
   Raise ZeroDivisionError) /\
  (is_finite (window_quotient hours step_sec) = true ->
   ((hours <=? 0)%float = true /\ (0 < step_sec < 2 ^ 53)%Z) \/
   ((0 <? hours)%float = true /\ (- 2 ^ 53 < step_sec < 0)%Z) ->
   propagate_positions line1 line2 start hours step_sec = Ok []) /\
  (forall i, is_ok (sample satellite start step_sec i) =
             is_ok (grid_time start step_sec i)).
Proof using.
  clear_unused. intros Htle. unfold propagate_positions. rewrite Htle. simpl.
  repeat split.
  - intros ->. rewrite num_steps_zero_step. reflexivity.
  - intros Hfin Hcase.
    assert (Hsign : exists ss,
              Py.float_of_int step_sec = Ok (Py.nearest_float step_sec) /\
              F64.signed ss (Prim2SF (Py.nearest_float step_sec)) /\
              F64.sign_is true (Prim2SF (window_quotient hours step_sec))).
    { destruct Hcase as [[Hh Hs]|[Hh Hs]].
      - destruct (Py.float_of_int_positive step_sec Hs) as (Hf & Hsf).
        exists false. repeat split; auto.
        apply (quotient_sign true false); [|exact Hsf].
        apply F64.nonpositive_sign, Hh.
      - destruct (Py.float_of_int_negative step_sec Hs) as (Hf & Hsf).
        exists true. repeat split; auto.
        apply (quotient_sign false true); [|exact Hsf].
        apply F64.signed_sign_is, F64.positive_signed, Hh. }
    destruct Hsign as (ss & Hf & Hsf & Hq).
    destruct (Py.int_of_float_nonpositive _ Hfin Hq) as (n & Hint & Hn).
    rewrite (num_steps_eq hours step_sec _ Hf);
      [|apply F64.signed_not_zero with ss, Hsf].
    unfold window_quotient in Hint.
    rewrite Hint. simpl. rewrite Py.range_nonpositive by exact Hn. reflexivity.
  - intros i. unfold sample.
    destruct (grid_time start step_sec i); reflexivity.
Qed.

Lemma grid_time_microsecond (start : datetime) (step_sec i : Z) :
  (0 <= microsecond start < 1000000)%Z ->
  grid_time start step_sec i =
  match grid_time (replace_microsecond start 0) step_sec i with
  | Ok r => Ok (replace_microsecond r (microsecond start))
  | Raise e => Raise e
  end.
Proof using.
  clear_unused. intros Hus. unfold grid_time.
  destruct (timedelta_seconds (i * step_sec)) as [td|e] eqn:Etd;
    [|reflexivity].
  simpl. apply datetime_add_microsecond; [exact Hus|].
  apply timedelta_seconds_microseconds with (i * step_sec)%Z, Etd.
Qed.

(** C4, as the code has it: when two position arrays on the same grid have no
    index at which both samples are valid, the analysis of the pair raises the
    all-NaN [ValueError] of [nanargmin]; nothing catches it, so the loop over
    the pairs stops and the run yields no event list. *)
Theorem no_valid_overlap_aborts_run (sats : dict sat) (a b : Z * sat) :
  In (a, b) (pairs sats) ->
  length (positions (snd a)) = length (positions (snd b)) ->
  positions (snd a) <> [] ->
  (forall i x y, nth_error (positions (snd a)) i = Some x ->
                 nth_error (positions (snd b)) i = Some y ->
                 valid x = false \/ valid y = false) ->
  analyse_pair a b = Raise ValueError_all_nan /\
  exists e, closest_events sats = Raise e.
Proof using.
  clear_unused. intros Hin Hlen Hne Hno.
  assert (H : analyse_pair a b = Raise ValueError_all_nan).
  { apply analyse_pair_raise, closest_approach_no_overlap; assumption. }
  split; [exact H | eapply closest_events_raise; eassumption].
Qed.

(** C7, as the code has it: when two position arrays have different sample
    counts, neither of them 1, the subtraction raises the broadcasting
    [ValueError] (no comparison over a common prefix is made); nothing catches
    it, so the loop over the pairs stops and the run yields no event list. *)
Theorem grid_mismatch_aborts_run (sats : dict sat) (a b : Z * sat) :
  In (a, b) (pairs sats) ->
  length (positions (snd a)) <> length (positions (snd b)) ->
  length (positions (snd a)) <> 1%nat ->
  length (positions (snd b)) <> 1%nat ->
  analyse_pair a b = Raise ValueError_broadcast /\
  exists e, closest_events sats = Raise e.
Proof using.
  clear_unused. intros Hin Hne H1 H2.
  assert (H : analyse_pair a b = Raise ValueError_broadcast).
  { apply analyse_pair_raise, closest_approach_grid_mismatch; assumption. }
  split; [exact H | eapply closest_events_raise; eassumption].
Qed.

(** C2: the callback writes one line per event, in order, and the line of an
    event is ALERT exactly when its distance is strictly below the configured
    threshold; a distance equal to the threshold gives SAFE. *)
Theorem update_info_alert_iff_below_threshold (events : list event) :
  Forall2
    (fun ev ln =>
       line_s1 ln = s1 ev /\ line_s2 ln = s2 ev /\
       line_distance ln = distance ev /\
       (line_category ln = ALERT <->
        (distance ev <? COLLISION_THRESHOLD_KM)%float = true) /\
       ((distance ev =? COLLISION_THRESHOLD_KM)%float = true ->
        line_category ln = SAFE))
    events (update_info events).
Proof using.
  induction events as [|ev events IH]; simpl; constructor; auto.
  destruct (distance ev <? COLLISION_THRESHOLD_KM)%float eqn:Hlt; simpl.
  - repeat split; auto.
    intros Heq. rewrite (F64.ltb_not_eqb _ _ Hlt) in Heq. discriminate.
  - repeat split; auto; discriminate.
Qed.

(** *** The time grid *)

(** The grid instant in closed form: the start shifted by [i * step_sec]
    seconds, when that day is in the calendar. *)
Lemma grid_time_closed (start : datetime) (step_sec i : Z) :
  valid_datetime start = true ->
  grid_time start step_sec i =
  let us := (datetime_microseconds start + i * step_sec * 1000000)%Z in
  if ((0 <? us / 86400000000) && (us / 86400000000 <=? MAXORDINAL))%Z
  then Ok (datetime_of_microseconds us)
  else Raise OverflowError.
Proof using.
  clear_unused. intros Hv. unfold grid_time.
  rewrite timedelta_seconds_closed. cbv zeta.
  destruct (datetime_microseconds_fields start Hv) as (Hd & _ & _).
  cbv zeta in Hd.
  assert (Hord : (1 <= toordinal start <= MAXORDINAL)%Z).
  { apply ymd2ord_range. apply valid_datetime_spec in Hv. tauto. }
  set (n := (i * step_sec)%Z). clearbody n.
  destruct (Z.abs (n / 86400) >? 999999999)%Z eqn:E.
  - cbn [bind].
    set (us0 := datetime_microseconds start) in *. clearbody us0.
    destruct ((0 <? (us0 + n * 1000000) / 86400000000) &&
              ((us0 + n * 1000000) / 86400000000 <=? MAXORDINAL))%Z eqn:E2;
      [|reflexivity].
    exfalso. apply andb_true_iff in E2. destruct E2 as [E2 E3].
    apply Z.ltb_lt in E2. apply Z.leb_le in E3. apply Z.gtb_lt in E.
    unfold MAXORDINAL in *. rewrite <- Hd in Hord.
    revert E E2 E3 Hord. Z.div_mod_to_equations. lia.
  - cbn [bind]. rewrite (datetime_add_closed _ _ Hv). cbv zeta.
    rewrite to_microseconds_of. reflexivity.
Qed.

Lemma grid_time_ok (start t : datetime) (step_sec i : Z) :
  valid_datetime start = true ->
  grid_time start step_sec i = Ok t ->
  valid_datetime t = true /\
  datetime_microseconds t =
    (datetime_microseconds start + i * step_sec * 1000000)%Z.
Proof using.
  clear_unused. intros Hv. rewrite (grid_time_closed _ _ _ Hv). cbv zeta.
  set (us := (datetime_microseconds start + i * step_sec * 1000000)%Z).
  destruct ((0 <? us / 86400000000) && (us / 86400000000 <=? MAXORDINAL))%Z
    eqn:E; [|discriminate].
  intros H. injection H as <-.
  apply andb_true_iff in E. destruct E as [E1 E2].
  apply Z.ltb_lt in E1. apply Z.leb_le in E2.
  apply datetime_of_microseconds_valid. lia.
Qed.

Lemma grid_time_zero (start : datetime) (step_sec : Z) :
  valid_datetime start = true -> grid_time start step_sec 0 = Ok start.
Proof using.
  clear_unused. intros Hv. rewrite (grid_time_closed _ _ _ Hv). cbv zeta.
  replace (datetime_microseconds start + 0 * step_sec * 1000000)%Z
    with (datetime_microseconds start) by lia.
  destruct (datetime_microseconds_fields start Hv) as (Hd & _ & _).
  cbv zeta in Hd. rewrite Hd.
  assert (Hord : (1 <= toordinal start <= MAXORDINAL)%Z).
  { apply ymd2ord_range. apply valid_datetime_spec in Hv. tauto. }
  destruct (Z.ltb_spec 0 (toordinal start)); [|lia].
  destruct (Z.leb_spec (toordinal start) MAXORDINAL); [|lia].
  cbn [andb]. rewrite (datetime_of_microseconds_inv _ Hv). reflexivity.
Qed.

(** Subtracting the start from a grid instant gives back the offset. *)
Lemma grid_time_offset (start t : datetime) (step_sec i : Z) :
  valid_datetime start = true ->
  grid_time start step_sec i = Ok t ->
  exists td, timedelta_seconds (i * step_sec) = Ok td /\
             datetime_sub t start = Ok td.
Proof using.
  clear_unused. intros Hv Ht.
  destruct (grid_time_ok _ _ _ _ Hv Ht) as [Hvt Hus].
  rewrite (datetime_sub_closed _ _ Hvt Hv), Hus.
  replace (datetime_microseconds start + i * step_sec * 1000000 -
           datetime_microseconds start)%Z with (i * step_sec * 1000000)%Z
    by lia.
  exists (timedelta_of_microseconds (i * step_sec * 1000000)).
  split; [|reflexivity].
  rewrite timedelta_seconds_closed.
  destruct (Z.abs (i * step_sec / 86400) >? 999999999)%Z eqn:E;
    [|reflexivity].
  exfalso. apply Z.gtb_lt in E.
  destruct (datetime_microseconds_fields start Hv) as (Hd & _ & _).
  destruct (datetime_microseconds_fields t Hvt) as (Hdt & _ & _).
  cbv zeta in Hd, Hdt. rewrite Hus in Hdt.
  assert (Hord : (1 <= toordinal start <= MAXORDINAL)%Z).
  { apply ymd2ord_range. apply valid_datetime_spec in Hv. tauto. }
  assert (Hordt : (1 <= toordinal t <= MAXORDINAL)%Z).
  { apply ymd2ord_range. apply valid_datetime_spec in Hvt. tauto. }
  rewrite <- Hd in Hord. rewrite <- Hdt in Hordt. unfold MAXORDINAL in *.
  set (n := (i * step_sec)%Z) in *. clearbody n.
  set (us0 := datetime_microseconds start) in *. clearbody us0.
  revert E Hord Hordt. Z.div_mod_to_equations. lia.
Qed.

(** The day of a grid instant. *)
Lemma grid_time_day (start : datetime) (step_sec i : Z) :
  valid_datetime start = true ->
  ((datetime_microseconds start + i * step_sec * 1000000) / 86400000000 =
   toordinal start +
   (second start + minute start * 60 + hour start * 3600 + i * step_sec)
   / 86400)%Z.
Proof using.
  clear_unused. intros Hv. unfold datetime_microseconds.
  apply valid_datetime_spec in Hv. destruct Hv as (_ & _ & _ & _ & Hu).
  set (s := (second start + minute start * 60 + hour start * 3600)%Z).
  clearbody s.
  change 86400000000%Z with (1000000 * 86400)%Z.
  rewrite <- Z.div_div by lia.
  replace ((toordinal start * 86400 + s) * 1000000 + microsecond start +
           i * step_sec * 1000000)%Z
    with (microsecond start +
          (toordinal start * 86400 + s + i * step_sec) * 1000000)%Z by lia.
  rewrite Z.div_add by lia. rewrite (Z.div_small (microsecond start)) by lia.
  replace (0 + (toordinal start * 86400 + s + i * step_sec))%Z
    with (s + i * step_sec + toordinal start * 86400)%Z by lia.
  rewrite Z.div_add by lia. lia.
Qed.

(** X1: the sampler can be resumed from any of its grid instants: index [j]
    counted from the instant of index [i] is index [i + j] counted from the
    start, with the same result or the same exception. *)
Theorem grid_time_resume (start t : datetime) (step_sec i j : Z) :
  valid_datetime start = true ->
  grid_time start step_sec i = Ok t ->
  grid_time t step_sec j = grid_time start step_sec (i + j).
Proof using.
  clear_unused. intros Hv Ht.
  destruct (grid_time_ok _ _ _ _ Hv Ht) as [Hvt Hus].
  rewrite (grid_time_closed _ _ _ Hvt), (grid_time_closed _ _ _ Hv).
  cbv zeta. rewrite Hus.
  replace (datetime_microseconds start + i * step_sec * 1000000 +
           j * step_sec * 1000000)%Z
    with (datetime_microseconds start + (i + j) * step_sec * 1000000)%Z
    by lia.
  reflexivity.
Qed.

(** X2: the instant of index [i] exists exactly when its day, the day of the
    start plus the whole days in the seconds since its midnight plus
    [i * step_sec], is a day of the calendar (1 to 3652059); otherwise the
    exception is [OverflowError]. *)
Theorem grid_time_ok_iff (start : datetime) (step_sec i : Z) :
  valid_datetime start = true ->
  (is_ok (grid_time start step_sec i) = true <->
   (1 <= toordinal start +
         (second start + minute start * 60 + hour start * 3600 + i * step_sec)
         / 86400 <= MAXORDINAL)%Z) /\
  (is_ok (grid_time start step_sec i) = false ->
   grid_time start step_sec i = Raise OverflowError).
Proof using.
  clear_unused. intros Hv. rewrite (grid_time_closed _ _ _ Hv). cbv zeta.
  rewrite <- (grid_time_day start step_sec i Hv).
  set (us := (datetime_microseconds start + i * step_sec * 1000000)%Z).
  destruct ((0 <? us / 86400000000) && (us / 86400000000 <=? MAXORDINAL))%Z
    eqn:E; simpl; split; try reflexivity; try discriminate.
  - apply andb_true_iff in E. destruct E as [E1 E2].
    apply Z.ltb_lt in E1. apply Z.leb_le in E2.
    split; [intros _; lia | reflexivity].
  - split; [discriminate|]. intros H.
    destruct (Z.ltb_spec 0 (us / 86400000000)); [|lia].
    destruct (Z.leb_spec (us / 86400000000) MAXORDINAL); [|lia].
    discriminate.
Qed.

(** *** The sampler, continued *)

(** What a returned array is made of. *)
Lemma propagate_positions_inv (line1 line2 : string) (start : datetime)
    (hours : float) (step_sec : Z) (ps : ndarray3) :
  propagate_positions line1 line2 start hours step_sec = Ok ps ->
  exists satellite n,
    twoline2rv line1 line2 = Ok satellite /\
    num_steps hours step_sec = Ok n /\
    length ps = Z.to_nat n /\
    forall i, (i < length ps)%nat ->
      exists t, grid_time start step_sec (Z.of_nat i) = Ok t /\
                nth_error ps i = Some (position_at satellite t).
Proof using.
  clear_unused. unfold propagate_positions.
  destruct (twoline2rv line1 line2) as [satellite|e]; [|discriminate].
  cbn [bind].
  destruct (num_steps hours step_sec) as [n|e]; [|discriminate].
  cbn [bind]. intros H. apply mapM_Forall2 in H.
  assert (Hlen : length ps = Z.to_nat n).
  { rewrite (Forall2_same_length _ _ _ H). apply Py.range_length. }
  exists satellite, n. repeat split; auto.
  intros i Hi.
  destruct (Forall2_nth_error _ _ _ i (Z.of_nat i) H) as (y & Hy & Hs).
  { apply Py.range_nth_error. lia. }
  apply sample_ok in Hs. destruct Hs as (t & Ht & ->).
  exists t. auto.
Qed.

(** Row 0 of a returned array is the sample of the start itself. *)
Lemma propagate_positions_first_row
    (line1 line2 : string) (start : datetime) (hours : float) (step_sec : Z)
    (ps : ndarray3) :
  valid_datetime start = true ->
  propagate_positions line1 line2 start hours step_sec = Ok ps ->
  exists satellite,
    twoline2rv line1 line2 = Ok satellite /\
    (ps <> [] -> nth_error ps 0 = Some (position_at satellite start)).
Proof using.
  clear_unused. intros Hv Hps.
  destruct (propagate_positions_inv _ _ _ _ _ _ Hps)
    as (satellite & n & Htle & _ & _ & Hrows).
  exists satellite. split; [exact Htle|].
  intros Hne. destruct (Hrows 0%nat) as (t & Ht & Hrow).
  { destruct ps; [congruence | simpl; lia]. }
  change (Z.of_nat 0) with 0%Z in Ht.
  rewrite (grid_time_zero _ _ Hv) in Ht. injection Ht as <-. exact Hrow.
Qed.

(** X3: every row of a returned array is the sample of a valid instant of the
    calendar (so the propagator is given a month from 1 to 12, a day of that
    month, an hour below 24, a minute and a second below 60), that instant
    minus the start is [timedelta(seconds=i * step_sec)], and row 0 is the
    sample of the start itself. *)
Theorem propagate_positions_rows_on_grid
    (line1 line2 : string) (start : datetime) (hours : float) (step_sec : Z)
    (ps : ndarray3) :
  valid_datetime start = true ->
  propagate_positions line1 line2 start hours step_sec = Ok ps ->
  exists satellite,
    twoline2rv line1 line2 = Ok satellite /\
    (forall i, (i < length ps)%nat ->
       exists t td,
         nth_error ps i = Some (position_at satellite t) /\
         valid_datetime t = true /\
         timedelta_seconds (Z.of_nat i * step_sec) = Ok td /\
         datetime_sub t start = Ok td) /\
    (ps <> [] -> nth_error ps 0 = Some (position_at satellite start)).
Proof using.
  clear_unused. intros Hv Hps.
  destruct (propagate_positions_inv _ _ _ _ _ _ Hps)
    as (satellite & n & Htle & _ & _ & Hrows).
  exists satellite. split; [exact Htle|]. split.
  - intros i Hi. destruct (Hrows i Hi) as (t & Ht & Hrow).
    destruct (grid_time_offset _ _ _ _ Hv Ht) as (td & Htd & Hsub).
    exists t, td. repeat split; auto.
    apply (grid_time_ok _ _ _ _ Hv Ht).
  - intros Hne. destruct (Hrows 0%nat) as (t & Ht & Hrow).
    { destruct ps; [congruence | simpl; lia]. }
    change (Z.of_nat 0) with 0%Z in Ht.
    rewrite (grid_time_zero _ _ Hv) in Ht. injection Ht as <-. exact Hrow.
Qed.

(** The sample count of a positive window and a positive step. *)
Lemma num_steps_floor (hours : float) (step_sec : Z) :
  (0 < step_sec < 2 ^ 53)%Z ->
  (0 <? hours)%float = true ->
  is_finite (window_quotient hours step_sec) = true ->
  exists n, num_steps hours step_sec = Ok n /\
            Py.floor_float (window_quotient hours step_sec) = Some n /\
            (0 <= n)%Z.
Proof using.
  clear_unused. intros Hstep Hhours Hfin.
  destruct (Py.float_of_int_positive step_sec Hstep) as (Hf & Hsf).
  assert (Hq : F64.sign_is false (Prim2SF (window_quotient hours step_sec))).
  { apply (quotient_sign false false); [|exact Hsf].
    apply F64.signed_sign_is, F64.positive_signed, Hhours. }
  destruct (Py.int_of_float_floor _ Hfin Hq) as (n & Hint & Hfloor & Hn).
  exists n. repeat split; auto.
  rewrite (num_steps_eq hours step_sec _ Hf); [exact Hint|].
  apply F64.signed_not_zero with false, Hsf.
Qed.

(** A grid instant up to a last one whose day is in the calendar exists. *)
Lemma grid_time_in_calendar (start : datetime) (step_sec k n : Z) :
  valid_datetime start = true -> (0 < step_sec)%Z -> (0 <= k < n)%Z ->
  (toordinal start +
   (second start + minute start * 60 + hour start * 3600
    + (n - 1) * step_sec) / 86400 <= MAXORDINAL)%Z ->
  exists t, grid_time start step_sec k = Ok t.
Proof using.
  clear_unused. intros Hv Hstep Hk Hlast.
  assert (Hord : (1 <= toordinal start <= MAXORDINAL)%Z).
  { apply ymd2ord_range. apply valid_datetime_spec in Hv. tauto. }
  rewrite (grid_time_closed _ _ _ Hv). cbv zeta.
  rewrite (grid_time_day start step_sec k Hv).
  set (s := (second start + minute start * 60 + hour start * 3600)%Z) in *.
  assert (Hs : (0 <= s)%Z).
  { apply valid_datetime_spec in Hv. unfold s. lia. }
  assert (H1 : (0 <= (s + k * step_sec) / 86400)%Z).
  { apply Z.div_pos; nia. }
  assert (H2 : ((s + k * step_sec) / 86400 <=
                (s + (n - 1) * step_sec) / 86400)%Z).
  { apply Z.div_le_mono; nia. }
  destruct (Z.ltb_spec 0 (toordinal start + (s + k * step_sec) / 86400));
    [|lia].
  destruct (Z.leb_spec (toordinal start + (s + k * step_sec) / 86400)
                       MAXORDINAL); [|lia].
  cbn [andb]. eauto.
Qed.

(** The rows of a returned array: row [i] is made from the fields, down to
    the second, of the valid instant that lies [i * step_sec] seconds after
    the start. *)
Lemma propagate_positions_rows
    (line1 line2 : string) (start : datetime) (hours : float) (step_sec : Z)
    (satellite : satrec) (ps : ndarray3) :
  valid_datetime start = true ->
  twoline2rv line1 line2 = Ok satellite ->
  propagate_positions line1 line2 start hours step_sec = Ok ps ->
  forall i, (i < length ps)%nat ->
    exists t td,
      valid_datetime t = true /\
      timedelta_seconds (Z.of_nat i * step_sec) = Ok td /\
      datetime_sub t start = Ok td /\
      datetime_microseconds t =
        (datetime_microseconds start + Z.of_nat i * step_sec * 1000000)%Z /\
      nth_error ps i =
        Some (let '(jd, fr) := jday (year t) (month t) (day t)
                                    (hour t) (minute t) (second t) in
              let '(error, position, _) := sgp4 satellite jd fr in
              if (error =? 0)%Z then position else nan3).
Proof using.
  clear_unused. intros Hv Htle Hps i Hi.
  destruct (propagate_positions_inv _ _ _ _ _ _ Hps)
    as (satellite' & n & Htle' & _ & _ & Hrows).
  rewrite Htle in Htle'. injection Htle' as <-.
  destruct (Hrows i Hi) as (t & Ht & Hrow).
  destruct (grid_time_ok _ _ _ _ Hv Ht) as [Hvt Hus].
  destruct (grid_time_offset _ _ _ _ Hv Ht) as (td & Htd & Hsub).
  exists t, td. repeat split; auto.
Qed.

(** C5, as the code has it: the sample count is the floor of the quotient
    [hours * 3600 / step] as line 33 computes it in binary64, not of the exact
    quotient.  For a positive step (below 2^53 seconds) and a positive window
    whose quotient is a finite float, a record the library accepts, a valid
    start and a last grid instant whose day is in the calendar, the sampler
    returns an array with exactly the floor of that quotient many rows; row
    [i] is taken at the valid instant [t] that lies [i * step] seconds after
    the start ([t - start] is [timedelta(seconds=i * step)]): it is the
    position the propagator returns for the Julian date of the fields of [t]
    when its error code is 0, and the NaN triple otherwise.  No index is left
    out. *)
Theorem propagate_positions_samples_every_index
    (line1 line2 : string) (start : datetime) (hours : float) (step_sec : Z)
    (satellite : satrec) :
  twoline2rv line1 line2 = Ok satellite ->
  valid_datetime start = true ->
  (0 < step_sec < 2 ^ 53)%Z ->
  (0 <? hours)%float = true ->
  is_finite (window_quotient hours step_sec) = true ->
  (forall n, Py.floor_float (window_quotient hours step_sec) = Some n ->
     (toordinal start +
      (second start + minute start * 60 + hour start * 3600
       + (n - 1) * step_sec) / 86400 <= MAXORDINAL)%Z) ->
  exists n ps,
    Py.floor_float (window_quotient hours step_sec) = Some n /\ (0 <= n)%Z /\
    propagate_positions line1 line2 start hours step_sec = Ok ps /\
    Z.of_nat (length ps) = n /\
    forall i, (i < length ps)%nat ->
      exists t td,
        valid_datetime t = true /\
        timedelta_seconds (Z.of_nat i * step_sec) = Ok td /\
        datetime_sub t start = Ok td /\
        nth_error ps i =
          Some (let '(jd, fr) := jday (year t) (month t) (day t)
                                      (hour t) (minute t) (second t) in
                let '(error, position, _) := sgp4 satellite jd fr in
                if (error =? 0)%Z then position else nan3).
Proof using.
  clear_unused. intros Htle Hv Hstep Hhours Hfin Hlast.
  destruct (num_steps_floor hours step_sec Hstep Hhours Hfin)
    as (n & Hns & Hfloor & Hn).
  specialize (Hlast n Hfloor).
  destruct (mapM_ok (sample satellite start step_sec) (Py.range n))
    as (ps & Hps & HF).
  { intros x Hx. apply In_nth_error in Hx. destruct Hx as [k Hk].
    assert (Hkn : (k < Z.to_nat n)%nat).
    { rewrite <- Py.range_length. apply nth_error_Some. congruence. }
    rewrite Py.range_nth_error in Hk by exact Hkn. injection Hk as <-.
    destruct (grid_time_in_calendar start step_sec (Z.of_nat k) n Hv)
      as [t Ht]; try lia.
    unfold sample. rewrite Ht. cbn [bind]. eauto. }
  assert (Hpp : propagate_positions line1 line2 start hours step_sec = Ok ps).
  { unfold propagate_positions. rewrite Htle, Hns. cbn [bind]. exact Hps. }
  exists n, ps. split; [exact Hfloor|]. split; [exact Hn|].
  split; [exact Hpp|]. split.
  - rewrite (Forall2_same_length _ _ _ HF), Py.range_length. lia.
  - intros i Hi.
    destruct (propagate_positions_rows _ _ _ _ _ _ _ Hv Htle Hpp i Hi)
      as (t & td & Hvt & Htd & Hsub & _ & Hrow).
    exists t, td. auto.
Qed.

Lemma valid_replace_microsecond (t : datetime) :
  valid_datetime t = true -> valid_datetime (replace_microsecond t 0) = true.
Proof using.
  clear_unused. rewrite !valid_datetime_spec.
  destruct t; unfold replace_microsecond; cbn. intuition lia.
Qed.

(** C10: the Julian date handed to the propagator is built from the fields
    of the grid instant down to the second only.  For a valid start and a
    returned array, row [i] belongs to the valid instant [t] that lies
    [i * step] seconds after the start; [t] has the microsecond of the start;
    the propagator receives [jday] of the year, month, day, hour, minute and
    second of [r], the instant [t] with its microsecond set to 0; [r] is a
    valid instant and [t - r] is [timedelta(microseconds=start.microsecond)],
    below one second and the same at every index; the row is the position the
    propagator returns for that Julian date, or the NaN triple.  So the array
    is the one of the start truncated to the second. *)
Theorem propagator_instant_truncated_to_seconds
    (line1 line2 : string) (satellite : satrec) (start : datetime)
    (hours : float) (step_sec : Z) (ps : ndarray3) :
  valid_datetime start = true ->
  twoline2rv line1 line2 = Ok satellite ->
  propagate_positions line1 line2 start hours step_sec = Ok ps ->
  (forall i, (i < length ps)%nat ->
     exists t td,
       valid_datetime t = true /\
       timedelta_seconds (Z.of_nat i * step_sec) = Ok td /\
       datetime_sub t start = Ok td /\
       microsecond t = microsecond start /\
       let r := replace_microsecond t 0 in
       valid_datetime r = true /\
       microsecond r = 0%Z /\
       datetime_sub t r = Ok (mk_timedelta 0 0 (microsecond start)) /\
       (0 <= microsecond start < 1000000)%Z /\
       nth_error ps i =
         Some (let '(jd, fr) := jday (year r) (month r) (day r)
                                     (hour r) (minute r) (second r) in
               let '(error, position, _) := sgp4 satellite jd fr in
               if (error =? 0)%Z then position else nan3)) /\
  propagate_positions line1 line2 (replace_microsecond start 0) hours step_sec
  = Ok ps.
Proof using.
  clear_unused. intros Hv Htle Hps.
  assert (Hus : (0 <= microsecond start < 1000000)%Z).
  { apply valid_datetime_spec in Hv. lia. }
  split.
  - intros i Hi.
    destruct (propagate_positions_rows _ _ _ _ _ _ _ Hv Htle Hps i Hi)
      as (t & td & Hvt & Htd & Hsub & Hmicro & Hrow).
    assert (Hmt : microsecond t = microsecond start).
    { destruct (datetime_microseconds_fields t Hvt) as (_ & _ & H1).
      destruct (datetime_microseconds_fields start Hv) as (_ & _ & H2).
      cbv zeta in H1, H2. rewrite <- H1, <- H2, Hmicro.
      replace (datetime_microseconds start +
               Z.of_nat i * step_sec * 1000000)%Z
        with (datetime_microseconds start +
              (Z.of_nat i * step_sec) * 1000000)%Z by lia.
      apply Z_mod_plus_full. }
    pose proof (valid_replace_microsecond t Hvt) as Hvr.
    exists t, td. split; [exact Hvt|]. split; [exact Htd|].
    split; [exact Hsub|]. split; [exact Hmt|]. cbv zeta.
    split; [exact Hvr|]. split; [reflexivity|]. split; [|split].
    + rewrite (datetime_sub_closed _ _ Hvt Hvr).
      unfold datetime_microseconds.
      rewrite toordinal_replace_microsecond.
      unfold replace_microsecond. cbn [second minute hour microsecond].
      match goal with
      | |- context [timedelta_of_microseconds ?x] =>
          replace x with (microsecond t) by lia
      end.
      rewrite Hmt. unfold timedelta_of_microseconds.
      rewrite !Z.div_small by lia.
      rewrite (Z.mod_small (microsecond start)) by lia. reflexivity.
    + exact Hus.
    + exact Hrow.
  - rewrite <- Hps. symmetry. unfold propagate_positions.
    destruct (twoline2rv line1 line2) as [sat|e]; [|reflexivity].
    cbn [bind].
    destruct (num_steps hours step_sec) as [n|e]; [|reflexivity].
    cbn [bind]. apply mapM_ext. intros k. unfold sample.
    rewrite (grid_time_microsecond _ _ _ Hus).
    destruct (grid_time (replace_microsecond start 0) step_sec k);
      reflexivity.
Qed.

(** X23: for a window of a whole number [n] of hours and a step of a whole
    number of seconds, the seconds of the window and the step both below
    [2^52], the sample count of line 33 is exactly the floor of the exact
    quotient [n * 3600 / step]: the product is exact and the rounding of the
    quotient does not reach the next whole number.  The count of the code and
    the count in the words of the specification agree there. *)
Theorem whole_hours_sample_count (n step_sec : Z) :
  (1 <= n)%Z -> (n * 3600 < 2 ^ 52)%Z -> (0 < step_sec < 2 ^ 52)%Z ->
  num_steps (Py.nearest_float n) step_sec = Ok (n * 3600 / step_sec)%Z /\
  spec_sample_count (Py.nearest_float n) step_sec =
    Some (n * 3600 / step_sec)%Z.
Proof using.
  clear_unused. intros Hn1 Hn Hstep.
  pose proof (Py.nearest_float_canon n ltac:(lia)) as Hh.
  pose proof (Py.nearest_float_canon step_sec ltac:(lia)) as Hs.
  pose proof (Py.mul_3600_whole _ n Hh Hn1 ltac:(lia)) as Hw.
  pose proof (Rounding.rep_whole n ltac:(lia)) as Rn.
  pose proof (Rounding.rep_whole (n * 3600) ltac:(lia)) as Rw.
  pose proof (Rounding.rep_whole step_sec ltac:(lia)) as Rs.
  split.
  - destruct (Py.float_of_int_positive step_sec ltac:(lia)) as (Hf & Hsf).
    rewrite (num_steps_eq _ step_sec _ Hf)
      by (apply F64.signed_not_zero with false, Hsf).
    destruct (Rounding.canon_units_of false _ Rw)
      as (mW & eW & EW & HdW & HeW & _ & UW).
    destruct (Rounding.canon_units_of false _ Rs)
      as (mS & eS & ES & HdS & HeS & _ & US).
    destruct (Rounding.SF64div_whole mW mS eW eS (n * 3600) step_sec
                HdW HdS ltac:(lia) ltac:(lia) ltac:(lia) ltac:(lia) UW US)
      as (m & e & Hdiv & Hfl).
    unfold Py.int_of_float. rewrite div_spec, Hw, Hs, EW, ES, Hdiv.
    cbn [cond_Zopp]. rewrite Hfl. reflexivity.
  - destruct (Rounding.canon_units_of false _ Rn)
      as (m & e & E & Hd & He & _ & U).
    destruct (Rounding.whole_mantissa m e n Hd ltac:(lia) ltac:(lia) U)
      as (Ee & _ & Em).
    assert (Hd42 : (Zdigits2 n <= 42)%Z).
    { apply Bounds.Zdigits2_le; lia. }
    unfold spec_sample_count. rewrite Hh, E. cbn [cond_Zopp].
    destruct (Z.leb_spec 0 e) as [Hpos|Hneg]; [lia|].
    f_equal. rewrite Em.
    replace (n * 2 ^ (- e) * 3600)%Z with (n * 3600 * 2 ^ (- e))%Z by ring.
    apply Z.div_mul_cancel_r; [lia|].
    pose proof (Rounding.pow2_pos (- e) ltac:(lia)). lia.
Qed.

(** X4: a window whose quotient by the step is not a number, or is infinite
    (a NaN or infinite window, or an overflow of [hours * 3600]), makes the
    sampler raise when the sample count is computed: [ValueError] for NaN,
    [OverflowError] for an infinity. *)
Theorem propagate_positions_count_errors
    (line1 line2 : string) (start : datetime) (hours : float) (step_sec : Z)
    (satellite : satrec) :
  twoline2rv line1 line2 = Ok satellite ->
  step_sec <> 0%Z -> (- 2 ^ 53 < step_sec < 2 ^ 53)%Z ->
  (is_nan (window_quotient hours step_sec) = true ->
   propagate_positions line1 line2 start hours step_sec =
   Raise ValueError_nan) /\
  (is_infinity (window_quotient hours step_sec) = true ->
   propagate_positions line1 line2 start hours step_sec =
   Raise OverflowError).
Proof using.
  clear_unused. intros Htle Hnz Hstep.
  assert (Hns : num_steps hours step_sec =
                Py.int_of_float (window_quotient hours step_sec)).
  { destruct (Z.lt_trichotomy step_sec 0) as [Hneg|[H0|Hpos]]; [|lia|].
    - destruct (Py.float_of_int_negative step_sec ltac:(lia)) as (Hf & Hsf).
      apply (num_steps_eq hours step_sec _ Hf).
      apply F64.signed_not_zero with true, Hsf.
    - destruct (Py.float_of_int_positive step_sec ltac:(lia)) as (Hf & Hsf).
      apply (num_steps_eq hours step_sec _ Hf).
      apply F64.signed_not_zero with false, Hsf. }
  unfold propagate_positions. rewrite Htle, Hns. cbn [bind].
  unfold Py.int_of_float. split.
  - intros H. apply F64.is_nan_Prim2SF in H. rewrite H. reflexivity.
  - intros H. apply F64.is_infinity_Prim2SF in H. destruct H as [s ->].
    reflexivity.
Qed.

(** X5: for a positive window and a positive step with a finite quotient, a
    valid start, and a last grid instant whose day is at most the last day of
    the calendar, the sampler returns an array (it does not raise, whatever
    the propagator reports) with the floor of the quotient many rows. *)
Theorem propagate_positions_in_calendar
    (line1 line2 : string) (start : datetime) (hours : float) (step_sec : Z)
    (satellite : satrec) :
  twoline2rv line1 line2 = Ok satellite ->
  (0 < step_sec < 2 ^ 53)%Z ->
  (0 <? hours)%float = true ->
  is_finite (window_quotient hours step_sec) = true ->
  valid_datetime start = true ->
  (forall n, Py.floor_float (window_quotient hours step_sec) = Some n ->
     (toordinal start +
      (second start + minute start * 60 + hour start * 3600
       + (n - 1) * step_sec) / 86400 <= MAXORDINAL)%Z) ->
  exists n ps,
    Py.floor_float (window_quotient hours step_sec) = Some n /\
    propagate_positions line1 line2 start hours step_sec = Ok ps /\
    Z.of_nat (length ps) = n.
Proof using.
  clear_unused. intros Htle Hstep Hhours Hfin Hv Hlast.
  destruct (num_steps_floor hours step_sec Hstep Hhours Hfin)
    as (n & Hns & Hfloor & Hn).
  specialize (Hlast n Hfloor).
  assert (Hord : (1 <= toordinal start <= MAXORDINAL)%Z).
  { apply ymd2ord_range. apply valid_datetime_spec in Hv. tauto. }
  destruct (mapM_ok (sample satellite start step_sec) (Py.range n))
    as (ps & Hps & HF).
  { intros x Hx. apply In_nth_error in Hx. destruct Hx as [k Hk].
    assert (Hkn : (k < Z.to_nat n)%nat).
    { rewrite <- Py.range_length. apply nth_error_Some. congruence. }
    rewrite Py.range_nth_error in Hk by exact Hkn. injection Hk as <-.
    unfold sample. rewrite (grid_time_closed _ _ _ Hv). cbv zeta.
    rewrite (grid_time_day start step_sec (Z.of_nat k) Hv).
    set (s := (second start + minute start * 60 + hour start * 3600)%Z) in *.
    assert (Hs : (0 <= s)%Z).
    { apply valid_datetime_spec in Hv. unfold s. lia. }
    assert (H1 : (0 <= (s + Z.of_nat k * step_sec) / 86400)%Z).
    { apply Z.div_pos; nia. }
    assert (H2 : ((s + Z.of_nat k * step_sec) / 86400 <=
                  (s + (n - 1) * step_sec) / 86400)%Z).
    { apply Z.div_le_mono; nia. }
    destruct (Z.ltb_spec 0 (toordinal start +
                            (s + Z.of_nat k * step_sec) / 86400)); [|lia].
    destruct (Z.leb_spec (toordinal start +
                          (s + Z.of_nat k * step_sec) / 86400) MAXORDINAL);
      [|lia].
    cbn [andb bind]. eauto. }
  exists n, ps. split; [exact Hfloor|]. split.
  - unfold propagate_positions. rewrite Htle, Hns. cbn [bind]. exact Hps.
  - rewrite (Forall2_same_length _ _ _ HF), Py.range_length. lia.
Qed.

(** *** Retrieval, continued *)

(** X6: every component of a retrieved record is stripped (no whitespace at
    either end) and has no line boundary inside, and the name is not
    empty. *)
Theorem fetch_tle_record_clean (nid : Z) (nm line1 line2 : string) :
  fetch_tle nid = Some (nm, line1, line2) ->
  nm <> ""%string /\
  (Str.strip nm = nm /\ Str.no_linebreak nm = true) /\
  (Str.strip line1 = line1 /\ Str.no_linebreak line1 = true) /\
  (Str.strip line2 = line2 /\ Str.no_linebreak line2 = true).
Proof using.
  clear_unused. unfold fetch_tle.
  destruct (requests_get nid) as [|st text]; [discriminate|].
  destruct ((400 <=? st) && (st <? 600))%Z; [discriminate|].
  pose proof (Str.splitlines_lines (Str.strip text)) as Hlines.
  pose proof (Str.strip_no_leading_space text) as Hlead.
  destruct (Str.splitlines (Str.strip text)) as [|l0 [|l1 [|l2 rest]]] eqn:E;
    try discriminate.
  intros H. injection H as <- <- <-.
  pose proof (Forall_inv Hlines) as H0.
  pose proof (Forall_inv (Forall_inv_tail Hlines)) as H1.
  pose proof (Forall_inv (Forall_inv_tail (Forall_inv_tail Hlines))) as H2.
  cbv beta in H0, H1, H2.
  split.
  - destruct (Str.strip text) as [|c t]; [discriminate E|].
    simpl in Hlead. apply negb_true_iff in Hlead.
    assert (Hlb : Str.is_linebreak c = false).
    { destruct (Str.is_linebreak c) eqn:Ec; [|reflexivity].
      apply Str.is_linebreak_space in Ec. congruence. }
    destruct (Str.splitlines_cons c t Hlb) as (r & ls & Hs).
    rewrite Hs in E. injection E as <- _.
    apply Str.strip_cons_nonempty, Hlead.
  - repeat split; try apply Str.strip_idem; apply Str.all_chars_strip;
      assumption.
Qed.

(** X7: a reply whose status is not an HTTP error and whose text is made of
    at least three lines, each stripped, without a line boundary inside and
    ended by the same line end (LF, CR LF or CR), the first and the last of
    them not empty, gives the record of its first three lines; the further
    lines are ignored. *)
Theorem fetch_tle_well_formed_reply (nid status_code : Z)
    (sep nm line1 line2 : string) (more : list string) :
  requests_get nid =
    Response status_code (Str.terminated sep (nm :: line1 :: line2 :: more)) ->
  ~ (400 <= status_code < 600)%Z ->
  Str.is_line_end sep ->
  Forall (fun l => Str.strip l = l /\ Str.no_linebreak l = true)
         (nm :: line1 :: line2 :: more) ->
  nm <> ""%string -> last (line2 :: more) ""%string <> ""%string ->
  fetch_tle nid = Some (nm, line1, line2).
Proof using.
  clear_unused. intros Hget Hst Hsep Hls Hnm Hlast.
  unfold fetch_tle. rewrite Hget.
  destruct ((400 <=? status_code) && (status_code <? 600))%Z eqn:Est.
  { apply andb_true_iff in Est. destruct Est as [H1 H2].
    apply Z.leb_le in H1. apply Z.ltb_lt in H2. lia. }
  rewrite (Str.splitlines_strip_terminated sep _ Hsep Hls); [|exact Hnm|exact Hlast].
  destruct (Forall_inv Hls) as [-> _].
  destruct (Forall_inv (Forall_inv_tail Hls)) as [-> _].
  destruct (Forall_inv (Forall_inv_tail (Forall_inv_tail Hls))) as [-> _].
  reflexivity.
Qed.

(** *** The dict of satellites, continued *)

(** Whether the retrieval for an identifier gives a record. *)
Definition retrieved (nid : Z) : bool :=
  match fetch_tle nid with Some _ => true | None => false end.

Lemma keys_dict_set_eq {V : Type} (d : dict V) (k : Z) (v : V) :
  keys (dict_set d k v) =
  if existsb (Z.eqb k) (keys d) then keys d else keys d ++ [k].
Proof using.
  clear_unused. induction d as [|[k' v'] d IH]; simpl; [reflexivity|].
  rewrite (Z.eqb_sym k k').
  destruct (Z.eqb_spec k' k) as [->|Hne]; simpl; [reflexivity|].
  fold (keys (dict_set d k v)). rewrite IH.
  destruct (existsb (Z.eqb k) (keys d)); reflexivity.
Qed.

Lemma existsb_eqb_In (k : Z) (l : list Z) :
  existsb (Z.eqb k) l = true <-> In k l.
Proof using.
  clear_unused. rewrite existsb_exists. split.
  - intros (x & Hx & E). apply Z.eqb_eq in E. subst. exact Hx.
  - intros H. exists k. split; [exact H | apply Z.eqb_refl].
Qed.

Lemma NoDup_snoc {A : Type} (l : list A) (x : A) :
  NoDup l -> ~ In x l -> NoDup (l ++ [x]).
Proof using.
  clear_unused. induction l as [|a l IH]; simpl; intros Hnd Hx.
  - constructor; [intros [] | constructor].
  - inversion Hnd; subst. constructor.
    + rewrite in_app_iff. simpl. intuition.
    + apply IH; auto.
Qed.

Lemma build_sats_keys (ids : list Z) (sats0 sats : dict sat)
    (log0 log : list Z) :
  build_sats ids sats0 log0 = (Ok sats, log) ->
  (NoDup (keys sats0) -> NoDup (keys sats)) /\
  (NoDup ids -> (forall nid, In nid ids -> ~ In nid (keys sats0)) ->
   keys sats = keys sats0 ++ filter retrieved ids).
Proof using.
  clear_unused. revert sats0 log0.
  induction ids as [|nid ids IH]; intros sats0 log0.
  - simpl. intros H. injection H as <- <-. rewrite app_nil_r. auto.
  - cbn [build_sats filter]. unfold retrieved at 1.
    destruct (fetch_tle nid) as [[[nm line1] line2]|] eqn:Ef.
    + destruct (propagate_positions line1 line2 start_time
                  TIME_WINDOW_HOURS TIME_STEP_SECONDS) as [ps|e];
        [|discriminate].
      intros H. destruct (IH _ _ H) as [IH1 IH2]. split.
      * intros Hnd. apply IH1. rewrite keys_dict_set_eq.
        destruct (existsb (Z.eqb nid) (keys sats0)) eqn:E; [exact Hnd|].
        apply NoDup_snoc; [exact Hnd|].
        rewrite <- existsb_eqb_In. congruence.
      * intros Hnd Hnew. inversion Hnd as [|? ? Hnin Hnd']; subst.
        rewrite IH2.
        -- rewrite keys_dict_set_eq.
           destruct (existsb (Z.eqb nid) (keys sats0)) eqn:E.
           ++ apply existsb_eqb_In in E. exfalso.
              apply (Hnew nid); [left; reflexivity | exact E].
           ++ rewrite <- app_assoc. reflexivity.
        -- exact Hnd'.
        -- intros x Hx Hin. apply keys_dict_set in Hin.
           destruct Hin as [->|Hin]; [contradiction|].
           apply (Hnew x); [right; exact Hx | exact Hin].
    + intros H. destruct (IH _ _ H) as [IH1 IH2]. split; [exact IH1|].
      intros Hnd Hnew. inversion Hnd; subst. apply IH2; auto.
      intros x Hx. apply Hnew. right. exact Hx.
Qed.

(** X8: the identifiers of [sats] are pairwise distinct, even when an
    identifier is configured twice; and when the configured identifiers are
    distinct, [sats] holds the retrieved ones in their configured order. *)
Theorem build_sats_keys_in_order (sats : dict sat) (log : list Z) :
  build_sats NORAD_IDS [] [] = (Ok sats, log) ->
  NoDup (keys sats) /\
  (NoDup NORAD_IDS -> keys sats = filter retrieved NORAD_IDS).
Proof using.
  clear_unused. intros H. destruct (build_sats_keys _ _ _ _ _ H) as [H1 H2].
  split; [apply H1; constructor|].
  intros Hnd. apply H2; [exact Hnd | intros nid _ []].
Qed.

Lemma build_sats_raise (pre post : list Z) (nid : Z) (nm line1 line2 : string)
    (e : py_exception) (sats0 : dict sat) (log0 : list Z) :
  (forall x nm' l1 l2, In x pre -> fetch_tle x = Some (nm', l1, l2) ->
     is_ok (propagate_positions l1 l2 start_time
              TIME_WINDOW_HOURS TIME_STEP_SECONDS) = true) ->
  fetch_tle nid = Some (nm, line1, line2) ->
  propagate_positions line1 line2 start_time
    TIME_WINDOW_HOURS TIME_STEP_SECONDS = Raise e ->
  build_sats (pre ++ nid :: post) sats0 log0 = (Raise e, log0 ++ pre ++ [nid]).
Proof using.
  clear_unused. intros Hpre Hf Hp. revert sats0 log0.
  induction pre as [|x pre IH]; intros sats0 log0; cbn [app build_sats].
  - rewrite Hf, Hp. reflexivity.
  - replace (log0 ++ x :: pre ++ [nid]) with ((log0 ++ [x]) ++ pre ++ [nid])
      by (rewrite <- app_assoc; reflexivity).
    assert (Hpre' : forall y nm' l1 l2, In y pre ->
              fetch_tle y = Some (nm', l1, l2) ->
              is_ok (propagate_positions l1 l2 start_time
                       TIME_WINDOW_HOURS TIME_STEP_SECONDS) = true).
    { intros. eapply Hpre; [right|]; eassumption. }
    destruct (fetch_tle x) as [[[nm' l1] l2]|] eqn:Ex.
    + specialize (Hpre x nm' l1 l2 (or_introl eq_refl) Ex).
      destruct (propagate_positions l1 l2 start_time
                  TIME_WINDOW_HOURS TIME_STEP_SECONDS); [|discriminate].
      apply IH, Hpre'.
    + apply IH, Hpre'.
Qed.

(** X9: an exception of the sampler for one retrieved record (the library
    rejecting its lines, or a sample count that cannot be computed) is not
    caught: the script stops there, the identifiers configured after it are
    never requested, and no event is computed. *)
Theorem sampler_error_aborts_script (pre post : list Z) (nid : Z)
    (nm line1 line2 : string) (e : py_exception) :
  NORAD_IDS = pre ++ nid :: post ->
  (forall x nm' l1 l2, In x pre -> fetch_tle x = Some (nm', l1, l2) ->
     is_ok (propagate_positions l1 l2 start_time
              TIME_WINDOW_HOURS TIME_STEP_SECONDS) = true) ->
  fetch_tle nid = Some (nm, line1, line2) ->
  propagate_positions line1 line2 start_time
    TIME_WINDOW_HOURS TIME_STEP_SECONDS = Raise e ->
  run = (Raise e, pre ++ [nid]).
Proof using.
  clear_unused. intros Hids Hpre Hf Hp. unfold run. rewrite Hids.
  rewrite (build_sats_raise pre post nid nm line1 line2 e [] [] Hpre Hf Hp).
  reflexivity.
Qed.

(** *** The pair loop, continued *)

Lemma pairs_length {A : Type} (l : list A) :
  (2 * length (pairs l) = length l * (length l - 1))%nat.
Proof using.
  clear_unused. induction l as [|a l IH]; [reflexivity|].
  cbn [pairs]. rewrite length_app, length_map. cbn [length].
  rewrite Nat.mul_add_distr_l, IH. destruct (length l); simpl; lia.
Qed.

(** X10: the pair loop visits the pairs of entries at the positions [i < j]
    of the dict, and nothing else: no entry is paired with itself, and no
    pair is taken in both orders. *)
Theorem pairs_iff {A : Type} (l : list A) (a b : A) :
  In (a, b) (pairs l) <->
  exists i j, (i < j)%nat /\ nth_error l i = Some a /\ nth_error l j = Some b.
Proof using.
  clear_unused. induction l as [|x l IH]; cbn [pairs].
  - split; [contradiction|]. intros (i & j & _ & H & _).
    destruct i; discriminate.
  - rewrite in_app_iff, in_map_iff, IH. split.
    + intros [(y & Hy & Hin)|(i & j & Hij & Hi & Hj)].
      * injection Hy as <- <-. apply In_nth_error in Hin.
        destruct Hin as [j Hj]. exists 0%nat, (S j). repeat split; auto. lia.
      * exists (S i), (S j). repeat split; auto. lia.
    + intros (i & j & Hij & Hi & Hj).
      destruct j as [|j]; [lia|]. cbn [nth_error] in Hj.
      destruct i as [|i].
      * injection Hi as <-. left. exists b. split; [reflexivity|].
        eapply nth_error_In; eassumption.
      * right. exists i, j. repeat split; auto. lia.
Qed.

(** X11: when the pair loop ends, there is exactly one event per pair, in
    the order of the loop: [n * (n - 1) / 2] events for [n] entries, each
    carrying the names of its two entries and the result of their
    analysis. *)
Theorem closest_events_all_pairs (sats : dict sat) (evs : list event) :
  closest_events sats = Ok evs ->
  (2 * length evs = length sats * (length sats - 1))%nat /\
  Forall2 (fun p ev =>
             analyse_pair (fst p) (snd p) = Ok ev /\
             s1 ev = name (snd (fst p)) /\ s2 ev = name (snd (snd p)))
          (pairs sats) evs.
Proof using.
  clear_unused. unfold closest_events. intros H. apply mapM_Forall2 in H.
  split.
  - rewrite (Forall2_same_length _ _ _ H). apply pairs_length.
  - clear - H. induction H as [|p ev ps evs Hp H IH]; constructor; [|exact IH].
    split; [exact Hp|].
    destruct (analyse_pair_ok _ _ _ Hp) as (k & _ & _ & H1 & H2). auto.
Qed.

(** The sampler on a window that is not positive. *)
Lemma propagate_positions_nonpositive_window (line1 line2 : string)
    (start : datetime) (hours : float) (step_sec : Z) (satellite : satrec) :
  twoline2rv line1 line2 = Ok satellite ->
  (hours <=? 0)%float = true -> (0 < step_sec < 2 ^ 53)%Z ->
  is_finite (window_quotient hours step_sec) = true ->
  propagate_positions line1 line2 start hours step_sec = Ok [].
Proof using.
  clear_unused. intros Htle Hh Hs Hfin.
  destruct (Py.float_of_int_positive step_sec Hs) as (Hf & Hsf).
  assert (Hq : F64.sign_is true (Prim2SF (window_quotient hours step_sec))).
  { apply (quotient_sign true false); [|exact Hsf].
    apply F64.nonpositive_sign, Hh. }
  destruct (Py.int_of_float_nonpositive _ Hfin Hq) as (n & Hint & Hn).
  unfold propagate_positions. rewrite Htle. cbn [bind].
  rewrite (num_steps_eq hours step_sec _ Hf);
    [|apply F64.signed_not_zero with false, Hsf].
  unfold window_quotient in Hint. rewrite Hint. cbn [bind].
  rewrite Py.range_nonpositive by exact Hn. reflexivity.
Qed.

(** X12: with a window that is not positive (and a positive step), every
    trajectory is the empty array, and as soon as two configured objects are
    retrieved the analysis of the first pair raises [AxisError] (the empty
    array has one dimension): the run yields no event list. *)
Theorem nonpositive_window_aborts_run (nid1 nid2 : Z) :
  (TIME_WINDOW_HOURS <=? 0)%float = true ->
  (0 < TIME_STEP_SECONDS < 2 ^ 53)%Z ->
  is_finite (window_quotient TIME_WINDOW_HOURS TIME_STEP_SECONDS) = true ->
  (forall nid nm line1 line2,
     In nid NORAD_IDS -> fetch_tle nid = Some (nm, line1, line2) ->
     is_ok (twoline2rv line1 line2) = true) ->
  In nid1 NORAD_IDS -> In nid2 NORAD_IDS -> nid1 <> nid2 ->
  ~ retrieval_failed (requests_get nid1) ->
  ~ retrieval_failed (requests_get nid2) ->
  run = (Raise AxisError, NORAD_IDS).
Proof using.
  clear_unused. intros Hh Hs Hfin Htle H1 H2 Hne Hr1 Hr2.
  assert (Hempty : forall nid nm line1 line2,
            In nid NORAD_IDS -> fetch_tle nid = Some (nm, line1, line2) ->
            propagate_positions line1 line2 start_time
              TIME_WINDOW_HOURS TIME_STEP_SECONDS = Ok []).
  { intros nid nm line1 line2 Hin Hf.
    specialize (Htle nid nm line1 line2 Hin Hf).
    destruct (twoline2rv line1 line2) as [satellite|e] eqn:E; [|discriminate].
    apply (propagate_positions_nonpositive_window _ _ _ _ _ satellite);
      assumption. }
  destruct (build_sats_spec NORAD_IDS [] [])
    as (sats & Hb & Hwf & Hkeys).
  { intros nid nm line1 line2 Hin Hf.
    rewrite (Hempty nid nm line1 line2 Hin Hf). reflexivity. }
  { constructor. }
  simpl in Hb. unfold run. rewrite Hb. f_equal.
  assert (Hpos : forall x, In x sats -> positions (snd x) = []).
  { intros x Hx. rewrite Forall_forall in Hwf.
    destruct (Hwf x Hx) as (line1 & line2 & Hf & Hp).
    assert (Hin : In (fst x) NORAD_IDS).
    { apply (in_map fst) in Hx. apply Hkeys in Hx.
      destruct Hx as [[]|[Hx _]]. exact Hx. }
    rewrite (Hempty _ _ _ _ Hin Hf) in Hp. injection Hp as <-. reflexivity. }
  assert (Hk1 : In nid1 (keys sats)) by (apply Hkeys; right; auto).
  assert (Hk2 : In nid2 (keys sats)) by (apply Hkeys; right; auto).
  destruct sats as [|a [|b rest]].
  - destruct Hk1.
  - simpl in Hk1, Hk2. destruct Hk1 as [<-|[]], Hk2 as [<-|[]]. congruence.
  - unfold closest_events. cbn [pairs map app mapM fst snd].
    unfold analyse_pair, closest_approach.
    rewrite (Hpos a), (Hpos b) by (simpl; auto). reflexivity.
Qed.

(** X13: the instant of an event is a valid instant of the calendar on the
    grid of the sampler: for two arrays of the same length the returned index
    [k] is an index of the arrays, and the instant of the event minus the
    start is [timedelta(seconds=k * step)]. *)
Theorem event_instant_on_grid (a b : Z * sat) (ev : event) :
  valid_datetime start_time = true ->
  length (positions (snd a)) = length (positions (snd b)) ->
  analyse_pair a b = Ok ev ->
  exists k td,
    (k < length (positions (snd a)))%nat /\
    closest_approach (positions (snd a)) (positions (snd b)) =
      Ok (k, distance ev) /\
    valid_datetime (time_of_approach ev) = true /\
    timedelta_seconds (Z.of_nat k * TIME_STEP_SECONDS) = Ok td /\
    datetime_sub (time_of_approach ev) start_time = Ok td.
Proof using.
  clear_unused. intros Hv Hlen Hev.
  destruct (analyse_pair_ok _ _ _ Hev) as (k & Hca & Hgrid & _ & _).
  destruct (closest_approach_ok _ _ _ _ Hca) as (ds & Hs & _ & Hk & _).
  destruct (separations_same_length _ _ _ Hlen Hs) as [_ Hds].
  destruct (grid_time_offset _ _ _ _ Hv Hgrid) as (td & Htd & Hsub).
  exists k, td. repeat split; auto.
  - lia.
  - apply (grid_time_ok _ _ _ _ Hv Hgrid).
Qed.

(** X14: for two arrays of the same length, the line of an event is ALERT
    exactly when at some index both samples are valid and their separation is
    below the threshold (so SAFE means that no sampled instant with two valid
    positions is below the threshold). *)
Theorem alert_iff_close_at_some_sample (a b : Z * sat) (ev : event) :
  length (positions (snd a)) = length (positions (snd b)) ->
  analyse_pair a b = Ok ev ->
  (map line_category (update_info [ev]) = [ALERT] <->
   exists i x y,
     nth_error (positions (snd a)) i = Some x /\
     nth_error (positions (snd b)) i = Some y /\
     valid x = true /\ valid y = true /\
     (dist x y <? COLLISION_THRESHOLD_KM)%float = true).
Proof using.
  clear_unused. intros Hlen Hev.
  destruct (analyse_pair_ok _ _ _ Hev) as (k & Hca & _).
  rewrite <- (closest_approach_below_iff _ _ _ _ COLLISION_THRESHOLD_KM
                Hlen Hca).
  unfold update_info. cbn [map].
  destruct (distance ev <? COLLISION_THRESHOLD_KM)%float; simpl;
    split; auto; discriminate.
Qed.

(** X15: two entries with the same well-formed positions, valid at some
    index: the distance of their event is 0 and its instant is that of the
    first index with a valid sample; the line of the event is ALERT for every
    positive threshold. *)
Theorem identical_trajectories_alert (a b : Z * sat) (ev : event)
    (i0 : nat) (x0 : vec3) :
  positions (snd b) = positions (snd a) ->
  well_formed (positions (snd a)) ->
  nth_error (positions (snd a)) i0 = Some x0 -> valid x0 = true ->
  analyse_pair a b = Ok ev ->
  distance ev = 0%float /\
  (exists k x,
     grid_time start_time TIME_STEP_SECONDS (Z.of_nat k) =
       Ok (time_of_approach ev) /\
     nth_error (positions (snd a)) k = Some x /\ valid x = true /\
     forall i x', (i < k)%nat -> nth_error (positions (snd a)) i = Some x' ->
                  valid x' = false) /\
  ((0 <? COLLISION_THRESHOLD_KM)%float = true ->
   map line_category (update_info [ev]) = [ALERT]).
Proof using.
  clear_unused. intros Hsame Hw Hx0 Hv0 Hev.
  destruct (analyse_pair_ok _ _ _ Hev) as (k & Hca & Hgrid & _).
  rewrite Hsame in Hca.
  destruct (closest_approach_self _ _ _ Hw Hx0 Hv0)
    as (k' & x & Hself & Hx & Hvx & Hfirst).
  rewrite Hself in Hca. injection Hca as <- Hd.
  split; [symmetry; exact Hd|]. split.
  - exists k', x. auto.
  - intros Hthr. unfold update_info. cbn [map].
    rewrite <- Hd, Hthr. reflexivity.
Qed.

(** X16: the analysis of a pair does not depend on the order of its two
    entries: taken the other way round it gives the same distance and the
    same instant (or the same exception), with the two names swapped. *)
Theorem analyse_pair_sym (a b : Z * sat) :
  analyse_pair b a =
  match analyse_pair a b with
  | Ok ev => Ok (mk_event (s2 ev) (s1 ev) (distance ev) (time_of_approach ev))
  | Raise e => Raise e
  end.
Proof using.
  clear_unused. unfold analyse_pair.
  rewrite (closest_approach_sym (positions (snd b)) (positions (snd a))).
  destruct (closest_approach (positions (snd a)) (positions (snd b)))
    as [[k d]|e]; [|reflexivity].
  cbn [bind].
  destruct (timedelta_seconds (Z.of_nat k * TIME_STEP_SECONDS)) as [td|e];
    [|reflexivity].
  cbn [bind]. destruct (datetime_add start_time td); reflexivity.
Qed.

(** X17: the distance of an event is never below zero; with a threshold that
    is not positive, the line of every event is SAFE. *)
Theorem nonpositive_threshold_never_alerts (a b : Z * sat) (ev : event) :
  analyse_pair a b = Ok ev ->
  (distance ev <? 0)%float = false /\
  ((COLLISION_THRESHOLD_KM <=? 0)%float = true ->
   map line_category (update_info [ev]) = [SAFE]).
Proof using.
  clear_unused. intros Hev.
  destruct (analyse_pair_ok _ _ _ Hev) as (k & Hca & _).
  destruct (closest_approach_not_negative _ _ _ _ Hca) as [H0 Hthr].
  split; [exact H0|]. intros H. unfold update_info. cbn [map].
  rewrite (Hthr _ H). reflexivity.
Qed.

(** *** The traces of the figure, lines 86-98

    The two loops over [sats.items()] that add, after the sphere of the Earth,
    one line per satellite through all its samples and then one marker per
    satellite at its first sample.  Of a [go.Scatter3d] the record keeps the
    coordinates, the mode, the colour and the name (the constant line width,
    marker size and symbol are left out). *)

(** The [IndexError]s of the two loops: [pos[:, 0]] on the one-dimensional
    empty array, [data['positions'][0]] on an array with no row. *)
Inductive index_error : Type := TooManyIndices | OutOfBounds.

Inductive trace_mode : Type := Lines | Markers.

Record scatter3d : Type := mk_scatter3d {
  trace_x : list float;
  trace_y : list float;
  trace_z : list float;
  trace_mode_of : trace_mode;
  trace_color : string;
  trace_name : string
}.

Definition colors : list string := ["cyan"; "magenta"; "yellow"; "lime"]%string.

(** [colors[i % len(colors)]] *)
Definition color_of (i : nat) : string :=
  nth (i mod length colors) colors ""%string.

Definition coord_x (p : vec3) : float := fst (fst p).
Definition coord_y (p : vec3) : float := snd (fst p).
Definition coord_z (p : vec3) : float := snd p.

(** The body of the first loop. *)
Definition orbit_trace (i : nat) (data : sat) : scatter3d + index_error :=
  match positions data with
  | [] => inr TooManyIndices
  | pos =>
      inl (mk_scatter3d (map coord_x pos) (map coord_y pos) (map coord_z pos)
             Lines (color_of i) (name data ++ " Orbit"))
  end.

(** The body of the second loop. *)
Definition marker_trace (i : nat) (data : sat) : scatter3d + index_error :=
  match positions data with
  | [] => inr OutOfBounds
  | pos :: _ =>
      inl (mk_scatter3d [coord_x pos] [coord_y pos] [coord_z pos]
             Markers (color_of i) (name data))
  end.

(** [for i, (nid, data) in enumerate(sats.items())], from the index [i]. *)
Fixpoint traces_from (body : nat -> sat -> scatter3d + index_error) (i : nat)
    (items : dict sat) : list scatter3d + index_error :=
  match items with
  | [] => inl []
  | (_, data) :: items' =>
      match body i data with
      | inr e => inr e
      | inl t =>
          match traces_from body (S i) items' with
          | inr e => inr e
          | inl ts => inl (t :: ts)
          end
      end
  end.

(** What the two loops append to [fig_data]. *)
Definition satellite_traces (sats : dict sat)
  : list scatter3d + index_error :=
  match traces_from orbit_trace 0 sats with
  | inr e => inr e
  | inl orbits =>
      match traces_from marker_trace 0 sats with
      | inr e => inr e
      | inl markers => inl (orbits ++ markers)
      end
  end.

Lemma traces_from_ok (body : nat -> sat -> scatter3d + index_error)
    (items : dict sat) (i0 : nat) :
  (forall i x, nth_error items i = Some x ->
               exists t, body (i0 + i)%nat (snd x) = inl t) ->
  exists ts, traces_from body i0 items = inl ts /\
             length ts = length items /\
             forall i x, nth_error items i = Some x ->
               exists t, body (i0 + i)%nat (snd x) = inl t /\
                         nth_error ts i = Some t.
Proof using.
  clear_unused. revert i0.
  induction items as [|[nid data] items IH]; intros i0 H.
  - exists []. repeat split. intros [|i] x Hx; discriminate.
  - destruct (H 0%nat (nid, data) eq_refl) as [t Ht].
    rewrite Nat.add_0_r in Ht. cbn [snd] in Ht.
    destruct (IH (S i0)) as (ts & Hts & Hlen & Hnth).
    { intros i x Hx. destruct (H (S i) x Hx) as [t' Ht'].
      exists t'. rewrite <- Ht'. f_equal. lia. }
    exists (t :: ts). cbn [traces_from]. rewrite Ht, Hts.
    split; [reflexivity|]. split; [simpl; lia|].
    intros [|i] x Hx.
    + injection Hx as <-. exists t. rewrite Nat.add_0_r. auto.
    + destruct (Hnth i x Hx) as (t' & Ht' & Hi). exists t'.
      split; [|exact Hi]. rewrite <- Ht'. f_equal. lia.
Qed.

Lemma traces_from_orbit_empty (items : dict sat) (i0 : nat) (x : Z * sat) :
  In x items -> positions (snd x) = [] ->
  traces_from orbit_trace i0 items = inr TooManyIndices.
Proof using.
  clear_unused. revert i0.
  induction items as [|[nid data] items IH]; intros i0 Hin Hx; [destruct Hin|].
  cbn [traces_from]. unfold orbit_trace at 1.
  destruct (positions data) as [|p ps] eqn:E; [reflexivity|].
  destruct Hin as [<-|Hin]; [simpl in Hx; congruence|].
  rewrite (IH (S i0) Hin Hx). reflexivity.
Qed.

(** X18: the figure gets its satellite traces exactly when no trajectory is
    empty.  Then there are two traces per entry of [sats]: the trace [i] is
    the line through all the samples of the entry [i], the trace [n + i] is
    the marker at its first sample, both in the colour [colors[i % 4]]; and
    when some trajectory is empty (a window that is not positive), the first
    loop raises [IndexError] and the script never starts the dashboard. *)
Theorem satellite_traces_spec (sats : dict sat) :
  ((forall x, In x sats -> positions (snd x) <> []) ->
   exists ts,
     satellite_traces sats = inl ts /\
     length ts = (2 * length sats)%nat /\
     forall i x, nth_error sats i = Some x ->
       exists p ps,
         positions (snd x) = p :: ps /\
         nth_error ts i =
           Some (mk_scatter3d (map coord_x (p :: ps)) (map coord_y (p :: ps))
                   (map coord_z (p :: ps)) Lines (color_of i)
                   (name (snd x) ++ " Orbit")) /\
         nth_error ts (length sats + i) =
           Some (mk_scatter3d [coord_x p] [coord_y p] [coord_z p]
                   Markers (color_of i) (name (snd x)))) /\
  (forall x, In x sats -> positions (snd x) = [] ->
   satellite_traces sats = inr TooManyIndices).
Proof using.
  clear_unused. split.
  - intros Hne.
    assert (Hrow : forall i x, nth_error sats i = Some x ->
              exists p ps, positions (snd x) = p :: ps).
    { intros i x Hx. apply nth_error_In in Hx. specialize (Hne x Hx).
      destruct (positions (snd x)) as [|p ps]; [congruence | eauto]. }
    destruct (traces_from_ok orbit_trace sats 0) as (os & Hos & Hol & Ho).
    { intros i x Hx. destruct (Hrow i x Hx) as (p & ps & E).
      unfold orbit_trace. rewrite E. eauto. }
    destruct (traces_from_ok marker_trace sats 0) as (ms & Hms & Hml & Hm).
    { intros i x Hx. destruct (Hrow i x Hx) as (p & ps & E).
      unfold marker_trace. rewrite E. eauto. }
    exists (os ++ ms). unfold satellite_traces. rewrite Hos, Hms.
    split; [reflexivity|]. split; [rewrite length_app; lia|].
    intros i x Hx. destruct (Hrow i x Hx) as (p & ps & E).
    exists p, ps. split; [exact E|].
    destruct (Ho i x Hx) as (t & Ht & Hti).
    destruct (Hm i x Hx) as (t' & Ht' & Hti').
    unfold orbit_trace in Ht. unfold marker_trace in Ht'.
    rewrite E in Ht, Ht'. injection Ht as <-. injection Ht' as <-.
    split.
    + rewrite nth_error_app1; [exact Hti|].
      rewrite Hol. apply nth_error_Some. congruence.
    + rewrite nth_error_app2 by lia.
      replace (length sats + i - length os)%nat with i by lia. exact Hti'.
  - intros x Hin Hx. unfold satellite_traces.
    rewrite (traces_from_orbit_empty sats 0 x Hin Hx). reflexivity.
Qed.

(** X19: for an entry made by the script from a retrieved record, with a
    valid start time, the marker of the satellite is at the sample of the
    start time itself, the position the propagator gives for that instant or
    the NaN triple. *)
Theorem marker_at_start_position (x : Z * sat) (i : nat) (t : scatter3d) :
  valid_datetime start_time = true ->
  entry_from_fetch x ->
  marker_trace i (snd x) = inl t ->
  exists line1 line2 satellite,
    fetch_tle (fst x) = Some (name (snd x), line1, line2) /\
    twoline2rv line1 line2 = Ok satellite /\
    t = mk_scatter3d [coord_x (position_at satellite start_time)]
          [coord_y (position_at satellite start_time)]
          [coord_z (position_at satellite start_time)]
          Markers (color_of i) (name (snd x)).
Proof using.
  clear_unused. intros Hv (line1 & line2 & Hf & Hp) Ht.
  destruct (propagate_positions_first_row _ _ _ _ _ _ Hv Hp)
    as (satellite & Htle & Hfirst).
  exists line1, line2, satellite. split; [exact Hf|]. split; [exact Htle|].
  unfold marker_trace in Ht.
  destruct (positions (snd x)) as [|p ps] eqn:E; [discriminate|].
  injection Ht as <-.
  specialize (Hfirst ltac:(discriminate)). cbn [nth_error] in Hfirst.
  injection Hfirst as ->. reflexivity.
Qed.

(** *** The countdown of [update_info], lines 140-147

    [now] is the instant [datetime.utcnow()] returns in the callback.  The
    minutes and the seconds are computed before the test, as in the source;
    [total_seconds] is called three times.  [TimeLeft m s] stands for the
    text "{m} min {s} sec left", [EventPassed] for "Event Passed"; [60] is the
    int [60] converted to a float by the float operation. *)

Inductive countdown : Type :=
| EventPassed
| TimeLeft (minutes_left seconds_left : Z).

Definition countdown_of (now : datetime) (ev : event) : result countdown :=
  time_left <- datetime_sub (time_of_approach ev) now ;;
  ts <- total_seconds time_left ;;
  q <- Py.float_floordiv ts 60 ;;
  minutes_left <- Py.int_of_float q ;;
  ts <- total_seconds time_left ;;
  r <- Py.float_mod ts 60 ;;
  seconds_left <- Py.int_of_float r ;;
  ts <- total_seconds time_left ;;
  Ok (if (ts <=? 0)%float then EventPassed
      else TimeLeft minutes_left seconds_left).

(** X20: for an approach that lies ahead by less than [2^52] microseconds
    (some 142 years), the countdown shows the whole seconds left, [us / 10^6],
    split into whole minutes (not reduced to hours) and the seconds over
    them, from 0 to 59: the rounding of [total_seconds] and the float floor
    division and remainder lose nothing of them. *)
Theorem countdown_time_left (now : datetime) (ev : event) :
  valid_datetime now = true ->
  valid_datetime (time_of_approach ev) = true ->
  let us := (datetime_microseconds (time_of_approach ev) -
             datetime_microseconds now)%Z in
  (0 < us < 2 ^ 52)%Z ->
  countdown_of now ev =
    Ok (TimeLeft (us / 1000000 / 60) (us / 1000000 mod 60)).
Proof using.
  clear_unused. intros Hnow Htoa us Hus.
  destruct (total_seconds_sub _ _ Htoa Hnow) as (td & Hsub & Hts & _).
  fold us in Hts.
  destruct (Py.int_truediv_million us ltac:(lia) ltac:(lia))
    as (t & V & Ht & HP & HV & Hb & Hfl).
  replace (us <? 0)%Z with false in HP by (symmetry; apply Z.ltb_ge; lia).
  destruct (Py.float_floordiv_60 t V HP HV Hb) as (q & Hq & Hqi).
  destruct (Py.float_mod_60 t V HP HV Hb) as (r & Hr & Hri).
  rewrite Hfl, Z.abs_eq in Hqi, Hri by lia.
  unfold countdown_of. rewrite Hsub. cbn [bind].
  rewrite Hts, Ht. cbn [bind]. rewrite Hq. cbn [bind].
  rewrite Hqi. cbn [bind]. rewrite Hr. cbn [bind]. rewrite Hri. cbn [bind].
  rewrite (Py.leb_canon_zero _ _ _ HP). reflexivity.
Qed.

(** For valid instants the countdown does not raise. *)
Lemma countdown_of_cases (now : datetime) (ev : event) :
  valid_datetime now = true ->
  valid_datetime (time_of_approach ev) = true ->
  let us := (datetime_microseconds (time_of_approach ev) -
             datetime_microseconds now)%Z in
  ((us <= 0)%Z -> countdown_of now ev = Ok EventPassed) /\
  ((0 < us)%Z -> exists m s, countdown_of now ev = Ok (TimeLeft m s)).
Proof using.
  clear_unused. intros Hnow Htoa us.
  destruct (total_seconds_sub _ _ Htoa Hnow) as (td & Hsub & Hts & Hrange).
  fold us in Hts, Hrange.
  unfold countdown_of. rewrite Hsub. cbn [bind]. rewrite Hts.
  destruct (Z.eq_dec us 0) as [E0|E0].
  - rewrite E0. split; [intros _; vm_compute; reflexivity | lia].
  - destruct (Py.int_truediv_million us E0 ltac:(lia))
      as (t & V & Ht & HP & HV & Hb & _).
    rewrite Ht. cbn [bind].
    rewrite (Py.leb_canon_zero _ _ _ HP).
    destruct (Z.ltb_spec us 0) as [Hneg|Hpos].
    + destruct (Py.float_floordiv_60_negative t V HP HV Hb) as (q & Hq & Hqi).
      destruct (Py.float_mod_60_negative t V HP HV Hb) as (r & z & Hr & Hri).
      rewrite Hq. cbn [bind]. rewrite Hqi. cbn [bind].
      rewrite Hr. cbn [bind]. rewrite Hri. cbn [bind].
      split; [reflexivity | lia].
    + destruct (Py.float_floordiv_60 t V HP HV Hb) as (q & Hq & Hqi).
      destruct (Py.float_mod_60 t V HP HV Hb) as (r & Hr & Hri).
      rewrite Hq. cbn [bind]. rewrite Hqi. cbn [bind].
      rewrite Hr. cbn [bind]. rewrite Hri. cbn [bind].
      split; [lia | intros _; eauto].
Qed.

(** X21: for valid instants the countdown never raises, and it reads
    "Event Passed" exactly when the time of approach is not after [now]. *)
Theorem countdown_event_passed_iff (now : datetime) (ev : event) :
  valid_datetime now = true ->
  valid_datetime (time_of_approach ev) = true ->
  exists c,
    countdown_of now ev = Ok c /\
    (c = EventPassed <->
     (datetime_microseconds (time_of_approach ev) <=
      datetime_microseconds now)%Z).
Proof using.
  clear_unused. intros Hnow Htoa.
  destruct (countdown_of_cases now ev Hnow Htoa) as [Hpast Hahead].
  cbv zeta in Hpast, Hahead.
  destruct (Z_le_gt_dec (datetime_microseconds (time_of_approach ev))
                        (datetime_microseconds now)) as [Hle|Hgt].
  - exists EventPassed. split; [apply Hpast; lia|]. split; auto.
  - destruct Hahead as (m & s & Hc); [lia|].
    exists (TimeLeft m s). split; [exact Hc|].
    split; [discriminate | lia].
Qed.

(** The paragraph of one event, lines 141-151: its countdown, then its line. *)
Definition info_paragraph (now : datetime) (ev : event)
  : result (info_line * countdown) :=
  c <- countdown_of now ev ;;
  Ok (if (distance ev <? COLLISION_THRESHOLD_KM)%float
      then mk_info_line ALERT (s1 ev) (s2 ev) (distance ev)
      else mk_info_line SAFE (s1 ev) (s2 ev) (distance ev), c).

(** The callback at the instant [now], with the countdowns. *)
Definition update_info_at (now : datetime) (events : list event)
  : result (list (info_line * countdown)) :=
  mapM (info_paragraph now) events.

(** X22: on the events the script computed for a valid start time the
    callback never raises, whatever instant the clock gives: it returns one
    paragraph per event, in the order of the events, with the line of the
    event and a countdown that reads "Event Passed" exactly when the time of
    approach is not after [now]. *)
Theorem update_info_never_raises (now : datetime) (sats : dict sat)
    (evs : list event) :
  valid_datetime start_time = true -> valid_datetime now = true ->
  closest_events sats = Ok evs ->
  exists ps,
    update_info_at now evs = Ok ps /\
    map fst ps = update_info evs /\
    Forall2 (fun ev p =>
               snd p = EventPassed <->
               (datetime_microseconds (time_of_approach ev) <=
                datetime_microseconds now)%Z) evs ps.
Proof using.
  clear_unused. intros Hstart Hnow Hevs.
  assert (Hvalid : Forall (fun ev => valid_datetime (time_of_approach ev) = true)
                          evs).
  { apply mapM_Forall2 in Hevs. clear - Hevs Hstart.
    induction Hevs as [|p ev l evs Hp _ IH]; constructor; [|exact IH].
    destruct (analyse_pair_ok _ _ _ Hp) as (k & _ & Hgrid & _).
    apply (grid_time_ok _ _ _ _ Hstart Hgrid). }
  clear Hevs Hstart sats. unfold update_info_at, update_info.
  induction Hvalid as [|ev evs Hev _ IH].
  - exists []. repeat split; constructor.
  - destruct IH as (ps & Hps & Hfst & HF).
    destruct (countdown_of_cases now ev Hnow Hev) as [Hpast Hahead].
    cbv zeta in Hpast, Hahead.
    destruct (Z_le_gt_dec (datetime_microseconds (time_of_approach ev))
                          (datetime_microseconds now)) as [Hle|Hgt].
    + eexists. cbn [mapM]. unfold info_paragraph at 1.
      rewrite Hpast by lia. cbn [bind]. rewrite Hps.
      split; [reflexivity|]. split.
      * cbn [map fst]. rewrite Hfst. reflexivity.
      * constructor; [|exact HF]. cbn [snd]. split; auto.
    + destruct Hahead as (m & s & Hc); [lia|].
      eexists. cbn [mapM]. unfold info_paragraph at 1.
      rewrite Hc. cbn [bind]. rewrite Hps.
      split; [reflexivity|]. split.
      * cbn [map fst]. rewrite Hfst. reflexivity.
      * constructor; [|exact HF]. cbn [snd]. split; [discriminate|lia].
Qed.

End Script.

(** The constants of the script. *)
Module Config.
Definition NORAD_IDS : list Z := [25544; 58215]%Z.
Definition TIME_WINDOW_HOURS : float := 6.0%float.
Definition TIME_STEP_SECONDS : Z := 60%Z.
Definition COLLISION_THRESHOLD_KM : float := 50.0%float.
End Config.

(** ** Worked inputs *)

(** A stand-in for the sgp4 library: the record keeps the two lines as they
    are (no validation), the Julian date is the ordinal day plus the fraction
    of the day, and propagation fails after 12:00:30. *)
Definition ex_satrec : Type := (string * string)%type.

Definition ex_twoline2rv (line1 line2 : string) : result ex_satrec :=
  Ok (line1, line2).

Definition ex_jday (y m d h mi sec : Z) : float * float :=
  ((Py.nearest_float (ymd2ord y m d) + 1721424.5)%float,
   (Py.nearest_float (sec + mi * 60 + h * 3600) / 86400)%float).

Definition ex_sgp4 (satellite : ex_satrec) (jd fr : float)
  : Z * vec3 * vec3 :=
  if (fr <? 0.50048828125)%float
  then (0%Z, ((7000 * fr)%float, 7000%float, jd), (0, 0, 0)%float)
  else (6%Z, (0, 0, 0)%float, (0, 0, 0)%float).

Definition nl : string := String (ascii_of_nat 10) EmptyString.

Definition iss_line1 : string :=
  "1 25544U 98067A   08264.51782528 -.00002182  00000-0 -11606-4 0  2927".
Definition iss_line2 : string :=
  "2 25544  51.6416 247.4627 0006703 130.5360 325.0288 15.72125391563537".

(** The last digit of line 1 changed from 7 to 0. *)
Definition bad_line1 : string :=
  "1 25544U 98067A   08264.51782528 -.00002182  00000-0 -11606-4 0  2920".

(** The network: a record for 25544, a connection failure for 58215, a
    one-line answer for anything else. *)
Definition ex_requests_get (nid : Z) : http_outcome :=
  if Z.eqb nid 25544 then
    Response 200 ("ISS (ZARYA)             " ++ nl ++ iss_line1 ++ nl
                  ++ iss_line2 ++ nl)
  else if Z.eqb nid 58215 then RequestException
  else Response 200 "No GP data found".

(** The same network, with the altered line 1 for 25544. *)
Definition bad_requests_get (nid : Z) : http_outcome :=
  if Z.eqb nid 25544 then
    Response 200 ("ISS (ZARYA)" ++ nl ++ bad_line1 ++ nl ++ iss_line2 ++ nl)
  else ex_requests_get nid.

(** The modulo-10 checksum of the element-set format: the digits of the first
    68 columns count their value, a minus sign counts 1, and column 69 holds
    the sum modulo 10.  The script has no such function. *)
Definition checksum_value (c : ascii) : nat :=
  let n := nat_of_ascii c in
  if (48 <=? n)%nat && (n <=? 57)%nat then (n - 48)%nat
  else if (n =? 45)%nat then 1%nat else 0%nat.

Fixpoint checksum_sum (line : string) (k : nat) : nat :=
  match k, line with
  | S k', String c line' => (checksum_value c + checksum_sum line' k')%nat
  | _, _ => 0%nat
  end.

Definition tle_checksum_ok (line : string) : bool :=
  match String.get 68 line with
  | Some c => (nat_of_ascii c =? 48 + checksum_sum line 68 mod 10)%nat
  | None => false
  end.

Definition ex_start : datetime := mk_datetime 2026 11 3 12 0 0 250000.

Definition sat_a : Z * sat :=
  (25544%Z, mk_sat "ISS (ZARYA)" [(7000, 0, 0); (0, 7000, 0)]%float).
Definition sat_b : Z * sat :=
  (58215%Z, mk_sat "STARLINK-30783" [(7000, 40, 0); (0, 7000, 30)]%float).
Definition sat_nan : Z * sat :=
  (90001%Z, mk_sat "DECAYED" [nan3; nan3]).
Definition sat_long : Z * sat :=
  (90002%Z, mk_sat "LONG" [(7100, 0, 0); (0, 7100, 0); (0, 0, 7100)]%float).

Example ex_pair_event :
  closest_events ex_start 60 [sat_a; sat_b] =
  Ok [mk_event "ISS (ZARYA)" "STARLINK-30783" 30
        (mk_datetime 2026 11 3 12 1 0 250000)].
Proof. vm_compute. reflexivity. Qed.

(** C4 fails as stated: the pair (ISS, STARLINK) has a closest approach, but
    with a third object that has no valid sample the run raises and reports
    nothing, not even that pair's event. *)
Lemma no_valid_overlap_is_not_isolated :
  is_ok (analyse_pair ex_start 60 sat_a sat_b) = true /\
  closest_events ex_start 60 [sat_a; sat_b; sat_nan] = Raise ValueError_all_nan.
Proof. split; vm_compute; reflexivity. Qed.

Lemma no_valid_overlap_aborts_run_witness :
  analyse_pair ex_start 60 sat_a sat_nan = Raise ValueError_all_nan /\
  exists e, closest_events ex_start 60 [sat_a; sat_b; sat_nan] = Raise e.
Proof.
  apply (no_valid_overlap_aborts_run ex_start 60
           [sat_a; sat_b; sat_nan] sat_a sat_nan).
  - simpl. auto.
  - reflexivity.
  - discriminate.
  - intros [|[|i]] x y Hx Hy; simpl in Hx, Hy;
      try (destruct i; discriminate);
      injection Hy as <-; right; reflexivity.
Defined.

(** C7 fails as stated: a third object with three samples against two makes
    the run raise and report nothing, not even the event of the pair on the
    common grid; and a one-sample array is compared against every sample of
    the other array without any error. *)
Lemma grid_mismatch_is_not_isolated :
  is_ok (analyse_pair ex_start 60 sat_a sat_b) = true /\
  closest_events ex_start 60 [sat_a; sat_b; sat_long] =
    Raise ValueError_broadcast /\
  closest_approach [(7000, 0, 0)]%float (positions (snd sat_long)) =
    Ok (0%nat, 100%float).
Proof. repeat split; vm_compute; reflexivity. Qed.

Lemma grid_mismatch_aborts_run_witness :
  analyse_pair ex_start 60 sat_a sat_long = Raise ValueError_broadcast /\
  exists e, closest_events ex_start 60 [sat_a; sat_b; sat_long] = Raise e.
Proof.
  apply (grid_mismatch_aborts_run ex_start 60
           [sat_a; sat_b; sat_long] sat_a sat_long).
  - simpl. auto.
  - simpl. lia.
  - simpl. lia.
  - simpl. lia.
Defined.

(** *** The sampler on the stand-in library *)

(** With the constants of the script the grid has 360 points. *)
Example config_num_steps :
  num_steps Config.TIME_WINDOW_HOURS Config.TIME_STEP_SECONDS = Ok 360%Z.
Proof. vm_compute. reflexivity. Qed.

Example ex_propagate_positions :
  propagate_positions ex_satrec ex_twoline2rv ex_jday ex_sgp4
    iss_line1 iss_line2 ex_start 0.0625 60 =
  Ok [(3500, 7000, 2461347.5)%float; nan3; nan3].
Proof. vm_compute. reflexivity. Qed.

(** C5 fails as stated: for a window of 0.3 hours (the double nearest to 0.3,
    which is below it) and a step of 60 seconds the exact quotient is below
    18, so its floor is 17; the product [hours * 3600] rounds to 1080 and the
    sampler returns 18 rows. *)
Lemma fractional_window_count_is_not_exact_floor :
  (0 <? 0x1.3333333333333p-2)%float = true /\
  spec_sample_count 0x1.3333333333333p-2 60 = Some 17%Z /\
  num_steps 0x1.3333333333333p-2 60 = Ok 18%Z /\
  exists ps,
    propagate_positions ex_satrec ex_twoline2rv ex_jday ex_sgp4
      iss_line1 iss_line2 ex_start 0x1.3333333333333p-2 60 = Ok ps /\
    length ps = 18%nat.
Proof.
  split; [reflexivity|]. split; [vm_compute; reflexivity|].
  split; [vm_compute; reflexivity|].
  eexists. split; [vm_compute; reflexivity | reflexivity].
Qed.

Lemma propagate_positions_samples_every_index_witness :
  exists ps,
    propagate_positions ex_satrec ex_twoline2rv ex_jday ex_sgp4
      iss_line1 iss_line2 ex_start 0.0625 60 = Ok ps /\
    Z.of_nat (length ps) = 3%Z /\
    forall i, (i < length ps)%nat ->
      exists t td,
        valid_datetime t = true /\
        timedelta_seconds (Z.of_nat i * 60) = Ok td /\
        datetime_sub t ex_start = Ok td /\
        nth_error ps i =
          Some (let '(jd, fr) := ex_jday (year t) (month t) (day t)
                                         (hour t) (minute t) (second t) in
                let '(error, position, _) :=
                  ex_sgp4 (iss_line1, iss_line2) jd fr in
                if (error =? 0)%Z then position else nan3).
Proof.
  destruct (propagate_positions_samples_every_index
              ex_satrec ex_twoline2rv ex_jday ex_sgp4
              iss_line1 iss_line2 ex_start 0.0625 60
              (iss_line1, iss_line2))
    as (n & ps & Hfloor & Hn & Hps & Hlen & Hsamples).
  - reflexivity.
  - reflexivity.
  - split; reflexivity.
  - reflexivity.
  - vm_compute. reflexivity.
  - intros n Hn. vm_compute in Hn. injection Hn as <-.
    vm_compute. discriminate.
  - exists ps. vm_compute in Hfloor. injection Hfloor as <-.
    split; [exact Hps | split; [exact Hlen | exact Hsamples]].
Defined.

(** C6 fails as stated: a negative window, or a negative step, is not
    rejected; the sampler returns an empty array, without any error. *)
Lemma nonpositive_parameters_are_not_rejected :
  propagate_positions ex_satrec ex_twoline2rv ex_jday ex_sgp4
    iss_line1 iss_line2 ex_start (-6) 60 = Ok [] /\
  propagate_positions ex_satrec ex_twoline2rv ex_jday ex_sgp4
    iss_line1 iss_line2 ex_start 6 (-60) = Ok [] /\
  propagate_positions ex_satrec ex_twoline2rv ex_jday ex_sgp4
    iss_line1 iss_line2 ex_start 0 60 = Ok [].
Proof. repeat split; vm_compute; reflexivity. Qed.

Lemma propagate_positions_parameter_handling_witness :
  propagate_positions ex_satrec ex_twoline2rv ex_jday ex_sgp4
    iss_line1 iss_line2 ex_start (-6) 60 = Ok [].
Proof.
  destruct (propagate_positions_parameter_handling
              ex_satrec ex_twoline2rv ex_jday ex_sgp4
              iss_line1 iss_line2 ex_start (-6) 60 (iss_line1, iss_line2)
              eq_refl)
    as (_ & Hempty & _).
  apply Hempty.
  - vm_compute. reflexivity.
  - left. split; [reflexivity | split; reflexivity].
Defined.

Lemma propagator_instant_truncated_to_seconds_witness :
  (forall i, (i < length [(3500, 7000, 2461347.5)%float; nan3; nan3])%nat ->
     exists t td,
       valid_datetime t = true /\
       timedelta_seconds (Z.of_nat i * 60) = Ok td /\
       datetime_sub t ex_start = Ok td /\
       microsecond t = microsecond ex_start /\
       let r := replace_microsecond t 0 in
       valid_datetime r = true /\
       microsecond r = 0%Z /\
       datetime_sub t r = Ok (mk_timedelta 0 0 (microsecond ex_start)) /\
       (0 <= microsecond ex_start < 1000000)%Z /\
       nth_error [(3500, 7000, 2461347.5)%float; nan3; nan3] i =
         Some (let '(jd, fr) := ex_jday (year r) (month r) (day r)
                                        (hour r) (minute r) (second r) in
               let '(error, position, _) :=
                 ex_sgp4 (iss_line1, iss_line2) jd fr in
               if (error =? 0)%Z then position else nan3)) /\
  propagate_positions ex_satrec ex_twoline2rv ex_jday ex_sgp4
    iss_line1 iss_line2 (replace_microsecond ex_start 0) 0.0625 60 =
  Ok [(3500, 7000, 2461347.5)%float; nan3; nan3].
Proof.
  apply (propagator_instant_truncated_to_seconds
           ex_satrec ex_twoline2rv ex_jday ex_sgp4
           iss_line1 iss_line2 (iss_line1, iss_line2) ex_start 0.0625 60).
  - reflexivity.
  - reflexivity.
  - vm_compute. reflexivity.
Defined.

(** *** The script on the stand-in network *)

Definition ex_ids : list Z := [25544; 58215; 99999]%Z.

Example ex_run :
  build_sats ex_satrec ex_twoline2rv ex_jday ex_sgp4 ex_requests_get
    ex_start 0.0625 60 ex_ids [] [] =
  (Ok [(25544%Z,
        mk_sat "ISS (ZARYA)" [(3500, 7000, 2461347.5)%float; nan3; nan3])],
   ex_ids).
Proof. vm_compute. reflexivity. Qed.


(** C9 fails as stated: the record whose line 1 has a wrong checksum digit is
    accepted as it is, and the run goes on with it; a one-line answer gives no
    record and no error. *)
Lemma bad_checksum_record_is_accepted :
  tle_checksum_ok iss_line1 = true /\
  tle_checksum_ok bad_line1 = false /\
  fetch_tle bad_requests_get 25544 =
    Some ("ISS (ZARYA)"%string, bad_line1, iss_line2) /\
  build_sats ex_satrec ex_twoline2rv ex_jday ex_sgp4 bad_requests_get
    ex_start 0.0625 60 ex_ids [] [] =
  (Ok [(25544%Z,
        mk_sat "ISS (ZARYA)" [(3500, 7000, 2461347.5)%float; nan3; nan3])],
   ex_ids) /\
  fetch_tle bad_requests_get 99999 = None.
Proof. repeat split; vm_compute; reflexivity. Qed.

Lemma fetch_tle_accepts_any_three_lines_witness :
  fetch_tle bad_requests_get 25544 =
  Some (Str.strip "ISS (ZARYA)", Str.strip bad_line1, Str.strip iss_line2).
Proof.
  destruct (fetch_tle_accepts_any_three_lines
              ex_satrec ex_twoline2rv ex_jday ex_sgp4 bad_requests_get 25544)
    as (_ & Haccept & _).
  apply (Haccept 200%Z
           ("ISS (ZARYA)" ++ nl ++ bad_line1 ++ nl ++ iss_line2 ++ nl)%string
           "ISS (ZARYA)"%string bad_line1 iss_line2 []).
  - reflexivity.
  - intros [H _]. apply H. reflexivity.
  - vm_compute. reflexivity.
Defined.

(** *** The classifier on the values of the specification *)

#[local] Set Warnings "-inexact-float".

Example ex_update_info :
  map line_category
    (update_info Config.COLLISION_THRESHOLD_KM
       [mk_event "A" "B" 49.999 ex_start;
        mk_event "A" "B" 50.0 ex_start;
        mk_event "A" "B" 50.001 ex_start]) =
  [ALERT; SAFE; SAFE].
Proof. vm_compute. reflexivity. Qed.

(** *** Worked inputs for the further properties *)

(** The last minute of the calendar. *)
Definition last_minute : datetime := mk_datetime 9999 12 31 23 59 30 0.

(** The event of the pair (ISS, STARLINK) of the worked inputs. *)
Definition ex_event : event :=
  mk_event "ISS (ZARYA)" "STARLINK-30783" 30
    (mk_datetime 2026 11 3 12 1 0 250000).

Example ex_analyse_pair : analyse_pair ex_start 60 sat_a sat_b = Ok ex_event.
Proof. vm_compute. reflexivity. Qed.

(** A network that answers with CR LF line ends, and with a fourth line. *)
Definition crlf_requests_get (nid : Z) : http_outcome :=
  Response 200
    (Str.terminated Str.CRLF ["ISS (ZARYA)"; iss_line1; iss_line2; "EOF"]%string).

(** A network with a record for 25544 and for 58215. *)
Definition two_requests_get (nid : Z) : http_outcome :=
  if Z.eqb nid 25544 || Z.eqb nid 58215 then
    Response 200 ("OBJECT" ++ nl ++ iss_line1 ++ nl ++ iss_line2 ++ nl)
  else RequestException.

(** A stand-in for [twoline2rv] that rejects a line 1 whose checksum digit is
    wrong. *)
Definition strict_twoline2rv (line1 line2 : string) : result ex_satrec :=
  if tle_checksum_ok line1 then Ok (line1, line2) else Raise (LibraryError 1).

Lemma grid_time_resume_witness :
  grid_time (mk_datetime 2026 11 3 12 1 0 250000) 60 2 =
  grid_time ex_start 60 (1 + 2).
Proof.
  apply (grid_time_resume ex_start _ 60 1 2); vm_compute; reflexivity.
Defined.

Lemma grid_time_ok_iff_witness :
  (is_ok (grid_time last_minute 60 1) = true <->
   (1 <= toordinal last_minute +
         (second last_minute + minute last_minute * 60 +
          hour last_minute * 3600 + 1 * 60) / 86400 <= MAXORDINAL)%Z) /\
  (is_ok (grid_time last_minute 60 1) = false ->
   grid_time last_minute 60 1 = Raise OverflowError).
Proof. apply (grid_time_ok_iff last_minute 60 1). reflexivity. Defined.

(** The array of the worked sampler run. *)
Definition ex_rows : ndarray3 := [(3500, 7000, 2461347.5)%float; nan3; nan3].

Lemma propagate_positions_rows_on_grid_witness :
  exists satellite,
    ex_twoline2rv iss_line1 iss_line2 = Ok satellite /\
    (forall i, (i < length ex_rows)%nat ->
       exists t td,
         nth_error ex_rows i =
           Some (position_at ex_satrec ex_jday ex_sgp4 satellite t) /\
         valid_datetime t = true /\
         timedelta_seconds (Z.of_nat i * 60) = Ok td /\
         datetime_sub t ex_start = Ok td) /\
    (ex_rows <> [] ->
     nth_error ex_rows 0 =
       Some (position_at ex_satrec ex_jday ex_sgp4 satellite ex_start)).
Proof.
  apply (propagate_positions_rows_on_grid ex_satrec ex_twoline2rv ex_jday
           ex_sgp4 iss_line1 iss_line2 ex_start 0.0625 60 ex_rows);
    [reflexivity | vm_compute; reflexivity].
Defined.

Lemma propagate_positions_count_errors_witness :
  propagate_positions ex_satrec ex_twoline2rv ex_jday ex_sgp4
    iss_line1 iss_line2 ex_start nan 60 = Raise ValueError_nan /\
  propagate_positions ex_satrec ex_twoline2rv ex_jday ex_sgp4
    iss_line1 iss_line2 ex_start infinity 60 = Raise OverflowError.
Proof.
  split.
  - apply (propagate_positions_count_errors ex_satrec ex_twoline2rv ex_jday
             ex_sgp4 iss_line1 iss_line2 ex_start nan 60
             (iss_line1, iss_line2));
      [reflexivity | discriminate | split; reflexivity
      | vm_compute; reflexivity].
  - apply (propagate_positions_count_errors ex_satrec ex_twoline2rv ex_jday
             ex_sgp4 iss_line1 iss_line2 ex_start infinity 60
             (iss_line1, iss_line2));
      [reflexivity | discriminate | split; reflexivity
      | vm_compute; reflexivity].
Defined.

Lemma propagate_positions_in_calendar_witness :
  exists n ps,
    Py.floor_float
      (window_quotient Config.TIME_WINDOW_HOURS Config.TIME_STEP_SECONDS) =
      Some n /\
    propagate_positions ex_satrec ex_twoline2rv ex_jday ex_sgp4
      iss_line1 iss_line2 ex_start
      Config.TIME_WINDOW_HOURS Config.TIME_STEP_SECONDS = Ok ps /\
    Z.of_nat (length ps) = n.
Proof.
  apply (propagate_positions_in_calendar ex_satrec ex_twoline2rv ex_jday
           ex_sgp4 iss_line1 iss_line2 ex_start
           Config.TIME_WINDOW_HOURS Config.TIME_STEP_SECONDS
           (iss_line1, iss_line2)).
  - reflexivity.
  - split; reflexivity.
  - reflexivity.
  - vm_compute. reflexivity.
  - reflexivity.
  - intros n Hn. vm_compute in Hn. injection Hn as <-.
    vm_compute. discriminate.
Defined.

Lemma fetch_tle_record_clean_witness :
  "ISS (ZARYA)"%string <> ""%string /\
  (Str.strip "ISS (ZARYA)" = "ISS (ZARYA)"%string /\
   Str.no_linebreak "ISS (ZARYA)" = true) /\
  (Str.strip iss_line1 = iss_line1 /\ Str.no_linebreak iss_line1 = true) /\
  (Str.strip iss_line2 = iss_line2 /\ Str.no_linebreak iss_line2 = true).
Proof.
  apply (fetch_tle_record_clean ex_requests_get 25544).
  vm_compute. reflexivity.
Defined.

Lemma fetch_tle_well_formed_reply_witness :
  fetch_tle crlf_requests_get 25544 =
  Some ("ISS (ZARYA)"%string, iss_line1, iss_line2).
Proof.
  apply (fetch_tle_well_formed_reply crlf_requests_get 25544 200 Str.CRLF
           "ISS (ZARYA)" iss_line1 iss_line2 ["EOF"%string]).
  - reflexivity.
  - intros [H _]. apply H. reflexivity.
  - right. left. reflexivity.
  - repeat constructor; vm_compute; reflexivity.
  - discriminate.
  - discriminate.
Defined.

Lemma build_sats_keys_in_order_witness :
  NoDup [25544%Z] /\
  [25544%Z] = filter (retrieved ex_requests_get) ex_ids.
Proof.
  destruct (build_sats_keys_in_order ex_satrec ex_twoline2rv ex_jday ex_sgp4
              ex_requests_get ex_start ex_ids 0.0625 60
              [(25544%Z,
                mk_sat "ISS (ZARYA)"
                  [(3500, 7000, 2461347.5)%float; nan3; nan3])]
              ex_ids ex_run) as [Hnd Hkeys].
  split; [exact Hnd|]. apply Hkeys.
  repeat constructor; simpl; intuition discriminate.
Defined.

Lemma sampler_error_aborts_script_witness :
  run ex_satrec strict_twoline2rv ex_jday ex_sgp4 bad_requests_get ex_start
    [99999; 25544; 58215]%Z 0.0625 60 =
  (Raise (LibraryError 1), [99999; 25544]%Z).
Proof.
  apply (sampler_error_aborts_script ex_satrec strict_twoline2rv ex_jday
           ex_sgp4 bad_requests_get ex_start [99999; 25544; 58215]%Z
           0.0625 60 [99999%Z] [58215%Z] 25544
           "ISS (ZARYA)" bad_line1 iss_line2 (LibraryError 1)).
  - reflexivity.
  - intros x nm' l1 l2 [<-|[]] H. vm_compute in H. discriminate H.
  - vm_compute. reflexivity.
  - vm_compute. reflexivity.
Defined.

Lemma closest_events_all_pairs_witness :
  (2 * length [ex_event] = length [sat_a; sat_b] * (length [sat_a; sat_b] - 1))%nat /\
  Forall2 (fun p ev =>
             analyse_pair ex_start 60 (fst p) (snd p) = Ok ev /\
             s1 ev = name (snd (fst p)) /\ s2 ev = name (snd (snd p)))
          (pairs [sat_a; sat_b]) [ex_event].
Proof.
  apply (closest_events_all_pairs ex_start 60 [sat_a; sat_b] [ex_event]).
  vm_compute. reflexivity.
Defined.

Lemma nonpositive_window_aborts_run_witness :
  run ex_satrec ex_twoline2rv ex_jday ex_sgp4 two_requests_get ex_start
    Config.NORAD_IDS (-6) 60 =
  (Raise AxisError, Config.NORAD_IDS).
Proof.
  apply (nonpositive_window_aborts_run ex_satrec ex_twoline2rv ex_jday
           ex_sgp4 two_requests_get ex_start Config.NORAD_IDS (-6) 60
           25544 58215).
  - reflexivity.
  - split; reflexivity.
  - vm_compute. reflexivity.
  - intros nid nm line1 line2 _ _. reflexivity.
  - left. reflexivity.
  - right. left. reflexivity.
  - discriminate.
  - intros [[H _]|H]; [apply H; reflexivity | vm_compute in H; lia].
  - intros [[H _]|H]; [apply H; reflexivity | vm_compute in H; lia].
Defined.

Lemma event_instant_on_grid_witness :
  exists k td,
    (k < length (positions (snd sat_a)))%nat /\
    closest_approach (positions (snd sat_a)) (positions (snd sat_b)) =
      Ok (k, distance ex_event) /\
    valid_datetime (time_of_approach ex_event) = true /\
    timedelta_seconds (Z.of_nat k * 60) = Ok td /\
    datetime_sub (time_of_approach ex_event) ex_start = Ok td.
Proof.
  apply (event_instant_on_grid ex_start 60 sat_a sat_b ex_event);
    vm_compute; reflexivity.
Defined.

Lemma alert_iff_close_at_some_sample_witness :
  map line_category (update_info Config.COLLISION_THRESHOLD_KM [ex_event]) =
    [ALERT] <->
  exists i x y,
    nth_error (positions (snd sat_a)) i = Some x /\
    nth_error (positions (snd sat_b)) i = Some y /\
    valid x = true /\ valid y = true /\
    (dist x y <? Config.COLLISION_THRESHOLD_KM)%float = true.
Proof.
  apply (alert_iff_close_at_some_sample ex_start 60
           Config.COLLISION_THRESHOLD_KM sat_a sat_b ex_event);
    vm_compute; reflexivity.
Defined.

Lemma sat_a_well_formed : well_formed (positions (snd sat_a)).
Proof. repeat constructor; intros _; vm_compute; reflexivity. Qed.

Lemma identical_trajectories_alert_witness :
  distance (mk_event "ISS (ZARYA)" "ISS (ZARYA)" 0 ex_start) = 0%float /\
  (exists k x,
     grid_time ex_start 60 (Z.of_nat k) = Ok ex_start /\
     nth_error (positions (snd sat_a)) k = Some x /\ valid x = true /\
     forall i x', (i < k)%nat -> nth_error (positions (snd sat_a)) i = Some x' ->
                  valid x' = false) /\
  ((0 <? Config.COLLISION_THRESHOLD_KM)%float = true ->
   map line_category
     (update_info Config.COLLISION_THRESHOLD_KM
        [mk_event "ISS (ZARYA)" "ISS (ZARYA)" 0 ex_start]) = [ALERT]).
Proof.
  apply (identical_trajectories_alert ex_start 60
           Config.COLLISION_THRESHOLD_KM sat_a sat_a
           (mk_event "ISS (ZARYA)" "ISS (ZARYA)" 0 ex_start)
           0%nat (7000, 0, 0)%float).
  - reflexivity.
  - exact sat_a_well_formed.
  - reflexivity.
  - reflexivity.
  - vm_compute. reflexivity.
Defined.

Lemma nonpositive_threshold_never_alerts_witness :
  (distance ex_event <? 0)%float = false /\
  ((0 <=? 0)%float = true ->
   map line_category (update_info 0 [ex_event]) = [SAFE]).
Proof.
  apply (nonpositive_threshold_never_alerts ex_start 60 0 sat_a sat_b
           ex_event).
  vm_compute. reflexivity.
Defined.

(** The entry the script makes for the ISS on the stand-in network. *)
Definition ex_entry : Z * sat := (25544%Z, mk_sat "ISS (ZARYA)" ex_rows).

Example ex_satellite_traces :
  satellite_traces [ex_entry] =
  inl [mk_scatter3d [3500; nan; nan]%float [7000; nan; nan]%float
         [2461347.5; nan; nan]%float Lines "cyan" "ISS (ZARYA) Orbit";
       mk_scatter3d [3500%float] [7000%float] [2461347.5%float]
         Markers "cyan" "ISS (ZARYA)"].
Proof. vm_compute. reflexivity. Qed.

Lemma marker_at_start_position_witness :
  exists line1 line2 satellite,
    fetch_tle ex_requests_get 25544 = Some ("ISS (ZARYA)"%string, line1, line2) /\
    ex_twoline2rv line1 line2 = Ok satellite /\
    mk_scatter3d [3500%float] [7000%float] [2461347.5%float]
      Markers "cyan" "ISS (ZARYA)" =
    mk_scatter3d
      [coord_x (position_at ex_satrec ex_jday ex_sgp4 satellite ex_start)]
      [coord_y (position_at ex_satrec ex_jday ex_sgp4 satellite ex_start)]
      [coord_z (position_at ex_satrec ex_jday ex_sgp4 satellite ex_start)]
      Markers (color_of 0) "ISS (ZARYA)".
Proof.
  apply (marker_at_start_position ex_satrec ex_twoline2rv ex_jday ex_sgp4
           ex_requests_get ex_start 0.0625 60 ex_entry 0).
  - reflexivity.
  - exists iss_line1, iss_line2. split; vm_compute; reflexivity.
  - reflexivity.
Defined.

(** The countdown of the worked event two minutes and 5.5 seconds before the
    approach, and a microsecond after it. *)
Example ex_countdown_fraction :
  countdown_of (mk_datetime 2026 11 3 11 58 54 750000) ex_event =
  Ok (TimeLeft 2 5).
Proof. vm_compute. reflexivity. Qed.

Example ex_countdown_just_passed :
  countdown_of (mk_datetime 2026 11 3 12 1 0 250001) ex_event = Ok EventPassed.
Proof. vm_compute. reflexivity. Qed.

Lemma countdown_time_left_witness :
  countdown_of ex_start ex_event = Ok (TimeLeft 1 0).
Proof.
  apply (countdown_time_left ex_start ex_event).
  - reflexivity.
  - reflexivity.
  - vm_compute. split; reflexivity.
Defined.

Lemma countdown_event_passed_iff_witness :
  exists c,
    countdown_of (time_of_approach ex_event) ex_event = Ok c /\
    (c = EventPassed <->
     (datetime_microseconds (time_of_approach ex_event) <=
      datetime_microseconds (time_of_approach ex_event))%Z).
Proof.
  apply (countdown_event_passed_iff (time_of_approach ex_event) ex_event);
    reflexivity.
Defined.

Lemma update_info_never_raises_witness :
  exists ps,
    update_info_at 50 ex_start [ex_event] = Ok ps /\
    map fst ps = update_info 50 [ex_event] /\
    Forall2 (fun ev p =>
               snd p = EventPassed <->
               (datetime_microseconds (time_of_approach ev) <=
                datetime_microseconds ex_start)%Z) [ex_event] ps.
Proof.
  apply (update_info_never_raises ex_start 60 50 ex_start [sat_a; sat_b]
           [ex_event]).
  - reflexivity.
  - reflexivity.
  - vm_compute. reflexivity.
Defined.

(** The constants of the script: 6 hours at 60 seconds. *)
Lemma whole_hours_sample_count_witness :
  num_steps Config.TIME_WINDOW_HOURS Config.TIME_STEP_SECONDS = Ok 360%Z /\
  spec_sample_count Config.TIME_WINDOW_HOURS Config.TIME_STEP_SECONDS =
    Some 360%Z.
Proof.
  apply (whole_hours_sample_count 6 60); [lia | reflexivity | lia].
Defined.

End Monitor.
